(** * Verification of ninja's Win32 subprocess engine with batching

    Shallow embedding of [src/subprocess-win32.cc]: the per-process state
    machine ([Subprocess]), the process set ([SubprocessSet]) and the batch
    framing protocol ([BatchSubprocess]).

    Conventions of the embedding:
    - [std::string] is a list of characters; [size_t] is an integer modulo
      [2^64] with the wrap-around written out ([wrap]); [string::npos] is
      [2^64 - 1];
    - [std::set<int>] is a [gset Z], [std::map<int, string>] a [gmap Z _];
    - objects live in a heap indexed by pointers; [new] takes the next
      unused pointer;
    - every answer of the operating system is an explicit argument of the
      function that asks for it;
    - a [while] or indexed [for] loop takes a fuel argument that bounds the
      number of executions of its body; running out of it is the outcome
      [OutOfFuel], so a loop that never exits is one that yields [OutOfFuel]
      for every fuel. *)

From Stdlib Require Import ZArith Ascii String List Lia.
From Stdlib Require Import DecimalString DecimalPos.
From stdpp Require Import gmap list.

Open Scope Z_scope.

#[local] Set Warnings "-clear-no-such-hyp".

(** ** Outcomes of a call *)

Inductive outcome (A : Type) : Type :=
| Ret (a : A)              (* the call returns *)
| Undefined                (* behaviour not defined by the language *)
| Throws (what : string)   (* a C++ exception leaves the call *)
| Fatal (op : string)      (* Win32Fatal / Fatal: the program aborts *)
| OutOfFuel.               (* the loop bound of the model was reached *)

Arguments Ret {A} a.
Arguments Undefined {A}.
Arguments Throws {A} what.
Arguments Fatal {A} op.
Arguments OutOfFuel {A}.

Definition obind {A B : Type} (m : outcome A) (f : A -> outcome B) : outcome B :=
  match m with
  | Ret a => f a
  | Undefined => Undefined
  | Throws w => Throws w
  | Fatal op => Fatal op
  | OutOfFuel => OutOfFuel
  end.

#[global] Instance outcome_bind : MBind outcome := fun A B f m => obind m f.
#[global] Instance outcome_ret : MRet outcome := fun A a => Ret a.

(** ** Strings and [size_t] *)

Abbreviation str := (list ascii).

Definition lit (s : string) : str := list_ascii_of_string s.

Definition size_t_modulus : Z := 2 ^ 64.
Definition npos : Z := size_t_modulus - 1.
Definition wrap (z : Z) : Z := z mod size_t_modulus.

(** [std::string::length] *)
Definition slen (s : str) : Z := Z.of_nat (length s).

Definition ascii_eqb (a b : ascii) : bool := Ascii.eqb a b.

(** Does [s] begin with [tok]? *)
Fixpoint starts_with (tok s : str) : bool :=
  match tok, s with
  | [], _ => true
  | _ :: _, [] => false
  | a :: tok', b :: s' => ascii_eqb a b && starts_with tok' s'
  end.

(** Search of [tok] in the suffix [s] that begins at index [i]. *)
Fixpoint find_from (tok s : str) (i : Z) : Z :=
  if starts_with tok s then i
  else match s with
       | [] => npos
       | _ :: s' => find_from tok s' (i + 1)
       end.

(** [s.find(tok, pos)] *)
Definition find (s tok : str) (pos : Z) : Z :=
  if slen s <? pos then npos
  else find_from tok (drop (Z.to_nat pos) s) pos.

Fixpoint find_char_from (c : ascii) (s : str) (i : Z) : Z :=
  match s with
  | [] => npos
  | b :: s' => if ascii_eqb c b then i else find_char_from c s' (i + 1)
  end.

(** [s.find_first_of(c, pos)] for a single character [c] *)
Definition find_first_of (s : str) (c : ascii) (pos : Z) : Z :=
  if slen s <=? pos then npos
  else find_char_from c (drop (Z.to_nat pos) s) pos.

(** [s.substr(pos, n)]: throws when [pos > size()], otherwise at most [n]
    characters from [pos]. *)
Definition substr (s : str) (pos n : Z) : outcome str :=
  if slen s <? pos then Throws "out_of_range"
  else Ret (take (Z.to_nat (Z.min n (slen s - pos))) (drop (Z.to_nat pos) s)).

(** [dst.append(s, subpos, sublen)] *)
Definition append_sub (dst s : str) (subpos sublen : Z) : outcome str :=
  piece ← substr s subpos sublen;
  Ret (dst ++ piece).

(** [&s[pos]] read as a C string: the characters from [pos] up to the
    terminator that follows the last character.  [pos = size()] designates
    the terminator itself; anything beyond is outside the object. *)
Definition c_str_at (s : str) (pos : Z) : outcome str :=
  if slen s <? pos then Undefined
  else Ret (drop (Z.to_nat pos) s).

(** ** [atoi] *)

Definition INT_MAX : Z := 2147483647.
Definition INT_MIN : Z := -2147483648.

Definition isspace (c : ascii) : bool :=
  let n := Z.of_nat (nat_of_ascii c) in
  (n =? 32) || ((9 <=? n) && (n <=? 13)).

Definition digit_of (c : ascii) : option Z :=
  let n := Z.of_nat (nat_of_ascii c) in
  if (48 <=? n) && (n <=? 57) then Some (n - 48) else None.

Fixpoint skip_spaces (s : str) : str :=
  match s with
  | c :: s' => if isspace c then skip_spaces s' else s
  | [] => []
  end.

Fixpoint digits_value (s : str) (acc : Z) : Z :=
  match s with
  | c :: s' =>
      match digit_of c with
      | Some d => digits_value s' (acc * 10 + d)
      | None => acc
      end
  | [] => acc
  end.

(** [atoi]: leading white space, an optional sign, then decimal digits up to
    the first other character.  A value that does not fit an [int] is not
    defined by the C standard. *)
Definition atoi (s : str) : outcome Z :=
  let s1 := skip_spaces s in
  let v :=
    match s1 with
    | "-"%char :: s2 => - digits_value s2 0
    | "+"%char :: s2 => digits_value s2 0
    | _ => digits_value s1 0
    end in
  if (INT_MIN <=? v) && (v <=? INT_MAX) then Ret v else Undefined.

(** ** BatchSubprocess::ParseOutput *)

Definition complete_token : str := lit "__batchitem_complete__".
Definition start_token : str := lit "__batchitem__".
Definition newline : ascii := ascii_of_nat 10.

Abbreviation SizeRange := (list (Z * Z)).

(** [ranges.back().second = v] *)
Fixpoint set_back_second (ranges : SizeRange) (v : Z) : SizeRange :=
  match ranges with
  | [] => []
  | [(a, _)] => [(a, v)]
  | r :: rs => r :: set_back_second rs v
  end.

(** The first [while] loop: one execution of the body per completion token
    found. *)
Fixpoint strip_loop (fuel : nat) (buf : str) (loc : Z)
    (ranges_to_keep : SizeRange) (successful_jobs : gset Z)
  : outcome (SizeRange * gset Z) :=
  if loc =? npos then Ret (ranges_to_keep, successful_jobs)
  else
    match fuel with
    | O => OutOfFuel
    | S fuel' =>
        let ranges1 := set_back_second ranges_to_keep loc in
        let jobIdStart := wrap (loc + slen complete_token + 1) in
        digits ← c_str_at buf jobIdStart;
        jobId ← atoi digits;
        let successful_jobs1 := {[ jobId ]} ∪ successful_jobs in
        let start_pos := wrap (find_first_of buf newline jobIdStart + 1) in
        let ranges2 := ranges1 ++ [(start_pos, slen buf)] in
        strip_loop fuel' buf (find buf complete_token start_pos)
                   ranges2 successful_jobs1
    end.

(** Copy of the ranges to keep into [stripped_buf]. *)
Fixpoint copy_ranges (buf : str) (ranges : SizeRange) (stripped_buf : str)
  : outcome str :=
  match ranges with
  | [] => Ret stripped_buf
  | (first, second) :: rest =>
      stripped1 ← append_sub stripped_buf buf first (wrap (second - first));
      copy_ranges buf rest stripped1
  end.

(** The second [while] loop: one execution of the body per start token. *)
Fixpoint split_loop (fuel : nat) (buf : str) (loc : Z)
    (job_output : gmap Z str) : outcome (gmap Z str) :=
  if loc =? npos then Ret job_output
  else
    match fuel with
    | O => OutOfFuel
    | S fuel' =>
        let jobIdStart := wrap (loc + slen start_token + 1) in
        digits ← c_str_at buf jobIdStart;
        jobId ← atoi digits;
        let start_pos := wrap (find_first_of buf newline jobIdStart + 1) in
        let next_loc := find buf start_token start_pos in
        let output_len := wrap (next_loc - start_pos) in
        piece ← substr buf start_pos output_len;
        split_loop fuel' buf next_loc (<[ jobId := piece ]> job_output)
    end.

(** The result of [ParseOutput]: the new value of [buf_] and the two
    containers the caller passed by reference. *)
Record parsed := {
  p_buf : str;
  p_successful_jobs : gset Z;
  p_job_output : gmap Z str
}.

Definition ParseOutput (fuel : nat) (buf_ : str)
    (successful_jobs : gset Z) (job_output : gmap Z str) : outcome parsed :=
  let ranges0 := [(0, slen buf_)] in
  '(ranges_to_keep, successful_jobs1) ←
     strip_loop fuel buf_ (find buf_ complete_token 0) ranges0 successful_jobs;
  stripped_buf ← copy_ranges buf_ ranges_to_keep [];
  let buf1 := stripped_buf in
  let loc := find buf1 start_token 0 in
  if loc =? npos then
    Ret {| p_buf := buf1; p_successful_jobs := successful_jobs1;
           p_job_output := job_output |}
  else
    job_output1 ← split_loop fuel buf1 loc job_output;
    Ret {| p_buf := []; p_successful_jobs := successful_jobs1;
           p_job_output := job_output1 |}.

(** ** Subprocess *)

(** OS handles are integers; [NULL] is zero. *)
Abbreviation HANDLE := Z.
Abbreviation DWORD := Z.
Definition NULL : HANDLE := 0.
Definition INVALID_HANDLE_VALUE : HANDLE := -1.

Definition ERROR_FILE_NOT_FOUND : DWORD := 2.
Definition ERROR_BROKEN_PIPE : DWORD := 109.
Definition ERROR_IO_PENDING : DWORD := 997.
Definition CONTROL_C_EXIT : DWORD := 0xC000013A.

Inductive ExitStatus := ExitSuccess | ExitFailure | ExitInterrupted.

#[global] Instance ExitStatus_eq_dec : EqDecision ExitStatus.
Proof. solve_decision. Defined.

(** The calls on handles and files that a method makes, in order. *)
Inductive os_call :=
| CreateProcess (command : str)
| CloseHandle (h : HANDLE)
| WaitForSingleObject (h : HANDLE)
| GetExitCodeProcess (h : HANDLE)
| WriteFile (path contents : str)
| RemoveFile (path : str).

(** The fields of a [Subprocess].  [overlapped_] and [overlapped_buf_] are
    written by the operating system only; what it delivers in them is an
    argument of [OnPipeReady]. *)
Record Subprocess := mkSubprocess {
  child_ : HANDLE;
  is_reading_ : bool;
  pipe_ : HANDLE;
  use_override_status_ : bool;
  override_status_ : ExitStatus;
  buf_ : str
}.

(** [Subprocess::Subprocess()] *)
Definition Subprocess_new : Subprocess :=
  {| child_ := NULL; is_reading_ := false; pipe_ := NULL;
     use_override_status_ := false; override_status_ := ExitFailure;
     buf_ := [] |}.

Definition set_child (p : Subprocess) (h : HANDLE) : Subprocess :=
  mkSubprocess h (is_reading_ p) (pipe_ p) (use_override_status_ p)
               (override_status_ p) (buf_ p).
Definition set_is_reading (p : Subprocess) (b : bool) : Subprocess :=
  mkSubprocess (child_ p) b (pipe_ p) (use_override_status_ p)
               (override_status_ p) (buf_ p).
Definition set_pipe (p : Subprocess) (h : HANDLE) : Subprocess :=
  mkSubprocess (child_ p) (is_reading_ p) h (use_override_status_ p)
               (override_status_ p) (buf_ p).
Definition set_override (p : Subprocess) (st : ExitStatus) : Subprocess :=
  mkSubprocess (child_ p) (is_reading_ p) (pipe_ p) true st (buf_ p).
Definition set_buf (p : Subprocess) (b : str) : Subprocess :=
  mkSubprocess (child_ p) (is_reading_ p) (pipe_ p) (use_override_status_ p)
               (override_status_ p) b.

(** [if (h) CloseHandle(h)] *)
Definition close_if_set (h : HANDLE) : list os_call :=
  if h =? NULL then [] else [CloseHandle h].

(** What the operating system answers during [SetupPipe]. *)
Record os_SetupPipe := {
  sp_CreateNamedPipe : HANDLE;        (* the handle returned *)
  sp_CreateIoCompletionPort : bool;   (* registration succeeded *)
  sp_ConnectNamedPipe : bool;         (* nonzero result *)
  sp_ConnectNamedPipe_error : DWORD;  (* GetLastError() after it *)
  sp_CreateFile : HANDLE;             (* write end of the pipe *)
  sp_DuplicateHandle : bool;
  sp_output_write_child : HANDLE      (* the duplicate handed to the child *)
}.

(** [Subprocess::SetupPipe] *)
Definition SetupPipe (p : Subprocess) (os : os_SetupPipe)
  : outcome (HANDLE * Subprocess * list os_call) :=
  let p1 := set_pipe p (sp_CreateNamedPipe os) in
  if pipe_ p1 =? INVALID_HANDLE_VALUE then Fatal "CreateNamedPipe"
  else if negb (sp_CreateIoCompletionPort os) then Fatal "CreateIoCompletionPort"
  else if negb (sp_ConnectNamedPipe os)
          && negb (sp_ConnectNamedPipe_error os =? ERROR_IO_PENDING)
       then Fatal "ConnectNamedPipe"
  else if negb (sp_DuplicateHandle os) then Fatal "DuplicateHandle"
  else Ret (sp_output_write_child os, p1, [CloseHandle (sp_CreateFile os)]).

Inductive CreateProcess_result :=
| Created (hProcess hThread : HANDLE)
| CreateFailed (error : DWORD).

(** What the operating system answers during [Start]. *)
Record os_Start := {
  st_setup : os_SetupPipe;
  st_nul : HANDLE;                    (* CreateFile("NUL", ...) *)
  st_CreateProcess : CreateProcess_result
}.

Definition not_found_message : str :=
  lit "CreateProcess failed: The system cannot find the file specified."
  ++ [newline].

(** [Subprocess::Start].  The set is used for its [ioport_] only, which
    [SetupPipe] hands to the operating system. *)
Definition Start (p : Subprocess) (command : str) (os : os_Start)
  : outcome (bool * Subprocess * list os_call) :=
  '(child_pipe, p1, t1) ← SetupPipe p (st_setup os);
  let nul := st_nul os in
  if nul =? INVALID_HANDLE_VALUE then Fatal "couldn't open nul"
  else
    match st_CreateProcess os with
    | CreateFailed error =>
        if error =? ERROR_FILE_NOT_FOUND then
          let t2 := close_if_set child_pipe
                    ++ [CloseHandle (pipe_ p1); CloseHandle nul] in
          let p2 := set_buf (set_pipe p1 NULL) not_found_message in
          Ret (true, p2, t1 ++ CreateProcess command :: t2)
        else Fatal "CreateProcess"
    | Created hProcess hThread =>
        let t2 := close_if_set child_pipe
                  ++ [CloseHandle nul; CloseHandle hThread] in
        Ret (true, set_child p1 hProcess, t1 ++ CreateProcess command :: t2)
    end.

(** What the operating system answers during [OnPipeReady]. *)
Record os_OnPipeReady := {
  pr_GetOverlappedResult : bool;
  pr_GetOverlappedResult_error : DWORD;
  pr_bytes : str;              (* the [bytes] first characters of the read buffer *)
  pr_ReadFile : bool;
  pr_ReadFile_error : DWORD
}.

(** [Subprocess::OnPipeReady] *)
Definition OnPipeReady (p : Subprocess) (os : os_OnPipeReady)
  : outcome (Subprocess * list os_call) :=
  if negb (pr_GetOverlappedResult os) then
    if pr_GetOverlappedResult_error os =? ERROR_BROKEN_PIPE then
      Ret (set_pipe p NULL, [CloseHandle (pipe_ p)])
    else Fatal "GetOverlappedResult"
  else
    let p1 := if is_reading_ p && negb (slen (pr_bytes os) =? 0)
              then set_buf p (buf_ p ++ pr_bytes os) else p in
    let p2 := set_is_reading p1 true in
    if negb (pr_ReadFile os) then
      if pr_ReadFile_error os =? ERROR_BROKEN_PIPE then
        Ret (set_pipe p2 NULL, [CloseHandle (pipe_ p2)])
      else if negb (pr_ReadFile_error os =? ERROR_IO_PENDING) then
        Fatal "ReadFile"
      else Ret (p2, [])
    else Ret (p2, []).

(** The classification of an exit code at the end of [Finish]. *)
Definition classify (exit_code : DWORD) : ExitStatus :=
  if exit_code =? 0 then ExitSuccess
  else if exit_code =? CONTROL_C_EXIT then ExitInterrupted
  else ExitFailure.

(** [Subprocess::Finish]; [exit_code] is what [GetExitCodeProcess] stores. *)
Definition Finish (p : Subprocess) (exit_code : DWORD)
  : ExitStatus * Subprocess * list os_call :=
  if use_override_status_ p then (override_status_ p, p, [])
  else if child_ p =? NULL then (ExitFailure, p, [])
  else (classify exit_code, set_child p NULL,
        [WaitForSingleObject (child_ p); GetExitCodeProcess (child_ p);
         CloseHandle (child_ p)]).

(** [Subprocess::Done] *)
Definition Done (p : Subprocess) : bool := pipe_ p =? NULL.

(** [Subprocess::GetOutput] *)
Definition GetOutput (p : Subprocess) : str := buf_ p.

(** [Subprocess::~Subprocess]; [close_ok] is the result of closing the pipe
    and [exit_code] the code a reaped child reports. *)
Definition Subprocess_delete (p : Subprocess) (close_ok : bool)
    (exit_code : DWORD) : outcome (list os_call) :=
  if negb (pipe_ p =? NULL) && negb close_ok then Fatal "CloseHandle"
  else
    let t1 := close_if_set (pipe_ p) in
    let t2 := if child_ p =? NULL then [] else (Finish p exit_code).2 in
    Ret (t1 ++ t2).

(** ** BatchSubprocess *)

(** Pointers to [Subprocess] objects are addresses of the object store; a
    null pointer is [None] in an [option ptr]. *)
Abbreviation ptr := nat (only parsing).

(** A queued job: [SubProc], a pair of the handle and its command. *)
Abbreviation SubProc := (ptr * str)%type.

Record BatchSubprocess := mkBatch {
  base : Subprocess;
  script_filename_ : str;
  children_ : list ptr
}.

Definition set_base (b : BatchSubprocess) (p : Subprocess) : BatchSubprocess :=
  mkBatch p (script_filename_ b) (children_ b).

(** Modelled from the spec: [AppendChild] and [GetChildren] are declared in
    subprocess.h, which is not part of the sources at hand; the spec's data
    model has the child records as the "ordered list of the original
    Process handles that were folded into this batch, indexed 0..N-1". *)
Definition AppendChild (children : list ptr) (c : ptr) : list ptr :=
  children ++ [c].

(** Modelled from the spec: see [AppendChild]. *)
Definition GetChildren (b : BatchSubprocess) : list ptr := children_ b.

(** [BatchSubprocess::GetCommand] *)
Definition GetCommand (b : BatchSubprocess) : str := script_filename_ b.

Definition uint32_modulus : Z := 2 ^ 32.
Definition wrap32 (z : Z) : Z := z mod uint32_modulus.

(** A [uint32_t] read as an [int]. *)
Definition to_int (u : Z) : Z := if u <=? INT_MAX then u else u - uint32_modulus.

(** What [%d] prints for an [int]. *)
Definition decimal (v : Z) : str := lit (NilZero.string_of_int (Z.to_int v)).

Definition MAX_PATH : Z := 260.

Record os_GetTempFileName := {
  tf_GetTempPath : DWORD;
  tf_GetTempFileName : Z;
  tf_tempName : str
}.

(** The static helper [GetTempFileName()]: the empty string on failure. *)
Definition GetTempFileName (os : os_GetTempFileName) : str :=
  if (MAX_PATH <? tf_GetTempPath os) || (tf_GetTempPath os =? 0) then []
  else if tf_GetTempFileName os =? 0 then []
  else tf_tempName os.

(** The loop of the constructor, [i] being its [uint32_t] counter.  Both
    formatted pieces fit their 128 characters for every [int]. *)
Fixpoint script_loop (fuel : nat) (batch_procs : list SubProc) (i : Z)
    (script_contents : str) (children : list ptr)
  : outcome (str * list ptr) :=
  if i <? Z.of_nat (length batch_procs) then
    match fuel with
    | O => OutOfFuel
    | S fuel' =>
        match batch_procs !! Z.to_nat i with
        | None => Undefined
        | Some sp =>
            let batch_id :=
              lit "echo __batchitem__=" ++ decimal (to_int i) ++ [newline] in
            let batch_complete :=
              lit " && echo __batchitem_complete__=" ++ decimal (to_int i)
              ++ [newline] in
            script_loop fuel' batch_procs (wrap32 (i + 1))
              (script_contents ++ batch_id ++ sp.2 ++ batch_complete)
              (AppendChild children sp.1)
        end
    end
  else Ret (script_contents, children).

(** [BatchSubprocess::BatchSubprocess(batch_procs)]: the object and the
    write of the script. *)
Definition BatchSubprocess_new (fuel : nat) (batch_procs : list SubProc)
    (os : os_GetTempFileName) : outcome (BatchSubprocess * list os_call) :=
  let script_filename := GetTempFileName os in
  if slen script_filename =? 0 then Fatal "GetTempFileName"
  else
    '(script_contents, children) ← script_loop fuel batch_procs 0 [] [];
    Ret (mkBatch Subprocess_new script_filename children,
         [WriteFile script_filename script_contents]).

(** [BatchSubprocess::~BatchSubprocess], followed by the destructor of the
    base class. *)
Definition BatchSubprocess_delete (b : BatchSubprocess) (close_ok : bool)
    (exit_code : DWORD) : outcome (list os_call) :=
  t ← Subprocess_delete (base b) close_ok exit_code;
  Ret (RemoveFile (script_filename_ b) :: t).

(** ** SubprocessSet *)

Inductive object :=
| OSubprocess (p : Subprocess)
| OBatch (b : BatchSubprocess).

Definition base_of (o : object) : Subprocess :=
  match o with OSubprocess p => p | OBatch b => base b end.

Definition with_base (o : object) (p : Subprocess) : object :=
  match o with
  | OSubprocess _ => OSubprocess p
  | OBatch b => OBatch (set_base b p)
  end.

(** The members of the set, then the object store its pointers refer to:
    [heap] holds the live objects and [next_ptr] is the address the next
    [new] returns. *)
Record SubprocessSet := mkSet {
  running_ : list ptr;
  finished_ : list ptr;                  (* the queue, front first *)
  procs_to_batch_ : list SubProc;
  batch_mode_ : bool;
  batch_command_ : str;
  batch_process_ : option ptr;
  heap : gmap ptr object;
  next_ptr : ptr
}.

(** [SubprocessSet::SubprocessSet()].  The constructor initialises
    [batch_mode_] only; the containers and the string start empty, and
    [batch_process_] is left as it is: [stale] is whatever the pointer holds,
    null or any address. *)
Definition SubprocessSet_new (stale : option ptr) : SubprocessSet :=
  {| running_ := []; finished_ := []; procs_to_batch_ := [];
     batch_mode_ := false; batch_command_ := []; batch_process_ := stale;
     heap := ∅; next_ptr := 0%nat |}.

(** A set just constructed in which [batch_process_] happens to be null. *)
Definition new_set : SubprocessSet := SubprocessSet_new None.

Definition set_running (s : SubprocessSet) (v : list ptr) : SubprocessSet :=
  mkSet v (finished_ s) (procs_to_batch_ s) (batch_mode_ s) (batch_command_ s)
        (batch_process_ s) (heap s) (next_ptr s).
Definition set_finished (s : SubprocessSet) (v : list ptr) : SubprocessSet :=
  mkSet (running_ s) v (procs_to_batch_ s) (batch_mode_ s) (batch_command_ s)
        (batch_process_ s) (heap s) (next_ptr s).
Definition set_procs_to_batch (s : SubprocessSet) (v : list SubProc)
  : SubprocessSet :=
  mkSet (running_ s) (finished_ s) v (batch_mode_ s) (batch_command_ s)
        (batch_process_ s) (heap s) (next_ptr s).
Definition set_batch_policy (s : SubprocessSet) (m : bool) (c : str)
  : SubprocessSet :=
  mkSet (running_ s) (finished_ s) (procs_to_batch_ s) m c
        (batch_process_ s) (heap s) (next_ptr s).
Definition set_batch_process (s : SubprocessSet) (v : option ptr)
  : SubprocessSet :=
  mkSet (running_ s) (finished_ s) (procs_to_batch_ s) (batch_mode_ s)
        (batch_command_ s) v (heap s) (next_ptr s).
Definition set_heap (s : SubprocessSet) (h : gmap ptr object) : SubprocessSet :=
  mkSet (running_ s) (finished_ s) (procs_to_batch_ s) (batch_mode_ s)
        (batch_command_ s) (batch_process_ s) h (next_ptr s).

(** [running_.push_back(p)] and [finished_.push(p)] *)
Definition push_running (s : SubprocessSet) (p : ptr) : SubprocessSet :=
  set_running s (running_ s ++ [p]).
Definition push_finished (s : SubprocessSet) (p : ptr) : SubprocessSet :=
  set_finished s (finished_ s ++ [p]).

(** [new]: the object is placed at the next unused address. *)
Definition alloc (s : SubprocessSet) (o : object) : ptr * SubprocessSet :=
  (next_ptr s,
   mkSet (running_ s) (finished_ s) (procs_to_batch_ s) (batch_mode_ s)
         (batch_command_ s) (batch_process_ s)
         (<[ next_ptr s := o ]> (heap s)) (S (next_ptr s))).

(** A write through a pointer, and the release of an object. *)
Definition store (s : SubprocessSet) (a : ptr) (o : object) : SubprocessSet :=
  set_heap s (<[ a := o ]> (heap s)).
Definition free (s : SubprocessSet) (a : ptr) : SubprocessSet :=
  set_heap s (delete a (heap s)).

(** A read through a pointer; a pointer to a released object is dangling. *)
Definition deref (s : SubprocessSet) (a : ptr) : outcome object :=
  match heap s !! a with
  | Some o => Ret o
  | None => Undefined
  end.

Record os_SetBatchMode := {
  bm_SearchPath : DWORD;
  bm_userSize : DWORD;
  bm_userName : str
}.

(** [SubprocessSet::SetBatchMode] *)
Definition SetBatchMode (s : SubprocessSet) (b : bool) (os : os_SetBatchMode)
  : SubprocessSet :=
  if b then
    if bm_SearchPath os =? 0 then set_batch_policy s false (batch_command_ s)
    else
      let userName :=
        if negb (bm_userSize os =? 0) then bm_userName os else lit "Unknown" in
      set_batch_policy s true
        (lit "dbsrun dbsbuild -k -p " ++ userName ++ lit " -s ")
  else set_batch_policy s false (batch_command_ s).

Record os_Add := {
  ad_start : os_Start;
  ad_close_ok : bool;       (* for the destructor, should Start report failure *)
  ad_exit_code : DWORD
}.

(** [SubprocessSet::Add]: the handle returned, null when [Start] fails. *)
Definition Add (s : SubprocessSet) (command : str) (os : os_Add)
  : outcome (option ptr * SubprocessSet * list os_call) :=
  let '(subprocess, s1) := alloc s (OSubprocess Subprocess_new) in
  if batch_mode_ s1 then
    Ret (Some subprocess,
         set_procs_to_batch s1 (procs_to_batch_ s1 ++ [(subprocess, command)]),
         [])
  else
    '(ok, p1, t1) ← Start Subprocess_new command (ad_start os);
    let s2 := store s1 subprocess (OSubprocess p1) in
    if negb ok then
      t2 ← Subprocess_delete p1 (ad_close_ok os) (ad_exit_code os);
      Ret (None, free s2 subprocess, t1 ++ t2)
    else if negb (child_ p1 =? NULL) then
      Ret (Some subprocess, push_running s2 subprocess, t1)
    else
      Ret (Some subprocess, push_finished s2 subprocess, t1).

(** [std::remove(v.begin(), v.end(), x)] followed by the resize to the new
    end: the elements other than [x], in order. *)
Definition remove_all (x : ptr) (v : list ptr) : list ptr :=
  filter (fun y => y ≠ x) v.

(** The loop over the children of a finished batch, [child] being its
    [uint32_t] counter. *)
Fixpoint redistribute (fuel : nat) (children : list ptr) (child : Z)
    (err : ExitStatus) (successful_jobs : gset Z) (job_output : gmap Z str)
    (s : SubprocessSet) : outcome SubprocessSet :=
  if child <? Z.of_nat (length children) then
    match fuel with
    | O => OutOfFuel
    | S fuel' =>
        match children !! Z.to_nat child with
        | None => Undefined
        | Some c =>
            o ← deref s c;
            let status :=
              if decide (to_int child ∈ successful_jobs) then ExitSuccess
              else err in
            (* job_output[child] creates an empty entry when there is none *)
            let output := default [] (job_output !! to_int child) in
            let job_output1 := <[ to_int child := output ]> job_output in
            let p := set_buf (set_override (base_of o) status) output in
            redistribute fuel' children (wrap32 (child + 1)) err
              successful_jobs job_output1
              (push_finished (store s c (with_base o p)) c)
        end
    end
  else Ret s.

Record os_DoWork := {
  dw_temp : os_GetTempFileName;
  dw_start : os_Start;                   (* for the start of a new batch *)
  dw_GetQueuedCompletionStatus : bool;
  dw_GetQueuedCompletionStatus_error : DWORD;
  dw_subproc : option ptr;               (* the completion key *)
  dw_pipe : os_OnPipeReady;
  dw_exit_code : DWORD;                  (* for Finish on the batch *)
  dw_close_ok : bool;                    (* for the destructors *)
  dw_delete_exit_code : DWORD
}.

(** [DoWork] from the wait on the completion port to its end. *)
Definition DoWork_wait (fuel : nat) (s : SubprocessSet) (os : os_DoWork)
  : outcome (bool * SubprocessSet * list os_call) :=
  if negb (dw_GetQueuedCompletionStatus os)
     && negb (dw_GetQueuedCompletionStatus_error os =? ERROR_BROKEN_PIPE)
  then Fatal "GetQueuedCompletionStatus"
  else
    match dw_subproc os with
    | None => Ret (true, s, [])
    | Some subproc =>
        o ← deref s subproc;
        '(p1, t1) ← OnPipeReady (base_of o) (dw_pipe os);
        let s1 := store s subproc (with_base o p1) in
        if Done p1 then
          if decide (batch_process_ s1 = Some subproc) then
            match o with
            | OSubprocess _ => Undefined
            | OBatch b =>
                let '(err, p2, t2) := Finish p1 (dw_exit_code os) in
                parsed ← ParseOutput fuel (buf_ p2) ∅ ∅;
                let p3 := set_buf p2 (p_buf parsed) in
                let s2 := store s1 subproc (OBatch (set_base b p3)) in
                s3 ← redistribute fuel (GetChildren b) 0 err
                       (p_successful_jobs parsed) (p_job_output parsed) s2;
                let s4 := set_running s3 (remove_all subproc (running_ s3)) in
                o3 ← deref s4 subproc;
                match o3 with
                | OSubprocess _ => Undefined
                | OBatch b3 =>
                    t3 ← BatchSubprocess_delete b3 (dw_close_ok os)
                           (dw_delete_exit_code os);
                    Ret (false, set_batch_process (free s4 subproc) None,
                         t1 ++ t2 ++ t3)
                end
            end
          else
            let kept := remove_all subproc (running_ s1) in
            if decide (length kept = length (running_ s1)) then
              Ret (false, s1, t1)
            else
              Ret (false, set_running (push_finished s1 subproc) kept, t1)
        else Ret (false, s1, t1)
    end.

(** [DoWork] up to the wait: the pending jobs, if any, become one batch.
    The flag of the result is [true] when [DoWork] returns from here. *)
Definition DoWork_flush (fuel : nat) (s : SubprocessSet) (os : os_DoWork)
  : outcome (bool * SubprocessSet * list os_call) :=
  if negb (Nat.eqb (length (procs_to_batch_ s)) 0) then
    '(b, t0) ← BatchSubprocess_new fuel (procs_to_batch_ s) (dw_temp os);
    let '(bp, s1) := alloc s (OBatch b) in
    let s2 := set_batch_process s1 (Some bp) in
    let full_command := batch_command_ s2 ++ GetCommand b in
    '(ok, p1, t1) ← Start (base b) full_command (dw_start os);
    let b1 := set_base b p1 in
    let s3 := store s2 bp (OBatch b1) in
    if negb ok then
      t2 ← BatchSubprocess_delete b1 (dw_close_ok os) (dw_delete_exit_code os);
      Ret (true, set_batch_process (free s3 bp) None, t0 ++ t1 ++ t2)
    else
      let s4 := if negb (child_ p1 =? NULL) then push_running s3 bp else s3 in
      Ret (false, set_procs_to_batch s4 [], t0 ++ t1)
  else Ret (false, s, []).

(** [SubprocessSet::DoWork] *)
Definition DoWork (fuel : nat) (s : SubprocessSet) (os : os_DoWork)
  : outcome (bool * SubprocessSet * list os_call) :=
  '(returned, s1, t0) ← DoWork_flush fuel s os;
  if (returned : bool) then Ret (true, s1, t0)
  else
    '(stop, s2, t1) ← DoWork_wait fuel s1 os;
    Ret (stop, s2, t0 ++ t1).

(** [SubprocessSet::NextFinished] *)
Definition NextFinished (s : SubprocessSet) : option ptr * SubprocessSet :=
  match finished_ s with
  | [] => (None, s)
  | subproc :: rest => (Some subproc, set_finished s rest)
  end.

(** ** Test data: the stream of the jobs "echo A", "false", "echo C" *)

Definition line (s : string) : str := lit s ++ [newline].

Definition stream_A_false_C : str :=
  line "__batchitem__=0" ++ line "A" ++ line "__batchitem_complete__=0"
  ++ line "__batchitem__=1"
  ++ line "__batchitem__=2" ++ line "C" ++ line "__batchitem_complete__=2".

(** ** Test data: answers of the operating system *)

Definition setup_ok : os_SetupPipe :=
  {| sp_CreateNamedPipe := 100; sp_CreateIoCompletionPort := true;
     sp_ConnectNamedPipe := false; sp_ConnectNamedPipe_error := ERROR_IO_PENDING;
     sp_CreateFile := 101; sp_DuplicateHandle := true;
     sp_output_write_child := 102 |}.

(** [CreateProcess] does not find the executable. *)
Definition start_not_found : os_Start :=
  {| st_setup := setup_ok; st_nul := 103;
     st_CreateProcess := CreateFailed ERROR_FILE_NOT_FOUND |}.

(** [CreateProcess] succeeds. *)
Definition start_ok : os_Start :=
  {| st_setup := setup_ok; st_nul := 103;
     st_CreateProcess := Created 200 201 |}.

(** ** Occurrences of a token *)

(** [tok] occurs somewhere in [s]. *)
Fixpoint contains (tok s : str) : bool :=
  starts_with tok s
  || match s with
     | [] => false
     | _ :: s' => contains tok s'
     end.

(** A buffer with a completion marker and no start marker. *)
Definition only_complete_marker : str := line "__batchitem_complete__=0".

(** A buffer that ends right after a start marker, before its newline. *)
Definition cut_after_start_marker : str := lit "__batchitem__=0".

(** ** The batch script as the spec words it *)

(** The two lines of job [i]: [echo __batchitem__=<i>], then the command
    joined by [&&] to [echo __batchitem_complete__=<i>]. *)
Definition script_entry (i : nat) (command : str) : str :=
  lit "echo __batchitem__=" ++ decimal (Z.of_nat i) ++ [newline]
  ++ command ++ lit " && "
  ++ lit "echo __batchitem_complete__=" ++ decimal (Z.of_nat i) ++ [newline].

(** The entries of all jobs, in enqueue order, ids counted from zero. *)
Definition script_text (commands : list str) : str :=
  concat (imap script_entry commands).

Definition jobs_A_false_C : list SubProc :=
  [(0%nat, lit "echo A"); (1%nat, lit "false"); (2%nat, lit "echo C")].

Definition temp_ok : os_GetTempFileName :=
  {| tf_GetTempPath := 8; tf_GetTempFileName := 1;
     tf_tempName := lit "C:\Temp\scr1.tmp" |}.

(** ** Observing the collections *)

(** The child records of an object, if it is a batch. *)
Definition children_of (o : option object) : list ptr :=
  match o with
  | Some (OBatch b) => GetChildren b
  | _ => []
  end.

(** The child records of the active batch, if there is one. *)
Definition active_children (s : SubprocessSet) : list ptr :=
  match batch_process_ s with
  | Some bp => children_of (heap s !! bp)
  | None => []
  end.

(** Every place where the set keeps a handle: the running collection, the
    finished queue, the pending-batch list and the child records of the
    active batch. *)
Definition tracked (s : SubprocessSet) : list ptr :=
  running_ s ++ finished_ s ++ map fst (procs_to_batch_ s)
  ++ active_children s.

(** The number of places where handle [h] is kept. *)
Definition occurrences (h : ptr) (s : SubprocessSet) : nat :=
  length (filter (fun x => x = h) (tracked s)).

(** The states a caller can bring the set to, each with the handles that
    [Add] has returned so far. *)
Inductive reachable : SubprocessSet -> list ptr -> Prop :=
| reach_new stale : reachable (SubprocessSet_new stale) []
| reach_SetBatchMode s hs b os :
    reachable s hs -> reachable (SetBatchMode s b os) hs
| reach_Add s hs command os h s' t :
    reachable s hs ->
    Add s command os = Ret (h, s', t) ->
    reachable s' (hs ++ option_list h)
| reach_DoWork s hs fuel os stop s' t :
    reachable s hs ->
    DoWork fuel s os = Ret (stop, s', t) ->
    reachable s' hs
| reach_NextFinished s hs :
    reachable s hs -> reachable (NextFinished s).2 hs.

(** ** Test data: a running process, then a job queued in batch mode *)

Definition batch_on : os_SetBatchMode :=
  {| bm_SearchPath := 1; bm_userSize := 5; bm_userName := lit "user" |}.

Definition add_ok : os_Add :=
  {| ad_start := start_ok; ad_close_ok := true; ad_exit_code := 0 |}.

Definition add_not_found : os_Add :=
  {| ad_start := start_not_found; ad_close_ok := true; ad_exit_code := 0 |}.

(** The state a call leaves, or the initial state if it does not return. *)
Definition state_after {A : Type}
    (r : outcome (A * SubprocessSet * list os_call)) : SubprocessSet :=
  match r with
  | Ret (_, s, _) => s
  | _ => new_set
  end.

(** Handle 0 runs; then batch mode is switched on and handle 1 is queued. *)
Definition one_running_one_queued : SubprocessSet :=
  let s1 := state_after (Add new_set (lit "cl.exe /c a.c") add_ok) in
  let s2 := SetBatchMode s1 true batch_on in
  state_after (Add s2 (lit "cl.exe /c b.c") add_ok).

(** The calls a call made, when it returns. *)
Definition calls_of {A : Type}
    (r : outcome (A * SubprocessSet * list os_call)) : list os_call :=
  match r with
  | Ret (_, _, t) => t
  | _ => []
  end.

(** A completion event with a read still pending afterwards. *)
Definition pipe_pending : os_OnPipeReady :=
  {| pr_GetOverlappedResult := true; pr_GetOverlappedResult_error := 0;
     pr_bytes := []; pr_ReadFile := false;
     pr_ReadFile_error := ERROR_IO_PENDING |}.

(** The batch runner is not found; the event that follows belongs to the
    running process 0. *)
Definition batch_not_found_then_event_0 : os_DoWork :=
  {| dw_temp := temp_ok; dw_start := start_not_found;
     dw_GetQueuedCompletionStatus := true;
     dw_GetQueuedCompletionStatus_error := 0;
     dw_subproc := Some 0%nat; dw_pipe := pipe_pending;
     dw_exit_code := 0; dw_close_ok := true; dw_delete_exit_code := 0 |}.

(** The interrupt handler's event: a null key. *)
Definition interrupt_event : os_DoWork :=
  {| dw_temp := temp_ok; dw_start := start_ok;
     dw_GetQueuedCompletionStatus := true;
     dw_GetQueuedCompletionStatus_error := 0;
     dw_subproc := None; dw_pipe := pipe_pending;
     dw_exit_code := 0; dw_close_ok := true; dw_delete_exit_code := 0 |}.

(** The state and the calls once the queued job has become a batch that was
    started. *)
Definition batch_flushed : SubprocessSet :=
  state_after (DoWork_flush 1 one_running_one_queued interrupt_event).
Definition batch_flushed_calls : list os_call :=
  calls_of (DoWork_flush 1 one_running_one_queued interrupt_event).

(** ** The result handed to a child of a finished batch, as the spec words it *)

(** Child number [i] gets an override status, success if [i] is among the
    successful ids and the batch's own classification otherwise, and the
    output recorded for [i], empty if there is none. *)
Definition child_result (successful_jobs : gset Z) (job_output : gmap Z str)
    (err : ExitStatus) (i : nat) (p : Subprocess) : Subprocess :=
  set_buf
    (set_override p
       (if decide (Z.of_nat i ∈ successful_jobs) then ExitSuccess else err))
    (default [] (job_output !! Z.of_nat i)).

(** ** Test data: a batch of three jobs whose output has been read *)

(** The jobs "echo A", "false" and "echo C" queued as handles 0, 1, 2. *)
Definition three_queued : SubprocessSet :=
  let s0 := SetBatchMode new_set true batch_on in
  let s1 := state_after (Add s0 (lit "echo A") add_ok) in
  let s2 := state_after (Add s1 (lit "false") add_ok) in
  state_after (Add s2 (lit "echo C") add_ok).

(** An event for object [k], with what the pipe and the process report. *)
Definition event_for (k : ptr) (pipe : os_OnPipeReady) (exit_code : DWORD)
  : os_DoWork :=
  {| dw_temp := temp_ok; dw_start := start_ok;
     dw_GetQueuedCompletionStatus := true;
     dw_GetQueuedCompletionStatus_error := 0;
     dw_subproc := Some k; dw_pipe := pipe;
     dw_exit_code := exit_code; dw_close_ok := true;
     dw_delete_exit_code := 0 |}.

(** The same, but [GetQueuedCompletionStatus] reports the completion
    failed, with [ERROR_BROKEN_PIPE]. *)
Definition broken_completion_for (k : ptr) (pipe : os_OnPipeReady)
    (exit_code : DWORD) : os_DoWork :=
  {| dw_temp := temp_ok; dw_start := start_ok;
     dw_GetQueuedCompletionStatus := false;
     dw_GetQueuedCompletionStatus_error := ERROR_BROKEN_PIPE;
     dw_subproc := Some k; dw_pipe := pipe;
     dw_exit_code := exit_code; dw_close_ok := true;
     dw_delete_exit_code := 0 |}.

(** A completed read of [bytes], and the end of the stream. *)
Definition pipe_data (bytes : str) : os_OnPipeReady :=
  {| pr_GetOverlappedResult := true; pr_GetOverlappedResult_error := 0;
     pr_bytes := bytes; pr_ReadFile := false;
     pr_ReadFile_error := ERROR_IO_PENDING |}.
Definition pipe_broken : os_OnPipeReady :=
  {| pr_GetOverlappedResult := false;
     pr_GetOverlappedResult_error := ERROR_BROKEN_PIPE;
     pr_bytes := []; pr_ReadFile := false; pr_ReadFile_error := 0 |}.

(** The batch (object 3) is started, its pipe connects, and the stream of
    the three jobs is read. *)
Definition batch_output_read : SubprocessSet :=
  let s1 := state_after (DoWork 3 three_queued (event_for 3 pipe_pending 0)) in
  state_after (DoWork 3 s1 (event_for 3 (pipe_data stream_A_false_C) 0)).

(** The batch object at an address. *)
Definition batch_at (s : SubprocessSet) (a : ptr) : BatchSubprocess :=
  match heap s !! a with
  | Some (OBatch b) => b
  | _ => mkBatch Subprocess_new [] []
  end.

(** ** Test data: a job that is not found *)

Definition not_found_ready : SubprocessSet :=
  state_after (Add new_set (lit "no-such-tool.exe") add_not_found).


(** ** Sequences of calls *)

(** The events of one process, handled one after the other as [DoWork]
    routes them to [OnPipeReady]. *)
Fixpoint OnPipeReady_all (p : Subprocess) (events : list os_OnPipeReady)
  : outcome (Subprocess * list os_call) :=
  match events with
  | [] => Ret (p, [])
  | e :: rest =>
      '(p1, t1) ← OnPipeReady p e;
      '(p2, t2) ← OnPipeReady_all p1 rest;
      Ret (p2, t1 ++ t2)
  end.

(** The operation completed and the next read was issued: it succeeded at
    once or is pending. *)
Definition read_issued (e : os_OnPipeReady) : bool :=
  pr_GetOverlappedResult e
  && (pr_ReadFile e || (pr_ReadFile_error e =? ERROR_IO_PENDING)).

(** The operation failed with a broken pipe: the end of the stream. *)
Definition end_of_stream (e : os_OnPipeReady) : bool :=
  negb (pr_GetOverlappedResult e)
  && (pr_GetOverlappedResult_error e =? ERROR_BROKEN_PIPE).

(** [n] calls of [NextFinished] in a row: what they return, and the set
    afterwards. *)
Fixpoint NextFinished_n (n : nat) (s : SubprocessSet)
  : list (option ptr) * SubprocessSet :=
  match n with
  | O => ([], s)
  | S n' =>
      let '(r, s1) := NextFinished s in
      let '(rs, s2) := NextFinished_n n' s1 in
      (r :: rs, s2)
  end.

(** ** Test data: one running process *)

Definition one_running : SubprocessSet :=
  state_after (Add new_set (lit "cl.exe /c a.c") add_ok).

(** The object at an address. *)
Definition object_at (s : SubprocessSet) (a : ptr) : object :=
  match heap s !! a with
  | Some o => o
  | None => OSubprocess Subprocess_new
  end.

(** ** SubprocessSet::Clear *)

(** What the operating system answers during [Clear], for the process at
    each address. *)
Record os_Clear := {
  cl_GenerateConsoleCtrlEvent : ptr -> bool;
  cl_CloseHandle : ptr -> bool;         (* closing the pipe, in the destructor *)
  cl_exit_code : ptr -> DWORD           (* the exit code a reaped child reports *)
}.

(** The calls of [Clear]: the break signal to a child's process group, and
    the calls of the destructors. *)
Inductive clear_call :=
| CtrlBreak (child : HANDLE)
| Released (c : os_call).

(** The first loop of [Clear]: a break signal for every running process
    that has a process handle. *)
Fixpoint Clear_signal (s : SubprocessSet) (os : os_Clear)
    (running : list ptr) : outcome (list clear_call) :=
  match running with
  | [] => Ret []
  | i :: rest =>
      o ← deref s i;
      if negb (child_ (base_of o) =? NULL) then
        if negb (cl_GenerateConsoleCtrlEvent os i) then
          Fatal "GenerateConsoleCtrlEvent"
        else
          t ← Clear_signal s os rest;
          Ret (CtrlBreak (child_ (base_of o)) :: t)
      else Clear_signal s os rest
  end.

(** [delete] through a [Subprocess*].  Whether [~Subprocess] is virtual is
    declared in subprocess.h; [virtual_dtor] stands for it.  Without a
    virtual destructor, deleting a batch through the pointer to its base is
    not defined by the language. *)
Definition delete_through_base (virtual_dtor : bool) (o : object)
    (close_ok : bool) (exit_code : DWORD) : outcome (list os_call) :=
  match o with
  | OSubprocess p => Subprocess_delete p close_ok exit_code
  | OBatch b =>
      if virtual_dtor then BatchSubprocess_delete b close_ok exit_code
      else Undefined
  end.

(** The second loop of [Clear]: every running process is deleted. *)
Fixpoint Clear_delete (virtual_dtor : bool) (s : SubprocessSet)
    (os : os_Clear) (running : list ptr)
  : outcome (SubprocessSet * list clear_call) :=
  match running with
  | [] => Ret (s, [])
  | i :: rest =>
      o ← deref s i;
      t ← delete_through_base virtual_dtor o (cl_CloseHandle os i)
            (cl_exit_code os i);
      '(s1, t1) ← Clear_delete virtual_dtor (free s i) os rest;
      Ret (s1, map Released t ++ t1)
  end.

(** [SubprocessSet::Clear] *)
Definition Clear (virtual_dtor : bool) (s : SubprocessSet) (os : os_Clear)
  : outcome (SubprocessSet * list clear_call) :=
  t1 ← Clear_signal s os (running_ s);
  '(s1, t2) ← Clear_delete virtual_dtor s os (running_ s);
  Ret (set_running s1 [], t1 ++ t2).

(** The operating system lets every call of [Clear] succeed; every child
    reports exit code 1. *)
Definition clear_ok : os_Clear :=
  {| cl_GenerateConsoleCtrlEvent := fun _ => true;
     cl_CloseHandle := fun _ => true;
     cl_exit_code := fun _ => 1 |}.

(** The set and the calls that a run of [Clear] returns. *)
Definition cleared (r : outcome (SubprocessSet * list clear_call))
  : SubprocessSet :=
  match r with
  | Ret (s, _) => s
  | _ => new_set
  end.

Definition clear_calls_of (r : outcome (SubprocessSet * list clear_call))
  : list clear_call :=
  match r with
  | Ret (_, t) => t
  | _ => []
  end.


(** The process handles of the running processes, in the order of
    [running_]; a process without a process handle is left out. *)
Definition running_children (s : SubprocessSet) : list HANDLE :=
  List.filter (fun h => negb (h =? NULL))
    (map (fun a => child_ (base_of (object_at s a))) (running_ s)).

(** The operating system lets [Clear] signal and close what the process at
    [a] holds. *)
Definition clear_allowed (virtual_dtor : bool) (s : SubprocessSet)
    (os : os_Clear) (a : ptr) : Prop :=
  exists o,
    heap s !! a = Some o
    /\ (virtual_dtor = false -> exists p, o = OSubprocess p)
    /\ (child_ (base_of o) <> NULL -> cl_GenerateConsoleCtrlEvent os a = true)
    /\ (pipe_ (base_of o) <> NULL -> cl_CloseHandle os a = true).


(** ** The output stream of a batch *)

(** What one job of a batch does when the script runs: [jr_id] is its
    index, [jr_output] what its command prints, [jr_ok] whether the command
    succeeds. *)
Record job_run := mkRun {
  jr_id : Z;
  jr_output : str;
  jr_ok : bool
}.

(** The line that [echo __batchitem__=N] prints, and the line that
    [echo __batchitem_complete__=N] prints. *)
Definition start_line (i : Z) : str :=
  start_token ++ lit "=" ++ decimal i ++ [newline].

Definition complete_line (i : Z) : str :=
  complete_token ++ lit "=" ++ decimal i ++ [newline].

(** A job prints its start line, then its command prints its output, and
    the completion line follows only if the command succeeded. *)
Definition job_stream (j : job_run) : str :=
  start_line (jr_id j) ++ jr_output j
  ++ (if jr_ok j then complete_line (jr_id j) else []).

Fixpoint batch_stream (js : list job_run) : str :=
  match js with
  | [] => []
  | j :: js' => job_stream j ++ batch_stream js'
  end.

(** The output of a command consists of whole lines. *)
Definition whole_lines (out : str) : Prop :=
  forall c, last out = Some c -> c = newline.

(** A job that [ParseOutput] can tell apart from its neighbours: its index
    is an [int] that is not negative, and its command prints whole lines
    and none of the two tokens. *)
Definition plain_run (j : job_run) : Prop :=
  0 <= jr_id j <= INT_MAX
  /\ contains start_token (jr_output j) = false
  /\ contains complete_token (jr_output j) = false
  /\ whole_lines (jr_output j).

(** Where the first loop of [ParseOutput] finds the next completion token
    in the stream of [js] that starts at offset [off]. *)
Fixpoint next_complete (js : list job_run) (off : Z) : Z :=
  match js with
  | [] => npos
  | j :: js' =>
      if jr_ok j then off + slen (start_line (jr_id j)) + slen (jr_output j)
      else next_complete js' (off + slen (job_stream j))
  end.

(** The ranges that the first loop keeps of the stream of [js] at offset
    [off], when the last range starts at [a]; [len] is the length of the
    buffer. *)
Fixpoint kept (js : list job_run) (off a len : Z) : SizeRange :=
  match js with
  | [] => [(a, len)]
  | j :: js' =>
      let off' := off + slen (job_stream j) in
      if jr_ok j then
        (a, off + slen (start_line (jr_id j)) + slen (jr_output j))
        :: kept js' off' off' len
      else kept js' off' a len
  end.

(** The jobs whose completion line is in the stream, added to [g]. *)
Fixpoint succeeded (js : list job_run) (g : gset Z) : gset Z :=
  match js with
  | [] => g
  | j :: js' => succeeded js' (if jr_ok j then {[ jr_id j ]} ∪ g else g)
  end.

(** The stream without the completion lines. *)
Fixpoint stripped_stream (js : list job_run) : str :=
  match js with
  | [] => []
  | j :: js' => start_line (jr_id j) ++ jr_output j ++ stripped_stream js'
  end.

(** Where the second loop finds the next start token. *)
Definition next_start (js : list job_run) (off : Z) : Z :=
  match js with [] => npos | _ :: _ => off end.

(** The outputs of the jobs, assigned to their indices in stream order. *)
Fixpoint assigned (js : list job_run) (m : gmap Z str) : gmap Z str :=
  match js with
  | [] => m
  | j :: js' => assigned js' (<[ jr_id j := jr_output j ]> m)
  end.

(** Three jobs: the second fails and prints two lines of its own. *)
Definition runs_A_fail_C : list job_run :=
  [ mkRun 0 (line "A") true;
    mkRun 1 (line "error: x" ++ line "1 error") false;
    mkRun 2 (line "C") true ].


(** A fourth job is added while the batch of the three jobs is running. *)
Definition batch_running_one_queued : SubprocessSet :=
  state_after (Add batch_output_read (lit "echo D") add_ok).

(** The pipe of the running batch is closed while the fourth job is still
    pending. *)
Definition second_batch_started : SubprocessSet :=
  state_after (DoWork 3 batch_running_one_queued (event_for 3 pipe_broken 0)).


(** The runs behind [stream_A_false_C]: [false] prints nothing and fails. *)
Definition runs_A_false_C : list job_run :=
  [ mkRun 0 (line "A") true; mkRun 1 [] false; mkRun 2 (line "C") true ].


(** ** The objects behind the handles *)

(** What an address holds, as far as the set can tell: nothing (the object
    was deleted or never allocated), a process, or a batch with its
    children. *)
Definition kind (o : option object) : option (option (list ptr)) :=
  match o with
  | None => None
  | Some (OSubprocess _) => Some None
  | Some (OBatch b) => Some (Some (GetChildren b))
  end.

(** What holds of the set between two calls.  No handle is kept twice;
    every live object was allocated below [next_ptr]; the handles kept
    point to live objects; the pending jobs and the children of the active
    batch are processes; and if [batch_process_] points to a batch, that
    batch is not in the finished queue.  Nothing is said of a
    [batch_process_] that points to no batch: the constructor does not
    initialise it. *)
Record set_inv (s : SubprocessSet) : Prop := mk_set_inv {
  inv_nodup : NoDup (tracked s);
  inv_bound : forall a, kind (heap s !! a) <> None -> (a < next_ptr s)%nat;
  inv_live : forall a, a ∈ tracked s -> kind (heap s !! a) <> None;
  inv_jobs : forall a,
    a ∈ map fst (procs_to_batch_ s) ++ active_children s ->
    kind (heap s !! a) = Some None;
  inv_batch : forall bp ch,
    batch_process_ s = Some bp ->
    kind (heap s !! bp) = Some (Some ch) ->
    bp ∉ finished_ s
}.

(** Output read while a marker line is not finished: after the first
    job's output, a completion marker, or the start marker of the next job,
    without its newline. *)
Definition complete_marker_cut : str :=
  line "__batchitem__=0" ++ line "A" ++ lit "__batchitem_complete__=0".

Definition start_marker_cut : str :=
  line "__batchitem__=0" ++ line "A" ++ lit "__batchitem__=1".


(** ** A caller's loop over DoWork *)

(** [DoWork] called once per completion event, in order, until it reports
    an interruption: the set after the last call and the calls made. *)
Fixpoint DoWork_all (fuel : nat) (s : SubprocessSet) (events : list os_DoWork)
  : outcome (SubprocessSet * list os_call) :=
  match events with
  | [] => Ret (s, [])
  | e :: rest =>
      '(stop, s1, t1) ← DoWork fuel s e;
      if (stop : bool) then Ret (s1, t1)
      else
        '(s2, t2) ← DoWork_all fuel s1 rest;
        Ret (s2, t1 ++ t2)
  end.

(** A completion event that the port delivers for the pipe of process
    [h]. *)
Definition event_of (h : ptr) (e : os_DoWork) : Prop :=
  dw_subproc e = Some h
  /\ (dw_GetQueuedCompletionStatus e = true
      \/ dw_GetQueuedCompletionStatus_error e = ERROR_BROKEN_PIPE).

(** The events of a job that prints one line: the connection of its pipe,
    one completed read, the end of the output. *)
Definition one_line_read : list os_DoWork :=
  [event_for 0 (pipe_data (line "a.c")) 0].


(** Process 0 runs, job 1 was queued, and the batch runner was not found
    when the batch was started. *)
Definition not_found_batch_flushed : SubprocessSet :=
  state_after (DoWork_flush 1 one_running_one_queued
                 batch_not_found_then_event_0).

(** The batch of the three jobs has printed the output of the first job
    and the start marker of the second without its newline. *)
Definition batch_output_cut : SubprocessSet :=
  let s1 := state_after (DoWork 3 three_queued (event_for 3 pipe_pending 0)) in
  state_after (DoWork 3 s1 (event_for 3 (pipe_data start_marker_cut) 0)).

(** The process that [OnPipeReady] leaves, or the process as it was if the
    call does not return. *)
Definition OnPipeReady_result (p : Subprocess) (os : os_OnPipeReady)
  : Subprocess :=
  match OnPipeReady p os with
  | Ret (p1, _) => p1
  | _ => p
  end.


(** A process whose pipe is open, with a read pending and the line "x"
    captured so far. *)
Definition reading_process : Subprocess :=
  set_buf (set_is_reading (set_pipe Subprocess_new 100) true) (line "x").

(** What holds of the handles [hs] that [Add] has returned: each points to
    a process, and whatever else the set keeps is a batch. *)
Definition jobs_inv (s : SubprocessSet) (hs : list ptr) : Prop :=
  (forall h, h ∈ hs -> kind (heap s !! h) = Some None)
  /\ (forall a, a ∈ tracked s ->
        a ∈ hs \/ exists ch, kind (heap s !! a) = Some (Some ch)).

(** The process object at an address. *)
Definition process_at (s : SubprocessSet) (a : ptr) : Subprocess :=
  match heap s !! a with
  | Some (OSubprocess p) => p
  | _ => Subprocess_new
  end.

(** A set constructed where [batch_process_] holds the address that the
    first job will get, after that job was started. *)
Definition stale_first_job : SubprocessSet :=
  state_after (Add (SubprocessSet_new (Some 0%nat)) (lit "cl.exe /c a.c")
                   add_ok).

(** * Properties *)

(** ** Fuel: a loop that exits within a bound exits within any larger one *)

Lemma strip_loop_mono fuel fuel' buf loc ranges succ r :
  (fuel <= fuel')%nat ->
  strip_loop fuel buf loc ranges succ = Ret r ->
  strip_loop fuel' buf loc ranges succ = Ret r.
Proof.
  revert fuel' loc ranges succ.
  induction fuel as [|fuel IH]; intros fuel' loc ranges succ Hle H.
  - destruct fuel'; simpl in *; destruct (loc =? npos); congruence.
  - destruct fuel' as [|fuel']; [lia|].
    simpl in *. destruct (loc =? npos); [exact H|].
    destruct (c_str_at buf _) as [digits| | | |]; simpl in *; try discriminate.
    destruct (atoi digits) as [jobId| | | |]; simpl in *; try discriminate.
    apply IH; [lia | exact H].
Qed.

Lemma split_loop_mono fuel fuel' buf loc outs r :
  (fuel <= fuel')%nat ->
  split_loop fuel buf loc outs = Ret r ->
  split_loop fuel' buf loc outs = Ret r.
Proof.
  revert fuel' loc outs.
  induction fuel as [|fuel IH]; intros fuel' loc outs Hle H.
  - destruct fuel'; simpl in *; destruct (loc =? npos); congruence.
  - destruct fuel' as [|fuel']; [lia|].
    simpl in *. destruct (loc =? npos); [exact H|].
    destruct (c_str_at buf _) as [digits| | | |]; simpl in *; try discriminate.
    destruct (atoi digits) as [jobId| | | |]; simpl in *; try discriminate.
    destruct (substr buf _ _) as [piece| | | |]; simpl in *; try discriminate.
    apply IH; [lia | exact H].
Qed.

Lemma ParseOutput_mono fuel fuel' buf succ outs r :
  (fuel <= fuel')%nat ->
  ParseOutput fuel buf succ outs = Ret r ->
  ParseOutput fuel' buf succ outs = Ret r.
Proof.
  intros Hle. unfold ParseOutput.
  destruct (strip_loop fuel buf _ _ succ) as [[ranges succ1]| | | |] eqn:E1;
    simpl; try discriminate.
  rewrite (strip_loop_mono _ _ _ _ _ _ _ Hle E1). simpl.
  destruct (copy_ranges buf ranges []) as [stripped| | | |]; simpl;
    try discriminate.
  destruct (find stripped start_token 0 =? npos); [tauto|].
  destruct (split_loop fuel stripped _ outs) as [outs1| | | |] eqn:E2;
    simpl; try discriminate.
  rewrite (split_loop_mono _ _ _ _ _ _ Hle E2). simpl. tauto.
Qed.

(** ** The framing round trip on a concrete stream *)

Lemma ParseOutput_stream_A_false_C :
  ParseOutput 3 stream_A_false_C ∅ ∅ =
  Ret {| p_buf := [];
         p_successful_jobs := {[ 0; 2 ]};
         p_job_output :=
           <[ 0 := line "A" ]> (<[ 1 := [] ]> (<[ 2 := line "C" ]> ∅)) |}.
Proof. vm_compute. reflexivity. Qed.

(** C1: on the stream [__batchitem__=0], [A], [__batchitem_complete__=0],
    [__batchitem__=1], [__batchitem__=2], [C], [__batchitem_complete__=2]
    (one per line), [ParseOutput] returns, for every loop bound of at least
    three, with the successful ids [{0, 2}], the output ["A\n"] for id 0
    and ["C\n"] for id 2; job 1 is not in the success set and its output is
    absent or empty (the code records it, empty). *)
Theorem C1_parse_round_trip (fuel : nat) :
  (3 <= fuel)%nat ->
  exists r,
    ParseOutput fuel stream_A_false_C ∅ ∅ = Ret r
    /\ p_successful_jobs r = {[ 0; 2 ]}
    /\ p_job_output r !! 0 = Some (line "A")
    /\ p_job_output r !! 2 = Some (line "C")
    /\ (1 ∉ p_successful_jobs r)
    /\ (p_job_output r !! 1 = None \/ p_job_output r !! 1 = Some [])
    /\ p_job_output r !! 1 = Some []
    /\ dom (p_job_output r) = {[ 0; 1; 2 ]}.
Proof.
  intros Hfuel. eexists. split.
  - apply (ParseOutput_mono 3 fuel); [exact Hfuel|].
    apply ParseOutput_stream_A_false_C.
  - cbn [p_successful_jobs p_job_output].
    split_and!; try reflexivity.
    + rewrite elem_of_union, !elem_of_singleton. lia.
    + right. reflexivity.
Qed.

(** The round trip with the loop bound three. *)
Lemma C1_parse_round_trip_witness :
  exists r,
    ParseOutput 3 stream_A_false_C ∅ ∅ = Ret r
    /\ p_successful_jobs r = {[ 0; 2 ]}
    /\ p_job_output r !! 0 = Some (line "A")
    /\ p_job_output r !! 2 = Some (line "C")
    /\ (1 ∉ p_successful_jobs r)
    /\ (p_job_output r !! 1 = None \/ p_job_output r !! 1 = Some [])
    /\ p_job_output r !! 1 = Some []
    /\ dom (p_job_output r) = {[ 0; 1; 2 ]}.
Proof. apply (C1_parse_round_trip 3). lia. Defined.

(** ** Subprocess::Start and Subprocess::Finish *)

Lemma Start_returns_true p command os r :
  Start p command os = Ret r -> r.1.1 = true.
Proof.
  unfold Start.
  destruct (SetupPipe p (st_setup os)) as [[[cp p1] t1]| | | |]; simpl;
    try discriminate.
  destruct (st_nul os =? INVALID_HANDLE_VALUE); [discriminate|].
  destruct (st_CreateProcess os) as [hp ht|error].
  - intros [= <-]. reflexivity.
  - destruct (error =? ERROR_FILE_NOT_FOUND); [|discriminate].
    intros [= <-]. reflexivity.
Qed.

Lemma SetupPipe_fields p os child_pipe p1 t1 :
  SetupPipe p os = Ret (child_pipe, p1, t1) ->
  p1 = set_pipe p (sp_CreateNamedPipe os).
Proof.
  unfold SetupPipe. repeat case_match; try discriminate. congruence.
Qed.



(** C4: without an override, [Finish] on a live process handle waits for
    it, releases it, and classifies the exit code: 0 is success,
    [CONTROL_C_EXIT] is interrupted, anything else is failure. *)
Theorem C4_finish_classifies (p : Subprocess) (exit_code : DWORD) :
  use_override_status_ p = false ->
  child_ p <> NULL ->
  Finish p exit_code =
    (classify exit_code, set_child p NULL,
     [WaitForSingleObject (child_ p); GetExitCodeProcess (child_ p);
      CloseHandle (child_ p)])
  /\ (exit_code = 0 -> classify exit_code = ExitSuccess)
  /\ (exit_code = CONTROL_C_EXIT -> classify exit_code = ExitInterrupted)
  /\ (exit_code <> 0 -> exit_code <> CONTROL_C_EXIT ->
      classify exit_code = ExitFailure)
  /\ (forall q st, Finish (set_override q st) exit_code
                   = (st, set_override q st, [])).
Proof.
  intros Hover Hchild. split_and!.
  - unfold Finish. rewrite Hover.
    destruct (child_ p =? NULL) eqn:E; [apply Z.eqb_eq in E; contradiction|].
    reflexivity.
  - intros ->. reflexivity.
  - intros ->. reflexivity.
  - intros H0 HC. unfold classify.
    destruct (exit_code =? 0) eqn:E0; [apply Z.eqb_eq in E0; contradiction|].
    destruct (exit_code =? CONTROL_C_EXIT) eqn:EC;
      [apply Z.eqb_eq in EC; contradiction|].
    reflexivity.
  - intros q st. reflexivity.
Qed.

(** An instance: a child that ended with [CONTROL_C_EXIT]. *)
Lemma C4_finish_classifies_witness :
  Finish (set_child Subprocess_new 200) CONTROL_C_EXIT =
    (classify CONTROL_C_EXIT, set_child (set_child Subprocess_new 200) NULL,
     [WaitForSingleObject (child_ (set_child Subprocess_new 200));
      GetExitCodeProcess (child_ (set_child Subprocess_new 200));
      CloseHandle (child_ (set_child Subprocess_new 200))])
  /\ (CONTROL_C_EXIT = 0 -> classify CONTROL_C_EXIT = ExitSuccess)
  /\ (CONTROL_C_EXIT = CONTROL_C_EXIT ->
      classify CONTROL_C_EXIT = ExitInterrupted)
  /\ (CONTROL_C_EXIT <> 0 -> CONTROL_C_EXIT <> CONTROL_C_EXIT ->
      classify CONTROL_C_EXIT = ExitFailure)
  /\ (forall q st, Finish (set_override q st) CONTROL_C_EXIT
                   = (st, set_override q st, [])).
Proof.
  apply (C4_finish_classifies (set_child Subprocess_new 200) CONTROL_C_EXIT).
  - reflexivity.
  - vm_compute. discriminate.
Defined.

(** ** Searching and the absence of a token *)

Lemma slen_nonneg (s : str) : 0 <= slen s.
Proof. unfold slen. lia. Qed.

Lemma find_from_absent tok s i :
  contains tok s = false -> find_from tok s i = npos.
Proof.
  revert i. induction s as [|c s IH]; intros i H; simpl in *.
  - apply orb_false_elim in H as [-> _]. reflexivity.
  - apply orb_false_elim in H as [-> H]. apply IH, H.
Qed.

Lemma find_absent s tok :
  contains tok s = false -> find s tok 0 = npos.
Proof.
  intros H. unfold find.
  destruct (slen s <? 0) eqn:E; [reflexivity|].
  simpl. apply find_from_absent, H.
Qed.

(** Conversely, a search that fails means the token is absent, for a buffer
    shorter than [npos]. *)
Lemma find_from_npos tok s i :
  0 <= i -> i + slen s < npos ->
  find_from tok s i = npos -> contains tok s = false.
Proof.
  unfold slen. revert i.
  induction s as [|c s IH]; intros i Hi Hlen H.
  - simpl in *. destruct (starts_with tok []); [lia|reflexivity].
  - cbn [contains find_from] in *. rewrite length_cons in Hlen.
    destruct (starts_with tok (c :: s)); [lia|].
    simpl. apply (IH (i + 1)); [lia|lia|exact H].
Qed.

Lemma find_npos s tok :
  slen s < npos -> find s tok 0 = npos -> contains tok s = false.
Proof.
  intros Hlen. unfold find.
  destruct (slen s <? 0) eqn:E; [pose proof (slen_nonneg s); lia|].
  simpl. apply find_from_npos; lia.
Qed.

(** ** ParseOutput on a buffer without markers *)

Lemma substr_whole (s : str) :
  slen s < size_t_modulus ->
  substr s 0 (wrap (slen s - 0)) = Ret s.
Proof.
  intros Hlen. pose proof (slen_nonneg s) as H0. unfold substr.
  destruct (slen s <? 0) eqn:E; [lia|].
  unfold wrap. rewrite Z.sub_0_r, Z.mod_small by lia.
  rewrite Z.min_id. simpl. unfold slen. rewrite Nat2Z.id.
  rewrite firstn_all. reflexivity.
Qed.

(** C5, claim as stated, refuted: the buffer [__batchitem_complete__=0\n]
    holds no start token, yet [ParseOutput] empties it and records job 0 as
    successful. *)
Lemma C5_counterexample :
  contains start_token only_complete_marker = false
  /\ ParseOutput 1 only_complete_marker ∅ ∅
     = Ret {| p_buf := []; p_successful_jobs := {[ 0 ]}; p_job_output := ∅ |}
  /\ forall fuel,
       ParseOutput fuel only_complete_marker ∅ ∅
       <> Ret {| p_buf := only_complete_marker; p_successful_jobs := ∅;
                 p_job_output := ∅ |}.
Proof.
  assert (H1 : ParseOutput 1 only_complete_marker ∅ ∅
     = Ret {| p_buf := []; p_successful_jobs := {[ 0 ]}; p_job_output := ∅ |})
    by (vm_compute; reflexivity).
  split; [reflexivity|]. split; [exact H1|].
  intros [|fuel].
  - vm_compute. discriminate.
  - rewrite (ParseOutput_mono 1 (S fuel) _ _ _ _ ltac:(lia) H1).
    intros H. discriminate H.
Qed.

(** C5, amended: a buffer (shorter than [npos], as every string is) that
    holds neither a completion token nor a start token is parsed without any
    loop iteration; the buffer is left as it was and both containers stay
    empty. *)
Theorem C5_marker_free_unchanged (fuel : nat) (buf : str) :
  slen buf < npos ->
  contains complete_token buf = false ->
  contains start_token buf = false ->
  ParseOutput fuel buf ∅ ∅
  = Ret {| p_buf := buf; p_successful_jobs := ∅; p_job_output := ∅ |}.
Proof.
  intros Hlen Hc Hs. unfold ParseOutput.
  rewrite (find_absent _ _ Hc).
  assert (Hstrip : forall r g, strip_loop fuel buf npos r g = Ret (r, g))
    by (intros; destruct fuel; reflexivity).
  rewrite Hstrip. simpl. unfold append_sub.
  rewrite substr_whole by (unfold npos in Hlen; lia).
  simpl. rewrite (find_absent _ _ Hs). reflexivity.
Qed.

(** An instance: one line of ordinary output. *)
Lemma C5_marker_free_unchanged_witness :
  ParseOutput 0 (line "ninja: no work to do.") ∅ ∅
  = Ret {| p_buf := line "ninja: no work to do."; p_successful_jobs := ∅;
           p_job_output := ∅ |}.
Proof.
  apply (C5_marker_free_unchanged 0 (line "ninja: no work to do.")).
  - vm_compute. reflexivity.
  - vm_compute. reflexivity.
  - vm_compute. reflexivity.
Defined.

(** ** The second loop of ParseOutput on output cut inside a marker line *)

Lemma find_char_from_found c (s : str) :
  forall i k,
    find_char_from c s i = k -> k <> npos ->
    exists n : nat, k = i + Z.of_nat n /\ s !! n = Some c.
Proof.
  induction s as [|b s IH]; intros i k H Hk; cbn [find_char_from] in H.
  - congruence.
  - destruct (ascii_eqb c b) eqn:E.
    + apply Ascii.eqb_eq in E. subst b. exists 0%nat. split; [lia|reflexivity].
    + destruct (IH _ _ H Hk) as (n & -> & Hn).
      exists (S n). split; [lia|exact Hn].
Qed.

Lemma find_first_of_found (s : str) c pos k :
  0 <= pos ->
  find_first_of s c pos = k -> k <> npos ->
  pos <= k /\ s !! Z.to_nat k = Some c.
Proof.
  intros Hpos H Hk. unfold find_first_of in H.
  destruct (slen s <=? pos); [congruence|].
  destruct (find_char_from_found _ _ _ _ H Hk) as (n & -> & Hn).
  rewrite lookup_drop in Hn. split; [lia|].
  replace (Z.to_nat (pos + Z.of_nat n)) with (Z.to_nat pos + n)%nat by lia.
  exact Hn.
Qed.

Lemma find_from_before tok :
  forall (n : nat) (s : str) i,
    starts_with tok (drop n s) = true ->
    i <= find_from tok s i <= i + Z.of_nat n.
Proof.
  induction n as [|n IH]; intros s i H.
  - rewrite drop_0 in H. destruct s; cbn [find_from]; rewrite H; lia.
  - destruct s as [|c s].
    + cbn in H. cbn [find_from]. rewrite H. lia.
    + cbn [find_from]. destruct (starts_with tok (c :: s)); [lia|].
      cbn [drop] in H. specialize (IH s (i + 1) H). lia.
Qed.

(** A token at index [q] is found by every search that starts at or before
    [q]. *)
Lemma find_before (s tok : str) (pos : Z) (q : nat) :
  0 <= pos <= Z.of_nat q -> (q <= length s)%nat ->
  starts_with tok (drop q s) = true ->
  pos <= find s tok pos <= Z.of_nat q.
Proof.
  intros Hpos Hq H. unfold find, slen.
  destruct (Z.of_nat (length s) <? pos) eqn:E; [lia|].
  pose proof (find_from_before tok (q - Z.to_nat pos) (drop (Z.to_nat pos) s)
                pos) as Hf.
  rewrite drop_drop in Hf.
  replace (Z.to_nat pos + (q - Z.to_nat pos))%nat with q in Hf by lia.
  specialize (Hf H). lia.
Qed.

(** When a start token lies in the buffer with no newline at or after it,
    every pass through the body of the second loop finds a next token: the
    loop is never left through its exit test. *)
Theorem split_loop_never_exits (buf : str) (q : nat) :
  slen buf < npos ->
  (q <= length buf)%nat ->
  starts_with start_token (drop q buf) = true ->
  newline ∉ drop q buf ->
  forall fuel loc outs r,
    0 <= loc -> loc <> npos ->
    split_loop fuel buf loc outs <> Ret r.
Proof.
  intros Hlen Hq Htok Hnl.
  assert (Hq' : Z.of_nat q < npos) by (unfold slen in Hlen; lia).
  induction fuel as [|fuel IH]; intros loc outs r Hloc Hne;
    cbn [split_loop];
    (destruct (loc =? npos) eqn:E; [apply Z.eqb_eq in E; contradiction|]);
    [discriminate|].
  set (jobIdStart := wrap (loc + slen start_token + 1)).
  assert (Hjs : 0 <= jobIdStart) by (apply Z.mod_pos_bound; reflexivity).
  destruct (c_str_at buf jobIdStart) as [digits| | | |];
    cbn [mbind outcome_bind obind]; try discriminate.
  destruct (atoi digits) as [jobId| | | |];
    cbn [mbind outcome_bind obind]; try discriminate.
  set (start_pos := wrap (find_first_of buf newline jobIdStart + 1)).
  assert (Hsp : 0 <= start_pos <= Z.of_nat q).
  { unfold start_pos.
    destruct (decide (find_first_of buf newline jobIdStart = npos)) as [->|Hk].
    - change (wrap (npos + 1)) with 0. lia.
    - destruct (find_first_of_found buf newline jobIdStart _ Hjs eq_refl Hk)
        as [Hle Hat].
      set (k := find_first_of buf newline jobIdStart) in *.
      assert (Hkq : k < Z.of_nat q).
      { destruct (decide (k < Z.of_nat q)) as [|Hge]; [assumption|].
        exfalso. apply Hnl. apply list_elem_of_lookup.
        exists (Z.to_nat k - q)%nat. rewrite lookup_drop.
        replace (q + (Z.to_nat k - q))%nat with (Z.to_nat k) by lia.
        exact Hat. }
      unfold wrap. rewrite Z.mod_small; [lia|].
      unfold npos in Hq'. lia. }
  pose proof (find_before buf start_token start_pos q Hsp Hq Htok) as Hnext.
  destruct (substr buf start_pos _) as [piece| | | |];
    cbn [mbind outcome_bind obind]; try discriminate.
  apply IH; lia.
Qed.

(** The buffer [__batchitem__=0] is such an output. *)
Example cut_after_start_marker_never_exits fuel outs r :
  split_loop fuel cut_after_start_marker 0 outs <> Ret r.
Proof.
  apply (split_loop_never_exits cut_after_start_marker 0).
  - reflexivity.
  - cbn. lia.
  - reflexivity.
  - compute_done.
  - lia.
  - discriminate.
Qed.

(** Whenever [ParseOutput] returns, either it found no start token in the
    stripped buffer, which it leaves in [buf_] without touching the output
    map, or it has emptied [buf_]. *)
Lemma ParseOutput_buffer_after fuel buf succ outs r :
  ParseOutput fuel buf succ outs = Ret r ->
  (find (p_buf r) start_token 0 = npos /\ p_job_output r = outs)
  \/ p_buf r = [].
Proof.
  unfold ParseOutput.
  destruct (strip_loop fuel buf _ _ succ) as [[ranges succ1]| | | |];
    cbn [mbind outcome_bind obind]; try discriminate.
  destruct (copy_ranges buf ranges []) as [stripped| | | |];
    cbn [mbind outcome_bind obind]; try discriminate.
  destruct (find stripped start_token 0 =? npos) eqn:E.
  - intros [= <-]. left. apply Z.eqb_eq in E. split; [exact E|reflexivity].
  - destruct (split_loop fuel stripped _ outs) as [outs1| | | |];
      cbn [mbind outcome_bind obind]; try discriminate.
    intros [= <-]. right. reflexivity.
Qed.

(** ** ParseOutput on a buffer cut after a start marker *)

Lemma split_loop_cut_diverges fuel outs :
  split_loop fuel cut_after_start_marker 0 outs = OutOfFuel.
Proof.
  revert outs. induction fuel as [|fuel IH]; intros outs; [reflexivity|].
  change (split_loop (S fuel) cut_after_start_marker 0 outs)
    with (split_loop fuel cut_after_start_marker 0 (<[ 0 := [] ]> outs)).
  apply IH.
Qed.

(** C10 at the buffer [__batchitem__=0] (no newline after the marker): a
    start token is found, and the second loop never exits.  No newline
    follows the id, so [find_first_of] yields [npos], [start_pos] wraps to
    0, and the search for the next token finds the same token again. *)
Theorem C10_cut_marker_never_returns :
  contains start_token cut_after_start_marker = true
  /\ find cut_after_start_marker start_token 0 = 0
  /\ find_first_of cut_after_start_marker newline 14 = npos
  /\ wrap (npos + 1) = 0
  /\ forall fuel,
       ParseOutput fuel cut_after_start_marker ∅ ∅ = OutOfFuel.
Proof.
  split_and!; try reflexivity.
  intros fuel. unfold ParseOutput.
  assert (Hf : find cut_after_start_marker complete_token 0 = npos)
    by reflexivity.
  rewrite Hf.
  assert (Hstrip : forall r g,
             strip_loop fuel cut_after_start_marker npos r g = Ret (r, g))
    by (intros; destruct fuel; reflexivity).
  rewrite Hstrip. simpl.
  change (copy_ranges cut_after_start_marker
            [(0, slen cut_after_start_marker)] [])
    with (Ret (A := str) cut_after_start_marker).
  simpl.
  change (find cut_after_start_marker start_token 0) with 0.
  simpl. rewrite split_loop_cut_diverges. reflexivity.
Qed.

(** ** The generated script *)

Lemma to_int_small (i : Z) : 0 <= i <= INT_MAX -> to_int i = i.
Proof.
  intros H. unfold to_int.
  destruct (i <=? INT_MAX) eqn:E; [reflexivity|lia].
Qed.

Lemma wrap32_small (i : Z) : 0 <= i < uint32_modulus -> wrap32 i = i.
Proof. intros H. unfold wrap32. apply Z.mod_small, H. Qed.

Lemma script_entry_pieces (i : nat) (command : str) :
  script_entry i command
  = (lit "echo __batchitem__=" ++ decimal (Z.of_nat i) ++ [newline])
    ++ command
    ++ (lit " && echo __batchitem_complete__=" ++ decimal (Z.of_nat i)
        ++ [newline]).
Proof. unfold script_entry. rewrite <- !app_assoc. reflexivity. Qed.

Lemma script_loop_from (post : list SubProc) :
  forall (fuel : nat) (pre : list SubProc) (sc : str) (ch : list ptr),
    Z.of_nat (length (pre ++ post)) <= INT_MAX + 1 ->
    (length post <= fuel)%nat ->
    script_loop fuel (pre ++ post) (Z.of_nat (length pre)) sc ch
    = Ret (sc ++ concat (imap (fun k => script_entry (length pre + k))
                              (map snd post)),
           ch ++ map fst post).
Proof.
  induction post as [|sp post IH]; intros fuel pre sc ch Hmax Hfuel.
  - rewrite app_nil_r.
    assert (E : (Z.of_nat (length pre) <? Z.of_nat (length pre)) = false)
      by apply Z.ltb_irrefl.
    destruct fuel; simpl; rewrite E, !app_nil_r; reflexivity.
  - destruct fuel as [|fuel]; [simpl in Hfuel; lia|].
    rewrite length_app in Hmax. simpl in Hmax, Hfuel.
    cbn [script_loop].
    assert (E : (Z.of_nat (length pre) <? Z.of_nat (length (pre ++ sp :: post)))
                = true)
      by (apply Z.ltb_lt; rewrite length_app; simpl; lia).
    rewrite E, Nat2Z.id.
    rewrite lookup_app_r, Nat.sub_diag by lia. cbn [lookup list_lookup].
    unfold INT_MAX in Hmax.
    rewrite to_int_small by (unfold INT_MAX; lia).
    rewrite wrap32_small by (unfold uint32_modulus; lia).
    replace (Z.of_nat (length pre) + 1) with (Z.of_nat (length (pre ++ [sp])))
      by (rewrite length_app; simpl; lia).
    replace (pre ++ sp :: post) with ((pre ++ [sp]) ++ post)
      by (rewrite <- app_assoc; reflexivity).
    unfold AppendChild.
    rewrite IH by (unfold INT_MAX; rewrite ?length_app; simpl; lia).
    assert (Himap :
      imap (fun k => script_entry (length (pre ++ [sp]) + k)) (map snd post)
      = imap ((fun k => script_entry (length pre + k)) ∘ S) (map snd post)).
    { apply imap_ext. intros k c _. simpl. rewrite length_app. simpl.
      f_equal. lia. }
    rewrite Himap. cbn [map imap concat].
    rewrite script_entry_pieces, Nat.add_0_r, <- !app_assoc.
    reflexivity.
Qed.


(** The script of the three jobs, spelled out. *)
Example script_A_false_C :
  script_text (map snd jobs_A_false_C) =
  line "echo __batchitem__=0"
  ++ line "echo A && echo __batchitem_complete__=0"
  ++ line "echo __batchitem__=1"
  ++ line "false && echo __batchitem_complete__=1"
  ++ line "echo __batchitem__=2"
  ++ line "echo C && echo __batchitem_complete__=2".
Proof. reflexivity. Qed.

(** ** The ids of the script are read back by [atoi] *)

Lemma digits_of_uint_acc (d : Decimal.uint) :
  forall (acc : positive) (rest : str),
    digits_value (lit (NilEmpty.string_of_uint d) ++ rest) (Z.pos acc)
    = digits_value rest (Z.pos (Pos.of_uint_acc d acc)).
Proof.
  induction d as [|d IH|d IH|d IH|d IH|d IH|d IH|d IH|d IH|d IH|d IH];
    intros acc rest; cbn [NilEmpty.string_of_uint lit
    list_ascii_of_string app digits_value Pos.of_uint_acc];
    try reflexivity;
    (etransitivity; [|apply IH]); f_equal;
    match goal with
    | |- context [Z.of_nat (nat_of_ascii ?c)] =>
        let v := eval vm_compute in (Z.of_nat (nat_of_ascii c)) in
        change (Z.of_nat (nat_of_ascii c)) with v
    end; lia.
Qed.

Lemma digits_of_uint (d : Decimal.uint) (rest : str) :
  digits_value (lit (NilEmpty.string_of_uint d) ++ rest) 0
  = digits_value rest (Z.of_N (Pos.of_uint d)).
Proof.
  induction d as [|d IH|d IH|d IH|d IH|d IH|d IH|d IH|d IH|d IH|d IH];
    cbn [NilEmpty.string_of_uint lit list_ascii_of_string app
    digits_value Pos.of_uint];
    try reflexivity; try exact IH;
    apply digits_of_uint_acc.
Qed.

Lemma uint_starts_with_digit (d : Decimal.uint) :
  d <> Decimal.Nil ->
  exists c tl,
    NilZero.string_of_uint d = NilEmpty.string_of_uint d
    /\ lit (NilEmpty.string_of_uint d) = c :: tl
    /\ isspace c = false /\ c <> "-"%char /\ c <> "+"%char.
Proof.
  destruct d; intros H; [contradiction|..];
    cbn [NilEmpty.string_of_uint lit list_ascii_of_string];
    do 2 eexists; (split; [reflexivity|]); split_and!;
    solve [reflexivity | discriminate].
Qed.

(** [atoi] gives back an id that was printed with [%d] and is followed by
    the end of the line. *)
Lemma atoi_decimal (z : Z) (rest : str) :
  0 <= z <= INT_MAX ->
  atoi (decimal z ++ newline :: rest) = Ret z.
Proof.
  intros Hz. unfold decimal.
  assert (Hd : exists d, Z.to_int z = Decimal.Pos d /\ d <> Decimal.Nil
                         /\ Z.of_N (Pos.of_uint d) = z).
  { destruct z as [|p|p]; [| |lia].
    - exists Decimal.zero. split_and!; [reflexivity|discriminate|reflexivity].
    - exists (Pos.to_uint p). split_and!; [reflexivity| |].
      + apply Stdlib.Numbers.DecimalPos.Unsigned.to_uint_nonnil.
      + rewrite Stdlib.Numbers.DecimalPos.Unsigned.of_to. reflexivity. }
  destruct Hd as (d & -> & Hnil & Hval).
  cbn [NilZero.string_of_int].
  destruct (uint_starts_with_digit d Hnil)
    as (c & tl & -> & Hc & Hsp & Hm & Hp).
  unfold atoi.
  assert (Hskip : skip_spaces (lit (NilEmpty.string_of_uint d) ++ newline :: rest)
                  = lit (NilEmpty.string_of_uint d) ++ newline :: rest).
  { rewrite Hc. cbn [app skip_spaces]. rewrite Hsp. reflexivity. }
  rewrite Hskip.
  assert (Hv : match lit (NilEmpty.string_of_uint d) ++ newline :: rest with
               | "-"%char :: s2 => - digits_value s2 0
               | "+"%char :: s2 => digits_value s2 0
               | _ => digits_value
                        (lit (NilEmpty.string_of_uint d) ++ newline :: rest) 0
               end = z).
  { pose proof (digits_of_uint d (newline :: rest)) as Hdig.
    change (digits_value (newline :: rest) (Z.of_N (Pos.of_uint d)))
      with (Z.of_N (Pos.of_uint d)) in Hdig.
    rewrite Hval in Hdig. rewrite Hc in Hdig |- *. cbn [app] in Hdig |- *.
    destruct c as [[] [] [] [] [] [] [] []]; try exact Hdig;
      exfalso; auto. }
  rewrite Hv.
  destruct ((INT_MIN <=? z) && (z <=? INT_MAX)) eqn:E; [reflexivity|].
  unfold INT_MIN, INT_MAX in *. lia.
Qed.

(** X25: the script of a batch.  For a list of at most [2^31] queued jobs
    and a loop bound of at least their number, the constructor returns the
    batch whose children are the queued handles in order, and writes once,
    to the temporary file, the script made for each index [i = 0 .. N-1] of
    the line [echo __batchitem__=<i>] followed by the line
    [<command i> && echo __batchitem_complete__=<i>], both ended by a
    newline; the id is printed in decimal: [atoi] reads each printed id
    back as [i]. *)
Theorem BatchSubprocess_new_script (fuel : nat) (batch_procs : list SubProc)
    (os : os_GetTempFileName) :
  GetTempFileName os <> [] ->
  Z.of_nat (length batch_procs) <= INT_MAX + 1 ->
  (length batch_procs <= fuel)%nat ->
  BatchSubprocess_new fuel batch_procs os
  = Ret (mkBatch Subprocess_new (GetTempFileName os) (map fst batch_procs),
         [WriteFile (GetTempFileName os)
                    (script_text (map snd batch_procs))])
  /\ forall i rest, (i < length batch_procs)%nat ->
       atoi (decimal (Z.of_nat i) ++ newline :: rest) = Ret (Z.of_nat i).
Proof.
  intros Hname Hmax Hfuel. split.
  - unfold BatchSubprocess_new.
    destruct (slen (GetTempFileName os) =? 0) eqn:E.
    + exfalso. apply Hname. apply Z.eqb_eq in E. unfold slen in E.
      destruct (GetTempFileName os); [reflexivity|simpl in E; lia].
    + pose proof (script_loop_from batch_procs fuel [] [] [] Hmax Hfuel) as H.
      change (Z.of_nat (length (@nil SubProc))) with 0 in H.
      change ([] ++ batch_procs) with batch_procs in H.
      rewrite H. reflexivity.
  - intros i rest Hi. apply atoi_decimal. lia.
Qed.

(** An instance: the three jobs "echo A", "false", "echo C". *)
Lemma BatchSubprocess_new_script_witness :
  BatchSubprocess_new 3 jobs_A_false_C temp_ok
  = Ret (mkBatch Subprocess_new (GetTempFileName temp_ok)
                 (map fst jobs_A_false_C),
         [WriteFile (GetTempFileName temp_ok)
                    (line "echo __batchitem__=0"
                     ++ line "echo A && echo __batchitem_complete__=0"
                     ++ line "echo __batchitem__=1"
                     ++ line "false && echo __batchitem_complete__=1"
                     ++ line "echo __batchitem__=2"
                     ++ line "echo C && echo __batchitem_complete__=2")])
  /\ forall i rest, (i < length jobs_A_false_C)%nat ->
       atoi (decimal (Z.of_nat i) ++ newline :: rest) = Ret (Z.of_nat i).
Proof.
  apply (BatchSubprocess_new_script 3 jobs_A_false_C temp_ok).
  - vm_compute. discriminate.
  - vm_compute. discriminate.
  - simpl. lia.
Defined.

(** ** SubprocessSet::DoWork: interruption *)

(** With nothing pending, [DoWork] is its part from the wait on. *)
Lemma DoWork_nothing_pending fuel s os :
  procs_to_batch_ s = [] -> DoWork fuel s os = DoWork_wait fuel s os.
Proof.
  intros Hnil. unfold DoWork, DoWork_flush. rewrite Hnil.
  cbn [length Nat.eqb negb mbind outcome_bind obind].
  destruct (DoWork_wait fuel s os) as [[[stop s2] t1]| | | |]; reflexivity.
Qed.


Lemma DoWork_wait_null_key fuel s os :
  dw_GetQueuedCompletionStatus os = true ->
  dw_subproc os = None ->
  DoWork_wait fuel s os = Ret (true, s, []).
Proof.
  intros Hok Hkey. unfold DoWork_wait. rewrite Hok, Hkey. reflexivity.
Qed.

(** C7: when the wait delivers an event with a null key, [DoWork] returns
    [true] with the set, the object store and the list of calls exactly as
    they were when the wait was entered ([s1] and [t0] are what the part of
    [DoWork] before the wait produced).  With nothing pending, that is the
    state [DoWork] was called in. *)
Theorem C7_null_key_stops (fuel : nat) (s s1 : SubprocessSet)
    (os : os_DoWork) (t0 : list os_call) :
  dw_GetQueuedCompletionStatus os = true ->
  dw_subproc os = None ->
  DoWork_flush fuel s os = Ret (false, s1, t0) ->
  DoWork_wait fuel s1 os = Ret (true, s1, [])
  /\ DoWork fuel s os = Ret (true, s1, t0)
  /\ (procs_to_batch_ s = [] -> s1 = s /\ t0 = []).
Proof.
  intros Hok Hkey Hflush. split_and!.
  - apply DoWork_wait_null_key; assumption.
  - unfold DoWork. rewrite Hflush. simpl.
    rewrite DoWork_wait_null_key by assumption. simpl.
    rewrite app_nil_r. reflexivity.
  - intros Hnil. unfold DoWork_flush in Hflush. rewrite Hnil in Hflush.
    simpl in Hflush. split; congruence.
Qed.

(** An instance: the interrupt arrives right after the queued job was made
    a batch. *)
Lemma C7_null_key_stops_witness :
  DoWork_wait 1 batch_flushed interrupt_event = Ret (true, batch_flushed, [])
  /\ DoWork 1 one_running_one_queued interrupt_event
     = Ret (true, batch_flushed, batch_flushed_calls)
  /\ (procs_to_batch_ one_running_one_queued = [] ->
      batch_flushed = one_running_one_queued /\ batch_flushed_calls = []).
Proof.
  apply (C7_null_key_stops 1 one_running_one_queued batch_flushed
           interrupt_event batch_flushed_calls).
  - reflexivity.
  - reflexivity.
  - vm_compute. reflexivity.
Defined.

(** ** SubprocessSet::DoWork: the pending jobs become one batch *)

(** With jobs pending, the part of [DoWork] before the wait makes one batch
    of the whole list, records it as the active batch at a fresh address,
    and empties the list; the batch joins [running_] only if a process
    handle was recorded for it. *)
Lemma DoWork_flush_batches_all fuel s os b t0 p1 t1 :
  procs_to_batch_ s <> [] ->
  BatchSubprocess_new fuel (procs_to_batch_ s) (dw_temp os) = Ret (b, t0) ->
  Start (base b) (batch_command_ s ++ GetCommand b) (dw_start os)
    = Ret (true, p1, t1) ->
  exists s',
    DoWork_flush fuel s os = Ret (false, s', t0 ++ t1)
    /\ procs_to_batch_ s' = []
    /\ batch_process_ s' = Some (next_ptr s)
    /\ heap s' = <[ next_ptr s := OBatch (set_base b p1) ]> (heap s)
    /\ finished_ s' = finished_ s
    /\ running_ s' = (if child_ p1 =? NULL then running_ s
                      else running_ s ++ [next_ptr s]).
Proof.
  intros Hne Hnew Hstart. unfold DoWork_flush.
  destruct (procs_to_batch_ s) as [|sp rest] eqn:E; [contradiction|].
  cbn [length Nat.eqb negb]. rewrite Hnew. cbn.
  rewrite Hstart. cbn.
  eexists. split; [reflexivity|].
  destruct (child_ p1 =? NULL); cbn; rewrite insert_insert_eq; auto.
Qed.

(** [DoWork] returns [true] only when the event has a null key. *)
Lemma DoWork_wait_true_only_interrupted fuel s os s' t :
  DoWork_wait fuel s os = Ret (true, s', t) -> dw_subproc os = None.
Proof.
  unfold DoWork_wait.
  destruct (negb _ && negb _); [discriminate|].
  destruct (dw_subproc os) as [subproc|]; [|reflexivity].
  destruct (deref s subproc) as [o| | | |]; cbn; try discriminate.
  destruct (OnPipeReady _ _) as [[p1 t1]| | | |]; cbn; try discriminate.
  destruct (Done p1); [|discriminate].
  destruct (decide _) as [Hb|Hb].
  - destruct o as [p|b]; [discriminate|].
    destruct (Finish p1 _) as [[err p2] t2].
    destruct (ParseOutput _ _ _ _) as [parsed| | | |]; cbn; try discriminate.
    destruct (redistribute _ _ _ _ _ _ _) as [s3| | | |]; cbn;
      try discriminate.
    destruct (deref _ subproc) as [[p|b3]| | | |]; cbn; try discriminate.
    destruct (BatchSubprocess_delete _ _ _) as [t3| | | |]; cbn; discriminate.
  - destruct (decide _); discriminate.
Qed.

Lemma DoWork_true_only_interrupted fuel s os s' t :
  DoWork fuel s os = Ret (true, s', t) -> dw_subproc os = None.
Proof.
  unfold DoWork.
  destruct (DoWork_flush fuel s os) as [[[returned s1] t0]| | | |] eqn:Hflush;
    cbn; try discriminate.
  destruct returned.
  - (* the early return needs Start to have failed, which it never does *)
    exfalso. revert Hflush. unfold DoWork_flush.
    destruct (negb _); [|discriminate].
    destruct (BatchSubprocess_new _ _ _) as [[b t0']| | | |]; cbn;
      try discriminate.
    destruct (Start _ _ _) as [[[ok p1] t1]| | | |] eqn:Hstart; cbn;
      try discriminate.
    apply Start_returns_true in Hstart. cbn in Hstart. subst ok. cbn.
    discriminate.
  - destruct (DoWork_wait fuel s1 os) as [[[stop s2] t1]| | | |] eqn:Hwait;
      cbn; try discriminate.
    intros [= -> _ _]. eapply DoWork_wait_true_only_interrupted, Hwait.
Qed.

(** C6 at a failing input.  Process 0 runs and job 1 is queued for the
    batch; the batch runner is not found when [DoWork] starts the batch,
    and the event that follows belongs to process 0.  [DoWork] returns
    [false], and the batch (object 2) is then the active batch without
    being in [running_] or in [finished_]; the queued list is empty, so
    handle 1 is only a child record of that batch and nothing is ready for
    [NextFinished].  [Add], for a single process that is not found, pushes
    it onto [finished_]. *)
Theorem C6_not_found_batch_is_dropped :
  map fst (procs_to_batch_ one_running_one_queued) = [1%nat]
  /\ exists s' t,
       DoWork 1 one_running_one_queued batch_not_found_then_event_0
       = Ret (false, s', t)
       /\ running_ s' = [0%nat]
       /\ finished_ s' = []
       /\ procs_to_batch_ s' = []
       /\ batch_process_ s' = Some 2%nat
       /\ active_children s' = [1%nat]
       /\ (GetOutput ∘ base_of <$> heap s' !! 2%nat) = Some not_found_message
       /\ (Done ∘ base_of <$> heap s' !! 2%nat) = Some true
       /\ NextFinished s' = (None, s')
       /\ finished_ (state_after (Add new_set (lit "cl.exe /c a.c")
                                      add_not_found)) = [0%nat].
Proof.
  split; [reflexivity|].
  eexists. eexists. split; [vm_compute; reflexivity|].
  split_and!; reflexivity.
Qed.

(** ** SubprocessSet::DoWork: a finished batch hands out its results *)

Lemma redistribute_from err succ (jo0 : gmap Z str) (post : list ptr) :
  forall (fuel : nat) (pre : list ptr) (jo : gmap Z str) (s : SubprocessSet),
    Z.of_nat (length (pre ++ post)) <= INT_MAX + 1 ->
    (length post <= fuel)%nat ->
    NoDup post ->
    (forall c, c ∈ post -> is_Some (heap s !! c)) ->
    (forall k, default [] (jo !! k) = default [] (jo0 !! k)) ->
    exists h',
      redistribute fuel (pre ++ post) (Z.of_nat (length pre)) err succ jo s
      = Ret (set_finished (set_heap s h') (finished_ s ++ post))
      /\ (forall a, a ∉ post -> h' !! a = heap s !! a)
      /\ (forall k c, post !! k = Some c ->
            exists o, heap s !! c = Some o
                      /\ h' !! c = Some (with_base o
                           (child_result succ jo0 err (length pre + k)
                                         (base_of o)))).
Proof.
  induction post as [|c post IH]; intros fuel pre jo s Hmax Hfuel Hnd Hlive Hjo.
  - exists (heap s). split_and!.
    + rewrite !app_nil_r.
      assert (E : (Z.of_nat (length pre) <? Z.of_nat (length pre)) = false)
        by apply Z.ltb_irrefl.
      destruct fuel; cbn [redistribute]; rewrite E; destruct s; reflexivity.
    + reflexivity.
    + intros k c Hk. rewrite lookup_nil in Hk. discriminate.
  - destruct fuel as [|fuel]; [simpl in Hfuel; lia|].
    assert (Hlen : Z.of_nat (length pre) + 1 + Z.of_nat (length post)
                   <= INT_MAX + 1)
      by (rewrite length_app in Hmax; simpl in Hmax; lia).
    apply NoDup_cons in Hnd as [Hc Hnd].
    destruct (Hlive c) as [o Ho]; [left|].
    cbn [redistribute].
    assert (E : (Z.of_nat (length pre) <? Z.of_nat (length (pre ++ c :: post)))
                = true)
      by (apply Z.ltb_lt; rewrite length_app; simpl; lia).
    rewrite E, Nat2Z.id.
    rewrite lookup_app_r, Nat.sub_diag by lia. cbn [lookup list_lookup].
    unfold deref at 1. rewrite Ho. cbn [mbind outcome_bind obind].
    rewrite to_int_small by (unfold INT_MAX in *; lia).
    rewrite wrap32_small by (unfold uint32_modulus, INT_MAX in *; lia).
    replace (Z.of_nat (length pre) + 1) with (Z.of_nat (length (pre ++ [c])))
      by (rewrite length_app; simpl; lia).
    replace (pre ++ c :: post) with ((pre ++ [c]) ++ post)
      by (rewrite <- app_assoc; reflexivity).
    set (id := Z.of_nat (length pre)).
    set (output := default [] (jo !! id)).
    set (p := set_buf (set_override (base_of o) _) output).
    set (s1 := push_finished (store s c (with_base o p)) c).
    destruct (IH fuel (pre ++ [c]) (<[ id := output ]> jo) s1)
      as (h' & Hret & Hother & Hkids).
    + rewrite !length_app. simpl. lia.
    + simpl in Hfuel. lia.
    + exact Hnd.
    + intros c' Hc'. unfold s1. cbn.
      destruct (decide (c = c')) as [->|Hne].
      * rewrite lookup_insert_eq. eauto.
      * rewrite lookup_insert_ne by exact Hne. apply Hlive. right. exact Hc'.
    + intros k. destruct (decide (id = k)) as [<-|Hne].
      * rewrite lookup_insert_eq. cbn. unfold output. apply Hjo.
      * rewrite lookup_insert_ne by exact Hne. apply Hjo.
    + exists h'. split_and!.
      * rewrite Hret. unfold s1, push_finished, store, set_finished, set_heap.
        cbn. rewrite <- app_assoc. reflexivity.
      * intros a Ha. rewrite Hother by (intros Hin; apply Ha; right; exact Hin).
        unfold s1. cbn. apply lookup_insert_ne. intros ->. apply Ha. left.
      * intros [|k] c' Hk.
        -- injection Hk as <-. exists o. split; [exact Ho|].
           rewrite Hother by exact Hc. unfold s1. cbn.
           rewrite lookup_insert_eq. rewrite Nat.add_0_r.
           unfold p, child_result, output. fold id. rewrite Hjo. reflexivity.
        -- cbn in Hk. destruct (Hkids k c' Hk) as (o' & Ho' & Hh').
           assert (Hne : c <> c').
           { intros ->. apply Hc. eapply list_elem_of_lookup_2, Hk. }
           exists o'. split.
           ++ rewrite <- Ho'. unfold s1. cbn. symmetry.
              apply lookup_insert_ne, Hne.
           ++ rewrite Hh'. rewrite length_app. simpl.
              replace (length pre + 1 + k)%nat with (length pre + S k)%nat
                by lia.
              reflexivity.
Qed.

Lemma Finish_keeps_pipe_and_buf p exit_code :
  pipe_ (Finish p exit_code).1.2 = pipe_ p
  /\ buf_ (Finish p exit_code).1.2 = buf_ p.
Proof.
  unfold Finish. destruct (use_override_status_ p); [split; reflexivity|].
  destruct (child_ p =? NULL); split; reflexivity.
Qed.

Lemma Subprocess_delete_done p close_ok exit_code :
  Done p = true ->
  exists t, Subprocess_delete p close_ok exit_code = Ret t.
Proof.
  unfold Done, Subprocess_delete. intros ->. cbn. eauto.
Qed.

Lemma deref_live s a o : heap s !! a = Some o -> deref s a = Ret o.
Proof. unfold deref. intros ->. reflexivity. Qed.

(** The part of [DoWork] from the wait on, when the active batch is done. *)
Lemma DoWork_wait_batch_done (fuel : nat) (s : SubprocessSet)
    (os : os_DoWork) (subproc : nat) (b : BatchSubprocess)
    (p1 : Subprocess) (t1 : list os_call) (parsed : parsed) :
  dw_GetQueuedCompletionStatus os = true
  \/ dw_GetQueuedCompletionStatus_error os = ERROR_BROKEN_PIPE ->
  dw_subproc os = Some subproc ->
  batch_process_ s = Some subproc ->
  heap s !! subproc = Some (OBatch b) ->
  OnPipeReady (base b) (dw_pipe os) = Ret (p1, t1) ->
  Done p1 = true ->
  ParseOutput fuel (buf_ (Finish p1 (dw_exit_code os)).1.2) ∅ ∅ = Ret parsed ->
  Z.of_nat (length (GetChildren b)) <= INT_MAX + 1 ->
  (length (GetChildren b) <= fuel)%nat ->
  NoDup (GetChildren b) ->
  subproc ∉ GetChildren b ->
  Forall (fun c => is_Some (heap s !! c)) (GetChildren b) ->
  exists s' t,
    DoWork_wait fuel s os = Ret (false, s', t)
    /\ finished_ s' = finished_ s ++ GetChildren b
    /\ running_ s' = remove_all subproc (running_ s)
    /\ batch_process_ s' = None
    /\ heap s' !! subproc = None
    /\ (exists t3,
          Subprocess_delete
            (set_buf (Finish p1 (dw_exit_code os)).1.2 (p_buf parsed))
            (dw_close_ok os) (dw_delete_exit_code os) = Ret t3
          /\ t = t1 ++ (Finish p1 (dw_exit_code os)).2
                ++ RemoveFile (script_filename_ b) :: t3)
    /\ forall i c, GetChildren b !! i = Some c ->
         exists o,
           heap s !! c = Some o
           /\ heap s' !! c
              = Some (with_base o
                        (child_result (p_successful_jobs parsed)
                                      (p_job_output parsed)
                                      (Finish p1 (dw_exit_code os)).1.1
                                      i (base_of o))).
Proof.
  intros Hok Hkey Hactive Hobj Hpipe Hdone Hparse Hmax Hfuel Hnd Hself Hlive.
  unfold DoWork_wait.
  assert (Hf : negb (dw_GetQueuedCompletionStatus os)
               && negb (dw_GetQueuedCompletionStatus_error os
                        =? ERROR_BROKEN_PIPE) = false).
  { destruct Hok as [->| ->]; [reflexivity|].
    rewrite Z.eqb_refl. apply andb_false_r. }
  rewrite Hf, Hkey.
  rewrite (deref_live _ _ _ Hobj). cbn [mbind outcome_bind obind base_of].
  rewrite Hpipe. cbn [mbind outcome_bind obind]. rewrite Hdone.
  change (batch_process_ (store s subproc (with_base (OBatch b) p1)))
    with (batch_process_ s).
  destruct (decide (batch_process_ s = Some subproc)) as [_|Hn];
    [|contradiction].
  destruct (Finish_keeps_pipe_and_buf p1 (dw_exit_code os)) as [Hp2 _].
  destruct (Finish p1 (dw_exit_code os)) as [[err p2] t2].
  cbn [fst snd] in Hparse, Hp2 |- *.
  rewrite Hparse. cbn [mbind outcome_bind obind with_base].
  set (p3 := set_buf p2 (p_buf parsed)).
  set (s2 := store (store s subproc (OBatch (set_base b p1))) subproc
                   (OBatch (set_base b p3))).
  assert (Hs2 : forall c, c <> subproc -> heap s2 !! c = heap s !! c).
  { intros c Hne. unfold s2, store, set_heap. cbn [heap].
    rewrite !lookup_insert_ne by congruence. reflexivity. }
  destruct (redistribute_from err (p_successful_jobs parsed)
              (p_job_output parsed) (GetChildren b) fuel []
              (p_job_output parsed) s2)
    as (h' & Hret & Hother & Hkids); try assumption.
  - intros c Hc. rewrite Hs2 by (intros ->; contradiction).
    rewrite Forall_forall in Hlive. apply Hlive, Hc.
  - reflexivity.
  - change (Z.of_nat (length (@nil nat))) with 0 in Hret.
    change ([] ++ GetChildren b) with (GetChildren b) in Hret.
    rewrite Hret. cbn [mbind outcome_bind obind].
    erewrite deref_live; cycle 1.
    { change (heap (set_running _ _)) with h'.
      rewrite (Hother subproc Hself).
      unfold s2, store, set_heap. cbn [heap]. apply lookup_insert_eq. }
    cbn [mbind outcome_bind obind].
    destruct (Subprocess_delete_done p3 (dw_close_ok os)
                (dw_delete_exit_code os)) as [t3 Ht3].
    { unfold Done, p3 in *. cbn [pipe_ set_buf]. rewrite Hp2. exact Hdone. }
    unfold BatchSubprocess_delete. cbn [mbind outcome_bind obind base set_base].
    rewrite Ht3. cbn [mbind outcome_bind obind].
    do 2 eexists. split; [reflexivity|].
    split_and!; try reflexivity.
    { unfold free, set_batch_process, set_heap. cbn [heap].
      apply lookup_delete_eq. }
    { exists t3. split; reflexivity. }
    intros i c Hi. destruct (Hkids i c Hi) as (o & Ho & Hh').
    assert (Hne : c <> subproc).
    { intros ->. apply Hself. eapply list_elem_of_lookup_2, Hi. }
    exists o. split.
    + rewrite <- Hs2 by exact Hne. exact Ho.
    + unfold free, set_batch_process, set_heap. cbn [heap].
      rewrite lookup_delete_ne by congruence. exact Hh'.
Qed.

(** *** The output of the batch ends inside a marker line *)

Lemma three_queued_reachable : reachable three_queued [0; 1; 2]%nat.
Proof.
  pose (s0 := SetBatchMode new_set true batch_on).
  pose (s1 := state_after (Add s0 (lit "echo A") add_ok)).
  pose (s2 := state_after (Add s1 (lit "false") add_ok)).
  assert (H0 : reachable s0 []) by apply reach_SetBatchMode, reach_new.
  assert (H1 : reachable s1 [0%nat]).
  { apply (reach_Add s0 [] (lit "echo A") add_ok (Some 0%nat) s1 []);
      [exact H0|vm_compute; reflexivity]. }
  assert (H2 : reachable s2 [0; 1]%nat).
  { apply (reach_Add s1 [0%nat] (lit "false") add_ok (Some 1%nat) s2 []);
      [exact H1|vm_compute; reflexivity]. }
  apply (reach_Add s2 [0; 1]%nat (lit "echo C") add_ok (Some 2%nat)
           three_queued []); [exact H2|vm_compute; reflexivity].
Qed.

Lemma batch_output_read_reachable :
  reachable batch_output_read [0; 1; 2]%nat.
Proof.
  pose (s1 := state_after (DoWork 3 three_queued (event_for 3 pipe_pending 0))).
  assert (H1 : reachable s1 [0; 1; 2]%nat).
  { apply (reach_DoWork three_queued _ 3 (event_for 3 pipe_pending 0) false
             s1 (calls_of (DoWork 3 three_queued
                             (event_for 3 pipe_pending 0))));
      [apply three_queued_reachable|vm_compute; reflexivity]. }
  apply (reach_DoWork s1 _ 3 (event_for 3 (pipe_data stream_A_false_C) 0)
           false batch_output_read
           (calls_of (DoWork 3 s1
                        (event_for 3 (pipe_data stream_A_false_C) 0))));
    [exact H1|vm_compute; reflexivity].
Qed.

Lemma batch_output_cut_reachable :
  reachable batch_output_cut [0; 1; 2]%nat.
Proof.
  pose (s1 := state_after (DoWork 3 three_queued (event_for 3 pipe_pending 0))).
  assert (H1 : reachable s1 [0; 1; 2]%nat).
  { apply (reach_DoWork three_queued _ 3 (event_for 3 pipe_pending 0) false
             s1 (calls_of (DoWork 3 three_queued
                             (event_for 3 pipe_pending 0))));
      [apply three_queued_reachable|vm_compute; reflexivity]. }
  apply (reach_DoWork s1 _ 3 (event_for 3 (pipe_data start_marker_cut) 0)
           false batch_output_cut
           (calls_of (DoWork 3 s1
                        (event_for 3 (pipe_data start_marker_cut) 0))));
    [exact H1|vm_compute; reflexivity].
Qed.

(** On [start_marker_cut] the second loop alternates between the two start
    tokens, at offsets 0 and 18. *)
Lemma split_loop_start_marker_cut_diverges (fuel : nat) :
  forall outs,
    split_loop fuel start_marker_cut 0 outs = OutOfFuel
    /\ split_loop fuel start_marker_cut 18 outs = OutOfFuel.
Proof.
  induction fuel as [|fuel IH]; intros outs; [split; reflexivity|].
  split.
  - change (split_loop (S fuel) start_marker_cut 0 outs)
      with (split_loop fuel start_marker_cut 18 (<[ 0 := line "A" ]> outs)).
    apply IH.
  - change (split_loop (S fuel) start_marker_cut 18 outs)
      with (split_loop fuel start_marker_cut 0 (<[ 1 := [] ]> outs)).
    apply IH.
Qed.

Lemma ParseOutput_start_marker_cut_diverges (fuel : nat) :
  ParseOutput fuel start_marker_cut ∅ ∅ = OutOfFuel.
Proof.
  unfold ParseOutput.
  assert (Hf : find start_marker_cut complete_token 0 = npos)
    by reflexivity.
  rewrite Hf.
  assert (Hstrip : forall r g,
             strip_loop fuel start_marker_cut npos r g = Ret (r, g))
    by (intros; destruct fuel; reflexivity).
  rewrite Hstrip. simpl.
  change (copy_ranges start_marker_cut [(0, slen start_marker_cut)] [])
    with (Ret (A := str) start_marker_cut).
  simpl.
  change (find start_marker_cut start_token 0) with 0.
  simpl. rewrite (proj1 (split_loop_start_marker_cut_diverges fuel ∅)).
  reflexivity.
Qed.

(** When the active batch is done and the parse of its output runs out of
    every bound, so does [DoWork]. *)
Lemma DoWork_wait_parse_out_of_fuel (fuel : nat) (s : SubprocessSet)
    (os : os_DoWork) (subproc : nat) (b : BatchSubprocess)
    (p1 : Subprocess) (t1 : list os_call) :
  dw_GetQueuedCompletionStatus os = true
  \/ dw_GetQueuedCompletionStatus_error os = ERROR_BROKEN_PIPE ->
  dw_subproc os = Some subproc ->
  batch_process_ s = Some subproc ->
  heap s !! subproc = Some (OBatch b) ->
  OnPipeReady (base b) (dw_pipe os) = Ret (p1, t1) ->
  Done p1 = true ->
  ParseOutput fuel (buf_ (Finish p1 (dw_exit_code os)).1.2) ∅ ∅ = OutOfFuel ->
  DoWork_wait fuel s os = OutOfFuel.
Proof.
  intros Hok Hkey Hactive Hobj Hpipe Hdone Hparse. unfold DoWork_wait.
  assert (Hf : negb (dw_GetQueuedCompletionStatus os)
               && negb (dw_GetQueuedCompletionStatus_error os
                        =? ERROR_BROKEN_PIPE) = false).
  { destruct Hok as [->| ->]; [reflexivity|].
    rewrite Z.eqb_refl. apply andb_false_r. }
  rewrite Hf, Hkey, (deref_live _ _ _ Hobj).
  cbn [mbind outcome_bind obind base_of].
  rewrite Hpipe. cbn [mbind outcome_bind obind]. rewrite Hdone.
  change (batch_process_ (store s subproc (with_base (OBatch b) p1)))
    with (batch_process_ s).
  destruct (decide (batch_process_ s = Some subproc)) as [_|Hn];
    [|contradiction].
  destruct (Finish p1 (dw_exit_code os)) as [[err p2] t2].
  cbn [fst snd] in Hparse. rewrite Hparse. reflexivity.
Qed.

(** C2 at a failing input.  Three jobs are queued in batch mode and
    [DoWork] starts their batch (object 3); a read completes with the
    output of the first job followed by the start marker of the second
    without its newline; then the pipe of the batch is found broken (the
    runner was killed), so the batch is detected done.  The call of
    [ParseOutput] at line 302 does not return: after the last start token
    no newline is found, [start_pos] wraps to 0 and the loop begins again
    at the first token.  [DoWork] never returns, whatever bound the loop is
    given: no child receives a status or an output, and none is pushed onto
    the finished queue. *)
Theorem C2_cut_output_redistributes_nothing :
  reachable batch_output_cut [0; 1; 2]%nat
  /\ batch_process_ batch_output_cut = Some 3%nat
  /\ running_ batch_output_cut = [3%nat]
  /\ finished_ batch_output_cut = []
  /\ active_children batch_output_cut = [0; 1; 2]%nat
  /\ GetOutput (base (batch_at batch_output_cut 3)) = start_marker_cut
  /\ Done (OnPipeReady_result (base (batch_at batch_output_cut 3))
                              pipe_broken) = true
  /\ forall fuel,
       DoWork fuel batch_output_cut (event_for 3 pipe_broken 1) = OutOfFuel.
Proof.
  split; [apply batch_output_cut_reachable|].
  split_and!; try reflexivity.
  intros fuel. unfold DoWork.
  assert (Hflush : DoWork_flush fuel batch_output_cut
                     (event_for 3 pipe_broken 1)
                   = Ret (false, batch_output_cut, []))
    by reflexivity.
  rewrite Hflush. cbn [mbind outcome_bind obind].
  rewrite (DoWork_wait_parse_out_of_fuel fuel batch_output_cut
             (event_for 3 pipe_broken 1) 3 (batch_at batch_output_cut 3)
             (set_pipe (base (batch_at batch_output_cut 3)) NULL)
             [CloseHandle (pipe_ (base (batch_at batch_output_cut 3)))]).
  - reflexivity.
  - left. reflexivity.
  - reflexivity.
  - reflexivity.
  - vm_compute. reflexivity.
  - reflexivity.
  - reflexivity.
  - assert (Hbuf : buf_ (Finish (set_pipe (base (batch_at batch_output_cut 3))
                                          NULL)
                                (dw_exit_code (event_for 3 pipe_broken 1))).1.2
                   = start_marker_cut)
      by (vm_compute; reflexivity).
    rewrite Hbuf. apply ParseOutput_start_marker_cut_diverges.
Qed.

(** The three children after the batch is found done: 0 and 2 succeeded
    with their output, 1 has the batch's failure and no output, and they
    are ready in index order. *)
Example batch_A_false_C_results :
  let s' := state_after (DoWork_wait 3 batch_output_read
                                     (event_for 3 pipe_broken 1)) in
  finished_ s' = [0%nat; 1%nat; 2%nat]
  /\ (base_of <$> heap s' !! 0%nat)
     = Some (set_buf (set_override Subprocess_new ExitSuccess) (line "A"))
  /\ (base_of <$> heap s' !! 1%nat)
     = Some (set_buf (set_override Subprocess_new ExitFailure) [])
  /\ (base_of <$> heap s' !! 2%nat)
     = Some (set_buf (set_override Subprocess_new ExitSuccess) (line "C")).
Proof. vm_compute. split_and!; reflexivity. Qed.

(** ** The collections of the set *)

(** *** What the two indexed loops do to the lists, whenever they return *)

Lemma script_loop_no_return fuel procs :
  uint32_modulus <= Z.of_nat (length procs) ->
  forall i sc ch r,
    0 <= i < uint32_modulus -> script_loop fuel procs i sc ch <> Ret r.
Proof.
  intros Hbig. induction fuel as [|fuel IH]; intros i sc ch r Hi;
    cbn [script_loop];
    (assert (E : (i <? Z.of_nat (length procs)) = true)
       by (apply Z.ltb_lt; lia));
    rewrite E; [discriminate|].
  destruct (procs !! Z.to_nat i); [|discriminate].
  apply IH. apply Z.mod_pos_bound. reflexivity.
Qed.

Lemma script_loop_children fuel :
  forall procs i sc ch sc' ch',
    0 <= i < uint32_modulus ->
    i <= Z.of_nat (length procs) ->
    script_loop fuel procs i sc ch = Ret (sc', ch') ->
    ch' = ch ++ map fst (drop (Z.to_nat i) procs).
Proof.
  assert (Hend : forall (procs : list SubProc) i (ch : list ptr),
             (i <? Z.of_nat (length procs)) = false ->
             ch = ch ++ map fst (drop (Z.to_nat i) procs)).
  { intros procs i ch E. apply Z.ltb_ge in E.
    rewrite drop_ge by lia. cbn. rewrite app_nil_r. reflexivity. }
  induction fuel as [|fuel IH]; intros procs i sc ch sc' ch' Hi Hle H;
    cbn [script_loop] in H;
    destruct (i <? Z.of_nat (length procs)) eqn:E;
    try discriminate;
    try (injection H as <- <-; apply Hend, E).
  apply Z.ltb_lt in E.
  destruct (procs !! Z.to_nat i) as [sp|] eqn:Hsp; [|discriminate].
  destruct (decide (i + 1 < uint32_modulus)) as [Hlt|Hge].
  - rewrite wrap32_small in H by lia.
    apply IH in H; [|lia|lia].
    rewrite H. unfold AppendChild.
    rewrite (drop_S _ _ _ Hsp).
    replace (Z.to_nat (i + 1)) with (S (Z.to_nat i)) by lia.
    cbn. rewrite <- app_assoc. reflexivity.
  - exfalso. eapply (script_loop_no_return fuel procs); [|..|exact H].
    + lia.
    + apply Z.mod_pos_bound. reflexivity.
Qed.

Lemma redistribute_no_return fuel children err succ :
  uint32_modulus <= Z.of_nat (length children) ->
  forall child jo s r,
    0 <= child < uint32_modulus ->
    redistribute fuel children child err succ jo s <> Ret r.
Proof.
  intros Hbig. induction fuel as [|fuel IH]; intros child jo s r Hi;
    cbn [redistribute];
    (assert (E : (child <? Z.of_nat (length children)) = true)
       by (apply Z.ltb_lt; lia));
    rewrite E; [discriminate|].
  destruct (children !! Z.to_nat child) as [c|]; [|discriminate].
  destruct (deref s c) as [o| | | |]; cbn [mbind outcome_bind obind];
    try discriminate.
  apply IH. apply Z.mod_pos_bound. reflexivity.
Qed.

Lemma redistribute_lists fuel :
  forall children child err succ jo s s',
    0 <= child < uint32_modulus ->
    child <= Z.of_nat (length children) ->
    redistribute fuel children child err succ jo s = Ret s' ->
    finished_ s' = finished_ s ++ drop (Z.to_nat child) children
    /\ running_ s' = running_ s
    /\ procs_to_batch_ s' = procs_to_batch_ s
    /\ batch_process_ s' = batch_process_ s
    /\ next_ptr s' = next_ptr s.
Proof.
  assert (Hend : forall (children : list ptr) child s,
             (child <? Z.of_nat (length children)) = false ->
             finished_ s = finished_ s ++ drop (Z.to_nat child) children).
  { intros children child s E. apply Z.ltb_ge in E.
    rewrite drop_ge by lia. rewrite app_nil_r. reflexivity. }
  induction fuel as [|fuel IH]; intros children child err succ jo s s' Hi Hle H;
    cbn [redistribute] in H;
    destruct (child <? Z.of_nat (length children)) eqn:E;
    try discriminate;
    try (injection H as <-; split_and!; try reflexivity; apply Hend, E).
  apply Z.ltb_lt in E.
  destruct (children !! Z.to_nat child) as [c|] eqn:Hc; [|discriminate].
  destruct (deref s c) as [o| | | |]; cbn [mbind outcome_bind obind] in H;
    try discriminate.
  destruct (decide (child + 1 < uint32_modulus)) as [Hlt|Hge].
  - rewrite wrap32_small in H by lia.
    apply IH in H; [|lia|lia].
    destruct H as (Hf & Hr & Hp & Hb & Hn).
    rewrite Hf, Hr, Hp, Hb, Hn. cbn.
    split_and!; try reflexivity.
    rewrite (drop_S _ _ _ Hc).
    replace (Z.to_nat (child + 1)) with (S (Z.to_nat child)) by lia.
    rewrite <- app_assoc. reflexivity.
  - exfalso. eapply (redistribute_no_return fuel children); [|..|exact H].
    + lia.
    + apply Z.mod_pos_bound. reflexivity.
Qed.

(** *** Helper facts *)

(** Membership and absence of duplicates, spelled out over appended
    lists. *)
Ltac split_lists :=
  rewrite ?map_app in *; cbn [map fst] in *;
  rewrite ?NoDup_app, ?NoDup_cons, ?NoDup_nil in *;
  set_unfold.

Lemma BatchSubprocess_new_children fuel procs os b t :
  BatchSubprocess_new fuel procs os = Ret (b, t) ->
  GetChildren b = map fst procs.
Proof.
  unfold BatchSubprocess_new.
  destruct (slen (GetTempFileName os) =? 0); [discriminate|].
  destruct (script_loop fuel procs 0 [] []) as [[sc ch]| | | |] eqn:Hloop;
    cbn [mbind outcome_bind obind]; try discriminate.
  intros [= <- _].
  apply script_loop_children in Hloop.
  - exact Hloop.
  - split; [lia|reflexivity].
  - lia.
Qed.

Lemma remove_all_changed x l :
  length (remove_all x l) <> length l -> x ∈ l.
Proof.
  unfold remove_all. induction l as [|y l IH]; intros H; [contradiction|].
  rewrite filter_cons in H. destruct (decide (y <> x)) as [Hne|Heq].
  - right. apply IH. cbn in H. lia.
  - destruct (decide (x = y)) as [->|Hxy]; [left|].
    exfalso. apply Heq. congruence.
Qed.

Lemma deref_ret s a o : deref s a = Ret o -> heap s !! a = Some o.
Proof.
  unfold deref. destruct (heap s !! a); [|discriminate]. congruence.
Qed.

Lemma filter_absent (h : nat) (l : list nat) :
  h ∉ l -> filter (fun x => x = h) l = [].
Proof.
  induction l as [|x l IH]; intros Hh; [reflexivity|].
  rewrite filter_cons. destruct (decide (x = h)) as [->|Hne].
  - exfalso. apply Hh. left.
  - apply IH. intros Hin. apply Hh. right. exact Hin.
Qed.

Lemma NoDup_occurs_once (h : nat) (l : list nat) :
  NoDup l -> (length (filter (fun x => x = h) l) <= 1)%nat.
Proof.
  induction 1 as [|x l Hx Hnd IH]; [cbn; lia|].
  rewrite filter_cons. destruct (decide (x = h)) as [->|Hne]; [|exact IH].
  rewrite (filter_absent h l Hx). cbn. lia.
Qed.

(** *** Handles in none of the collections *)

Lemma second_batch_started_reachable :
  reachable second_batch_started [0; 1; 2; 4]%nat.
Proof.
  assert (H1 : reachable batch_running_one_queued [0; 1; 2; 4]%nat).
  { apply (reach_Add batch_output_read [0; 1; 2]%nat (lit "echo D") add_ok
             (Some 4%nat) batch_running_one_queued []);
      [apply batch_output_read_reachable|vm_compute; reflexivity]. }
  apply (reach_DoWork batch_running_one_queued _ 3
           (event_for 3 pipe_broken 0) false second_batch_started
           (calls_of (DoWork 3 batch_running_one_queued
                        (event_for 3 pipe_broken 0))));
    [exact H1|vm_compute; reflexivity].
Qed.

(** C8 at a failing input.  Batch mode is on and three jobs are added:
    [Add] hands out the handles 0, 1 and 2.  [DoWork] starts their batch
    (object 3) and reads its output.  A fourth job is added (handle 4), and
    the next event that [DoWork] receives is the end of the output of the
    first batch.  Nothing has been taken with [NextFinished].  Before the
    wait [DoWork] has started a second batch (object 5) and overwritten
    [batch_process_] with it, so the first batch is not recognised as a
    batch: the handles 0, 1 and 2 are in none of [running_], [finished_],
    the pending list and the children of the active batch, and the one
    entry of the finished queue is object 3, which [Add] never handed
    out. *)
Theorem C8_displaced_batch_loses_handles :
  reachable second_batch_started [0; 1; 2; 4]%nat
  /\ second_batch_started
     = state_after
         (DoWork 3 (state_after (Add batch_output_read (lit "echo D") add_ok))
                 (event_for 3 pipe_broken 0))
  /\ running_ second_batch_started = [5%nat]
  /\ finished_ second_batch_started = [3%nat]
  /\ procs_to_batch_ second_batch_started = []
  /\ batch_process_ second_batch_started = Some 5%nat
  /\ active_children second_batch_started = [4%nat]
  /\ occurrences 0 second_batch_started = 0%nat
  /\ occurrences 1 second_batch_started = 0%nat
  /\ occurrences 2 second_batch_started = 0%nat
  /\ occurrences 4 second_batch_started = 1%nat
  /\ (3%nat ∉ [0; 1; 2; 4]%nat).
Proof.
  split; [apply second_batch_started_reachable|].
  split_and!; try reflexivity.
  compute_done.
Qed.

(** * Further properties of the code *)

(** ** Subprocess::Start, Subprocess::Finish and Subprocess::OnPipeReady *)

(** X1: whenever [Start] returns, it returns [true]: every failure other
    than "file not found" aborts, and that one is reported as success.  The
    two returning outcomes are: the process was created, and then [child_]
    is its handle, [pipe_] the new pipe and the output is as before; or the
    executable was not found, and then [child_] is as before, [pipe_] is
    null and the output is the failure message.  The reading flag and the
    override are never touched. *)
Theorem Start_outcomes (p : Subprocess) (command : str) (os : os_Start)
    (ok : bool) (p' : Subprocess) (t : list os_call) :
  Start p command os = Ret (ok, p', t) ->
  ok = true
  /\ is_reading_ p' = is_reading_ p
  /\ use_override_status_ p' = use_override_status_ p
  /\ override_status_ p' = override_status_ p
  /\ ((exists hProcess hThread,
         st_CreateProcess os = Created hProcess hThread
         /\ child_ p' = hProcess
         /\ pipe_ p' = sp_CreateNamedPipe (st_setup os)
         /\ buf_ p' = buf_ p)
      \/ (st_CreateProcess os = CreateFailed ERROR_FILE_NOT_FOUND
          /\ child_ p' = child_ p
          /\ pipe_ p' = NULL
          /\ buf_ p' = not_found_message)).
Proof.
  unfold Start.
  destruct (SetupPipe p (st_setup os)) as [[[cp p1] t1]| | | |] eqn:Hsetup;
    cbn [mbind outcome_bind obind]; try discriminate.
  apply SetupPipe_fields in Hsetup. subst p1.
  destruct (st_nul os =? INVALID_HANDLE_VALUE); [discriminate|].
  destruct (st_CreateProcess os) as [hp ht|error].
  - intros [= <- <- <-]. split_and!; try reflexivity.
    left. exists hp, ht. split_and!; reflexivity.
  - destruct (error =? ERROR_FILE_NOT_FOUND) eqn:E; [|discriminate].
    apply Z.eqb_eq in E. subst error.
    intros [= <- <- <-]. split_and!; try reflexivity.
    right. split_and!; reflexivity.
Qed.

(** An instance: the process is created. *)
Lemma Start_outcomes_witness :
  true = true
  /\ is_reading_ (set_child (set_pipe Subprocess_new 100) 200)
     = is_reading_ Subprocess_new
  /\ use_override_status_ (set_child (set_pipe Subprocess_new 100) 200)
     = use_override_status_ Subprocess_new
  /\ override_status_ (set_child (set_pipe Subprocess_new 100) 200)
     = override_status_ Subprocess_new
  /\ ((exists hProcess hThread,
         st_CreateProcess start_ok = Created hProcess hThread
         /\ child_ (set_child (set_pipe Subprocess_new 100) 200) = hProcess
         /\ pipe_ (set_child (set_pipe Subprocess_new 100) 200)
            = sp_CreateNamedPipe (st_setup start_ok)
         /\ buf_ (set_child (set_pipe Subprocess_new 100) 200)
            = buf_ Subprocess_new)
      \/ (st_CreateProcess start_ok = CreateFailed ERROR_FILE_NOT_FOUND
          /\ child_ (set_child (set_pipe Subprocess_new 100) 200)
             = child_ Subprocess_new
          /\ pipe_ (set_child (set_pipe Subprocess_new 100) 200) = NULL
          /\ buf_ (set_child (set_pipe Subprocess_new 100) 200)
             = not_found_message)).
Proof.
  apply (Start_outcomes Subprocess_new (lit "cl.exe /c a.c") start_ok true
           (set_child (set_pipe Subprocess_new 100) 200)
           [CloseHandle 101; CreateProcess (lit "cl.exe /c a.c");
            CloseHandle 102; CloseHandle 103; CloseHandle 201]).
  vm_compute. reflexivity.
Defined.

(** X2: [Finish] is not repeatable on a real process.  The first call
    waits, classifies the exit code and releases the handle; a second call
    finds no handle and returns [ExitFailure] whatever the exit code was.
    With an override injected, every call returns the override and changes
    nothing. *)
Theorem Finish_twice (p : Subprocess) (exit_code exit_code' : DWORD) :
  use_override_status_ p = false ->
  child_ p <> NULL ->
  (Finish p exit_code).1.1 = classify exit_code
  /\ Finish (Finish p exit_code).1.2 exit_code'
     = (ExitFailure, set_child p NULL, [])
  /\ (forall q st,
        Finish (Finish (set_override q st) exit_code).1.2 exit_code'
        = (st, set_override q st, [])).
Proof.
  intros Hover Hchild.
  assert (E : (child_ p =? NULL) = false) by (apply Z.eqb_neq; exact Hchild).
  unfold Finish. rewrite Hover, E. cbn. rewrite Hover. split_and!; reflexivity.
Qed.

(** An instance: a child that exited with code 0 is reported as a failure
    by the second call. *)
Lemma Finish_twice_witness :
  (Finish (set_child Subprocess_new 200) 0).1.1 = classify 0
  /\ Finish (Finish (set_child Subprocess_new 200) 0).1.2 0
     = (ExitFailure, set_child (set_child Subprocess_new 200) NULL, [])
  /\ (forall q st,
        Finish (Finish (set_override q st) 0).1.2 0
        = (st, set_override q st, [])).
Proof.
  apply (Finish_twice (set_child Subprocess_new 200) 0 0).
  - reflexivity.
  - vm_compute. discriminate.
Defined.

(** X3: one completion event, whenever [OnPipeReady] returns.  The process
    handle and the override are untouched.  If the result of the pending
    operation is reported failed, the error is a broken pipe: nothing is
    read, the output and [is_reading_] are as before, the pipe is closed
    once and [pipe_] is null.  Otherwise the output is extended by exactly
    the bytes of the completed operation if a read was pending
    ([is_reading_]), and is unchanged if none was (the event is the
    connection of the pipe, and its byte count is ignored); [is_reading_]
    is set; and either the next read is issued or pending, the pipe is kept
    and no handle is closed, or the next read reports a broken pipe, and
    then the pipe is closed once and [pipe_] is null.  [Done] holds exactly
    when [pipe_] is null. *)
Theorem OnPipeReady_step (p p' : Subprocess) (os : os_OnPipeReady)
    (t : list os_call) :
  OnPipeReady p os = Ret (p', t) ->
  child_ p' = child_ p
  /\ use_override_status_ p' = use_override_status_ p
  /\ override_status_ p' = override_status_ p
  /\ Done p' = (pipe_ p' =? NULL)
  /\ (pr_GetOverlappedResult os = false ->
      pr_GetOverlappedResult_error os = ERROR_BROKEN_PIPE
      /\ buf_ p' = buf_ p
      /\ is_reading_ p' = is_reading_ p
      /\ pipe_ p' = NULL
      /\ t = [CloseHandle (pipe_ p)])
  /\ (pr_GetOverlappedResult os = true ->
      buf_ p' = (if is_reading_ p then buf_ p ++ pr_bytes os else buf_ p)
      /\ is_reading_ p' = true
      /\ ((pr_ReadFile os = true
           \/ pr_ReadFile_error os = ERROR_IO_PENDING
              /\ pr_ReadFile_error os <> ERROR_BROKEN_PIPE)
          /\ pipe_ p' = pipe_ p /\ t = []
          \/ pr_ReadFile os = false
             /\ pr_ReadFile_error os = ERROR_BROKEN_PIPE
             /\ pipe_ p' = NULL /\ t = [CloseHandle (pipe_ p)])).
Proof.
  unfold OnPipeReady.
  destruct (pr_GetOverlappedResult os) eqn:Hov; cbn [negb].
  - assert (Hbuf :
      buf_ (if is_reading_ p && negb (slen (pr_bytes os) =? 0)
            then set_buf p (buf_ p ++ pr_bytes os) else p)
      = (if is_reading_ p then buf_ p ++ pr_bytes os else buf_ p)).
    { destruct (is_reading_ p); cbn [andb]; [|reflexivity].
      destruct (slen (pr_bytes os) =? 0) eqn:E; cbn [negb]; [|reflexivity].
      apply Z.eqb_eq in E. unfold slen in E.
      destruct (pr_bytes os); [|cbn in E; lia].
      rewrite app_nil_r. reflexivity. }
    assert (Hsame : forall q : Subprocess,
      q = (if is_reading_ p && negb (slen (pr_bytes os) =? 0)
           then set_buf p (buf_ p ++ pr_bytes os) else p) ->
      child_ q = child_ p /\ use_override_status_ q = use_override_status_ p
      /\ override_status_ q = override_status_ p /\ pipe_ q = pipe_ p).
    { intros q ->.
      destruct (is_reading_ p && negb (slen (pr_bytes os) =? 0));
        split_and!; reflexivity. }
    destruct (Hsame _ eq_refl) as (Hc & Hu & Ho & Hp).
    destruct (pr_ReadFile os) eqn:Hrd; cbn [negb].
    + intros [= <- <-]. cbn.
      split_and!; try assumption; try reflexivity; [discriminate|].
      intros _. split_and!; [exact Hbuf|reflexivity|].
      left. split_and!; [left; reflexivity|exact Hp|reflexivity].
    + destruct (pr_ReadFile_error os =? ERROR_BROKEN_PIPE) eqn:Hbp.
      * apply Z.eqb_eq in Hbp. intros [= <- <-]. cbn.
        split_and!; try assumption; try reflexivity; [discriminate|].
        intros _. split_and!; [exact Hbuf|reflexivity|].
        right. split_and!; try reflexivity; [exact Hbp|].
        rewrite Hp. reflexivity.
      * destruct (pr_ReadFile_error os =? ERROR_IO_PENDING) eqn:Hpend;
          cbn [negb]; [|discriminate].
        apply Z.eqb_eq in Hpend. apply Z.eqb_neq in Hbp.
        intros [= <- <-]. cbn.
        split_and!; try assumption; try reflexivity; [discriminate|].
        intros _. split_and!; [exact Hbuf|reflexivity|].
        left. split_and!; [right; split; assumption|exact Hp|reflexivity].
  - destruct (pr_GetOverlappedResult_error os =? ERROR_BROKEN_PIPE) eqn:Hbp;
      [|discriminate].
    apply Z.eqb_eq in Hbp. intros [= <- <-].
    split_and!; try reflexivity; [|discriminate].
    intros _. split_and!; try reflexivity. exact Hbp.
Qed.

(** An instance: a read of the stream of the three jobs completes while the
    process holds the line "x" already, and the next read is pending. *)
Lemma OnPipeReady_step_witness :
  child_ (OnPipeReady_result reading_process (pipe_data stream_A_false_C))
  = child_ reading_process
  /\ use_override_status_
       (OnPipeReady_result reading_process (pipe_data stream_A_false_C))
     = use_override_status_ reading_process
  /\ override_status_
       (OnPipeReady_result reading_process (pipe_data stream_A_false_C))
     = override_status_ reading_process
  /\ Done (OnPipeReady_result reading_process (pipe_data stream_A_false_C))
     = (pipe_ (OnPipeReady_result reading_process (pipe_data stream_A_false_C))
        =? NULL)
  /\ (pr_GetOverlappedResult (pipe_data stream_A_false_C) = false ->
      pr_GetOverlappedResult_error (pipe_data stream_A_false_C)
      = ERROR_BROKEN_PIPE
      /\ buf_ (OnPipeReady_result reading_process (pipe_data stream_A_false_C))
         = buf_ reading_process
      /\ is_reading_
           (OnPipeReady_result reading_process (pipe_data stream_A_false_C))
         = is_reading_ reading_process
      /\ pipe_ (OnPipeReady_result reading_process (pipe_data stream_A_false_C))
         = NULL
      /\ [] = [CloseHandle (pipe_ reading_process)])
  /\ (pr_GetOverlappedResult (pipe_data stream_A_false_C) = true ->
      buf_ (OnPipeReady_result reading_process (pipe_data stream_A_false_C))
      = (if is_reading_ reading_process
         then buf_ reading_process ++ pr_bytes (pipe_data stream_A_false_C)
         else buf_ reading_process)
      /\ is_reading_
           (OnPipeReady_result reading_process (pipe_data stream_A_false_C))
         = true
      /\ ((pr_ReadFile (pipe_data stream_A_false_C) = true
           \/ pr_ReadFile_error (pipe_data stream_A_false_C)
              = ERROR_IO_PENDING
              /\ pr_ReadFile_error (pipe_data stream_A_false_C)
                 <> ERROR_BROKEN_PIPE)
          /\ pipe_ (OnPipeReady_result reading_process
                      (pipe_data stream_A_false_C))
             = pipe_ reading_process
          /\ @nil os_call = []
          \/ pr_ReadFile (pipe_data stream_A_false_C) = false
             /\ pr_ReadFile_error (pipe_data stream_A_false_C)
                = ERROR_BROKEN_PIPE
             /\ pipe_ (OnPipeReady_result reading_process
                         (pipe_data stream_A_false_C)) = NULL
             /\ [] = [CloseHandle (pipe_ reading_process)])).
Proof.
  apply (OnPipeReady_step reading_process
           (OnPipeReady_result reading_process (pipe_data stream_A_false_C))
           (pipe_data stream_A_false_C) []).
  reflexivity.
Defined.

Lemma OnPipeReady_all_reads (events : list os_OnPipeReady) :
  forall p,
    is_reading_ p = true ->
    forallb read_issued events = true ->
    OnPipeReady_all p events
    = Ret (set_buf p (buf_ p ++ concat (map pr_bytes events)), []).
Proof.
  induction events as [|e events IH]; intros p Hrd Hall.
  - cbn. rewrite app_nil_r. destruct p; reflexivity.
  - cbn [forallb] in Hall. apply andb_prop in Hall as [He Hall].
    unfold read_issued in He. apply andb_prop in He as [Hov Hnext].
    cbn [OnPipeReady_all]. unfold OnPipeReady at 1. rewrite Hov, Hrd.
    cbn [negb andb].
    set (p1 := set_is_reading
                 (if negb (slen (pr_bytes e) =? 0)
                  then set_buf p (buf_ p ++ pr_bytes e) else p) true).
    assert (Hp1 : p1 = set_buf p (buf_ p ++ pr_bytes e)).
    { unfold p1. destruct (slen (pr_bytes e) =? 0) eqn:E; cbn [negb].
      - apply Z.eqb_eq in E. unfold slen in E.
        destruct (pr_bytes e); [|cbn in E; lia].
        rewrite app_nil_r. destruct p; cbn in *; subst; reflexivity.
      - destruct p; cbn in *; subst; reflexivity. }
    assert (Hstep :
      (if negb (pr_ReadFile e)
       then
         if pr_ReadFile_error e =? ERROR_BROKEN_PIPE
         then Ret (set_pipe p1 NULL, [CloseHandle (pipe_ p1)])
         else if negb (pr_ReadFile_error e =? ERROR_IO_PENDING)
              then Fatal "ReadFile" else Ret (p1, [])
       else Ret (p1, [])) = Ret (p1, [])).
    { destruct (pr_ReadFile e); [reflexivity|]. cbn in Hnext |- *.
      apply Z.eqb_eq in Hnext. rewrite Hnext. reflexivity. }
    rewrite Hstep. cbn [mbind outcome_bind obind].
    rewrite IH; [|rewrite Hp1; exact Hrd|exact Hall].
    cbn [mbind outcome_bind obind app]. rewrite Hp1.
    cbn [map concat buf_ set_buf]. rewrite <- app_assoc.
    destruct p; reflexivity.
Qed.

(** X4: the capture of a process's output.  For a process that has not
    read yet, a first event (the connection of the pipe, whose byte count is
    ignored), then any number of completed reads, then a broken pipe: the
    calls of [OnPipeReady] return, the output is extended by exactly the
    bytes of the completed reads in order, the pipe is closed once at the
    end and [Done] holds; the process handle is untouched. *)
Theorem OnPipeReady_captures_reads (p : Subprocess)
    (connected : os_OnPipeReady) (reads : list os_OnPipeReady)
    (broken : os_OnPipeReady) :
  is_reading_ p = false ->
  read_issued connected = true ->
  forallb read_issued reads = true ->
  end_of_stream broken = true ->
  exists p',
    OnPipeReady_all p (connected :: reads ++ [broken])
    = Ret (p', [CloseHandle (pipe_ p)])
    /\ GetOutput p' = GetOutput p ++ concat (map pr_bytes reads)
    /\ Done p' = true
    /\ child_ p' = child_ p.
Proof.
  intros Hrd Hconn Hreads Hend.
  unfold read_issued in Hconn. apply andb_prop in Hconn as [Hov Hnext].
  unfold end_of_stream in Hend. apply andb_prop in Hend as [Hbov Hberr].
  apply negb_true_iff in Hbov.
  assert (Hfirst : OnPipeReady p connected = Ret (set_is_reading p true, [])).
  { unfold OnPipeReady. rewrite Hov, Hrd. cbn [negb andb].
    destruct (pr_ReadFile connected); [reflexivity|]. cbn in Hnext |- *.
    apply Z.eqb_eq in Hnext. rewrite Hnext. reflexivity. }
  assert (Hall : forall q events,
             OnPipeReady_all q (events ++ [broken])
             = ('(q1, t1) ← OnPipeReady_all q events;
                '(q2, t2) ← OnPipeReady q1 broken;
                Ret (q2, t1 ++ t2))).
  { intros q events. revert q.
    induction events as [|e events IH]; intros q; cbn [app OnPipeReady_all].
    - cbn [mbind outcome_bind obind].
      destruct (OnPipeReady q broken) as [[q2 t2]| | | |];
        cbn [mbind outcome_bind obind]; try reflexivity.
      rewrite app_nil_r. reflexivity.
    - destruct (OnPipeReady q e) as [[q1 t1]| | | |];
        cbn [mbind outcome_bind obind]; try reflexivity.
      rewrite IH.
      destruct (OnPipeReady_all q1 events) as [[q2 t2]| | | |];
        cbn [mbind outcome_bind obind]; try reflexivity.
      destruct (OnPipeReady q2 broken) as [[q3 t3]| | | |];
        cbn [mbind outcome_bind obind]; try reflexivity.
      rewrite app_assoc. reflexivity. }
  cbn [OnPipeReady_all]. rewrite Hfirst. cbn [mbind outcome_bind obind].
  rewrite Hall.
  rewrite OnPipeReady_all_reads; [|reflexivity|exact Hreads].
  cbn [mbind outcome_bind obind].
  unfold OnPipeReady. rewrite Hbov, Hberr. cbn [negb mbind outcome_bind obind].
  eexists. split; [reflexivity|].
  split_and!; reflexivity.
Qed.

(** An instance: the stream of the three jobs arrives in one read. *)
Lemma OnPipeReady_captures_reads_witness :
  exists p',
    OnPipeReady_all (set_pipe Subprocess_new 100)
      (pipe_pending :: [pipe_data stream_A_false_C] ++ [pipe_broken])
    = Ret (p', [CloseHandle (pipe_ (set_pipe Subprocess_new 100))])
    /\ GetOutput p'
       = GetOutput (set_pipe Subprocess_new 100)
         ++ concat (map pr_bytes [pipe_data stream_A_false_C])
    /\ Done p' = true
    /\ child_ p' = child_ (set_pipe Subprocess_new 100).
Proof.
  apply (OnPipeReady_captures_reads (set_pipe Subprocess_new 100)
           pipe_pending [pipe_data stream_A_false_C] pipe_broken).
  - reflexivity.
  - reflexivity.
  - reflexivity.
  - reflexivity.
Defined.

(** ** SubprocessSet::NextFinished *)

(** X5: the finished queue is drained in order.  [n] calls of
    [NextFinished] return the first [n] entries of the queue, oldest first,
    then nothing for the calls beyond its length; the entries returned
    leave the queue and nothing else changes. *)
Theorem NextFinished_drains_in_order (n : nat) :
  forall s,
    NextFinished_n n s
    = (map Some (take n (finished_ s))
       ++ replicate (n - length (finished_ s)) None,
       set_finished s (drop n (finished_ s))).
Proof.
  induction n as [|n IH]; intros s.
  - cbn. destruct s; reflexivity.
  - cbn [NextFinished_n]. unfold NextFinished.
    destruct (finished_ s) as [|x rest] eqn:E.
    + rewrite IH, E. cbn. rewrite drop_nil, take_nil. cbn.
      rewrite Nat.sub_0_r. destruct s; cbn in *; subst; reflexivity.
    + rewrite IH. cbn. reflexivity.
Qed.

(** ** SubprocessSet::Add *)

Lemma Add_handle s command os h s' t :
  Add s command os = Ret (h, s', t) ->
  h = Some (next_ptr s) /\ next_ptr s' = S (next_ptr s).
Proof.
  unfold Add. cbn [alloc batch_mode_].
  destruct (batch_mode_ s); [intros [= <- <- _]; split; reflexivity|].
  destruct (Start Subprocess_new command (ad_start os))
    as [[[ok p1] t1]| | | |] eqn:Hstart;
    cbn [mbind outcome_bind obind]; try discriminate.
  apply Start_returns_true in Hstart. cbn in Hstart. subst ok. cbn [negb].
  destruct (negb (child_ p1 =? NULL)); intros [= <- <- _]; split; reflexivity.
Qed.

(** X6: whenever [Add] returns, the handle is not null: it is the address
    of a new object, which is live afterwards.  In batch mode the job is
    queued at the end of the pending list with no system call at all and
    the object is as constructed; otherwise the process was started, and
    the handle is at the end of [running_] when a process handle was
    recorded and at the end of [finished_] when not.  The other
    collections and the active batch are untouched. *)
Theorem Add_outcomes (s s' : SubprocessSet) (command : str) (os : os_Add)
    (h : option nat) (t : list os_call) :
  Add s command os = Ret (h, s', t) ->
  h = Some (next_ptr s)
  /\ next_ptr s' = S (next_ptr s)
  /\ batch_process_ s' = batch_process_ s
  /\ (forall a, a <> next_ptr s -> heap s' !! a = heap s !! a)
  /\ ((batch_mode_ s = true
       /\ t = []
       /\ procs_to_batch_ s' = procs_to_batch_ s ++ [(next_ptr s, command)]
       /\ running_ s' = running_ s
       /\ finished_ s' = finished_ s
       /\ heap s' !! next_ptr s = Some (OSubprocess Subprocess_new))
      \/ (batch_mode_ s = false
          /\ procs_to_batch_ s' = procs_to_batch_ s
          /\ exists p1,
               Start Subprocess_new command (ad_start os) = Ret (true, p1, t)
               /\ heap s' !! next_ptr s = Some (OSubprocess p1)
               /\ (child_ p1 <> NULL
                   /\ running_ s' = running_ s ++ [next_ptr s]
                   /\ finished_ s' = finished_ s
                   \/ child_ p1 = NULL
                      /\ running_ s' = running_ s
                      /\ finished_ s' = finished_ s ++ [next_ptr s]))).
Proof.
  unfold Add. cbn [alloc batch_mode_].
  destruct (batch_mode_ s).
  - intros [= <- <- <-]. cbn.
    split_and!; try reflexivity.
    + intros a Ha. apply lookup_insert_ne. congruence.
    + left. split_and!; try reflexivity. apply lookup_insert_eq.
  - destruct (Start Subprocess_new command (ad_start os))
      as [[[ok p1] t1]| | | |] eqn:Hstart;
      cbn [mbind outcome_bind obind]; try discriminate.
    pose proof (Start_returns_true _ _ _ _ Hstart) as Hok.
    cbn in Hok. subst ok. cbn [negb].
    destruct (child_ p1 =? NULL) eqn:E; cbn [negb];
      intros [= <- <- <-]; cbn;
      (split_and!; try reflexivity;
       [intros a Ha; rewrite !lookup_insert_ne by congruence; reflexivity|]);
      right; (split_and!; try reflexivity); exists p1;
      (split_and!; [reflexivity|apply lookup_insert_eq|]).
    + right. apply Z.eqb_eq in E. split_and!; [exact E|reflexivity..].
    + left. apply Z.eqb_neq in E. split_and!; [exact E|reflexivity..].
Qed.

(** An instance: a command that is not found, outside batch mode. *)
Lemma Add_outcomes_witness :
  Some 0%nat = Some (next_ptr new_set)
  /\ next_ptr not_found_ready = S (next_ptr new_set)
  /\ batch_process_ not_found_ready = batch_process_ new_set
  /\ (forall a, a <> next_ptr new_set ->
        heap not_found_ready !! a = heap new_set !! a)
  /\ ((batch_mode_ new_set = true
       /\ calls_of (Add new_set (lit "no-such-tool.exe")
                        add_not_found) = []
       /\ procs_to_batch_ not_found_ready
          = procs_to_batch_ new_set
            ++ [(next_ptr new_set, lit "no-such-tool.exe")]
       /\ running_ not_found_ready = running_ new_set
       /\ finished_ not_found_ready = finished_ new_set
       /\ heap not_found_ready !! next_ptr new_set
          = Some (OSubprocess Subprocess_new))
      \/ (batch_mode_ new_set = false
          /\ procs_to_batch_ not_found_ready
             = procs_to_batch_ new_set
          /\ exists p1,
               Start Subprocess_new (lit "no-such-tool.exe")
                     (ad_start add_not_found)
               = Ret (true, p1,
                      calls_of (Add new_set (lit "no-such-tool.exe")
                                    add_not_found))
               /\ heap not_found_ready !! next_ptr new_set
                  = Some (OSubprocess p1)
               /\ (child_ p1 <> NULL
                   /\ running_ not_found_ready
                      = running_ new_set
                        ++ [next_ptr new_set]
                   /\ finished_ not_found_ready
                      = finished_ new_set
                   \/ child_ p1 = NULL
                      /\ running_ not_found_ready
                         = running_ new_set
                      /\ finished_ not_found_ready
                         = finished_ new_set
                           ++ [next_ptr new_set]))).
Proof.
  apply (Add_outcomes new_set not_found_ready
           (lit "no-such-tool.exe") add_not_found (Some 0%nat)
           (calls_of (Add new_set (lit "no-such-tool.exe")
                          add_not_found))).
  vm_compute. reflexivity.
Defined.

(** ** SubprocessSet::DoWork *)

Lemma remove_all_same x l :
  x ∉ l -> remove_all x l = l.
Proof.
  unfold remove_all. induction l as [|y l IH]; intros Hx; [reflexivity|].
  rewrite filter_cons. destruct (decide (y <> x)) as [Hne|Heq].
  - f_equal. apply IH. intros Hin. apply Hx. right. exact Hin.
  - exfalso. apply Hx. destruct (decide (y = x)) as [->|Hn]; [left|].
    contradiction.
Qed.

Lemma remove_all_shorter x l :
  x ∈ l -> length (remove_all x l) <> length l.
Proof.
  unfold remove_all. intros Hx.
  assert (Hle : forall k : list nat,
             (length (filter (fun y => y <> x) k) <= length k)%nat).
  { induction k as [|y k IH]; [cbn; lia|].
    rewrite filter_cons. destruct (decide (y <> x)); cbn; lia. }
  induction l as [|y l IH]; [inversion Hx|].
  rewrite filter_cons. destruct (decide (y <> x)) as [Hne|Heq].
  - cbn. apply elem_of_cons in Hx as [->|Hx]; [contradiction|].
    specialize (IH Hx). lia.
  - cbn. specialize (Hle l). lia.
Qed.

(** X7: an event for a process other than the active batch.  [DoWork]
    returns [false] and stores what [OnPipeReady] made of the process.  If
    the pipe is then done and the process is in [running_], it leaves
    [running_] and is appended to [finished_]; if it is done but not in
    [running_] (a late event for a process already finished), or if it is
    not done yet, the collections stay as they were. *)
Theorem DoWork_wait_ordinary_process (fuel : nat) (s : SubprocessSet)
    (os : os_DoWork) (subproc : nat) (o : object) (p1 : Subprocess)
    (t1 : list os_call) :
  dw_GetQueuedCompletionStatus os = true
  \/ dw_GetQueuedCompletionStatus_error os = ERROR_BROKEN_PIPE ->
  dw_subproc os = Some subproc ->
  heap s !! subproc = Some o ->
  batch_process_ s <> Some subproc ->
  OnPipeReady (base_of o) (dw_pipe os) = Ret (p1, t1) ->
  exists s',
    DoWork_wait fuel s os = Ret (false, s', t1)
    /\ heap s' = <[ subproc := with_base o p1 ]> (heap s)
    /\ procs_to_batch_ s' = procs_to_batch_ s
    /\ batch_process_ s' = batch_process_ s
    /\ (Done p1 = true -> subproc ∈ running_ s ->
        running_ s' = remove_all subproc (running_ s)
        /\ finished_ s' = finished_ s ++ [subproc])
    /\ (Done p1 = false \/ subproc ∉ running_ s ->
        running_ s' = running_ s /\ finished_ s' = finished_ s).
Proof.
  intros Hok Hkey Ho Hnb Hpipe. unfold DoWork_wait.
  assert (Hf : negb (dw_GetQueuedCompletionStatus os)
               && negb (dw_GetQueuedCompletionStatus_error os
                        =? ERROR_BROKEN_PIPE) = false).
  { destruct Hok as [->| ->]; [reflexivity|].
    rewrite Z.eqb_refl. apply andb_false_r. }
  rewrite Hf, Hkey, (deref_live _ _ _ Ho). cbn [mbind outcome_bind obind].
  rewrite Hpipe. cbn [mbind outcome_bind obind].
  change (batch_process_ (store s subproc (with_base o p1)))
    with (batch_process_ s).
  change (running_ (store s subproc (with_base o p1))) with (running_ s).
  destruct (Done p1) eqn:Hdone.
  - destruct (decide (batch_process_ s = Some subproc)); [contradiction|].
    destruct (decide (length (remove_all subproc (running_ s))
                      = length (running_ s))) as [Hsame|Hless].
    + eexists. split; [reflexivity|]. cbn.
      assert (Hnin : subproc ∉ running_ s).
      { intros Hin. apply remove_all_shorter in Hin. contradiction. }
      split_and!; try reflexivity.
      * intros _ Hin. contradiction.
      * intros _. split; reflexivity.
    + eexists. split; [reflexivity|]. cbn.
      pose proof (remove_all_changed _ _ Hless) as Hin.
      split_and!; try reflexivity.
      * intros _ _. split; reflexivity.
      * intros [Hd|Hnin]; [discriminate|contradiction].
  - eexists. split; [reflexivity|]. cbn.
    split_and!; try reflexivity.
    + intros Hd. discriminate.
    + intros _. split; reflexivity.
Qed.

(** An instance: the pipe of the only running process breaks. *)
Lemma DoWork_wait_ordinary_process_witness :
  exists s',
    DoWork_wait 0 one_running (event_for 0 pipe_broken 0)
    = Ret (false, s', [CloseHandle 100])
    /\ heap s'
       = <[ 0%nat := with_base (object_at one_running 0)
                       (set_pipe (base_of (object_at one_running 0)) NULL) ]>
           (heap one_running)
    /\ procs_to_batch_ s' = procs_to_batch_ one_running
    /\ batch_process_ s' = batch_process_ one_running
    /\ (Done (set_pipe (base_of (object_at one_running 0)) NULL) = true ->
        0%nat ∈ running_ one_running ->
        running_ s' = remove_all 0%nat (running_ one_running)
        /\ finished_ s' = finished_ one_running ++ [0%nat])
    /\ (Done (set_pipe (base_of (object_at one_running 0)) NULL) = false
        \/ 0%nat ∉ running_ one_running ->
        running_ s' = running_ one_running
        /\ finished_ s' = finished_ one_running).
Proof.
  apply (DoWork_wait_ordinary_process 0 one_running
           (event_for 0 pipe_broken 0) 0 (object_at one_running 0)
           (set_pipe (base_of (object_at one_running 0)) NULL)
           [CloseHandle 100]).
  - left. reflexivity.
  - reflexivity.
  - vm_compute. reflexivity.
  - vm_compute. discriminate.
  - vm_compute. reflexivity.
Defined.

Lemma DoWork_flush_frame fuel s os returned s1 t0 :
  DoWork_flush fuel s os = Ret (returned, s1, t0) ->
  returned = false
  /\ procs_to_batch_ s1 = []
  /\ finished_ s1 = finished_ s
  /\ batch_mode_ s1 = batch_mode_ s
  /\ batch_command_ s1 = batch_command_ s
  /\ (next_ptr s <= next_ptr s1 <= S (next_ptr s))%nat
  /\ (forall a, a ∈ running_ s1 -> a ∈ running_ s \/ a = next_ptr s).
Proof.
  unfold DoWork_flush.
  destruct (procs_to_batch_ s) as [|sp rest] eqn:E; cbn [length Nat.eqb negb].
  - intros [= <- <- _]. rewrite E. split_and!; try reflexivity; try lia; auto.
  - destruct (BatchSubprocess_new _ _ _) as [[b t0']| | | |];
      cbn [mbind outcome_bind obind]; try discriminate.
    cbn [alloc].
    destruct (Start _ _ _) as [[[ok p1] t1]| | | |] eqn:Hstart;
      cbn [mbind outcome_bind obind]; try discriminate.
    apply Start_returns_true in Hstart. cbn in Hstart. subst ok. cbn [negb].
    destruct (negb (child_ p1 =? NULL)); intros [= <- <- _]; cbn;
      (split_and!; try reflexivity; try lia);
      intros a Ha; [|left; exact Ha].
    apply elem_of_app in Ha as [Ha|Ha]; [left; exact Ha|].
    apply list_elem_of_singleton in Ha. right. exact Ha.
Qed.

Lemma redistribute_policy fuel :
  forall children child err succ jo s s',
    redistribute fuel children child err succ jo s = Ret s' ->
    batch_mode_ s' = batch_mode_ s /\ batch_command_ s' = batch_command_ s.
Proof.
  induction fuel as [|fuel IH]; intros children child err succ jo s s' H;
    cbn [redistribute] in H;
    destruct (child <? Z.of_nat (length children));
    try discriminate;
    try (injection H as <-; split; reflexivity).
  destruct (children !! Z.to_nat child) as [c|]; [|discriminate].
  destruct (deref s c) as [o| | | |]; cbn [mbind outcome_bind obind] in H;
    try discriminate.
  apply IH in H. exact H.
Qed.

Lemma DoWork_wait_frame fuel s os stop s' t :
  DoWork_wait fuel s os = Ret (stop, s', t) ->
  procs_to_batch_ s' = procs_to_batch_ s
  /\ batch_mode_ s' = batch_mode_ s
  /\ batch_command_ s' = batch_command_ s
  /\ next_ptr s' = next_ptr s
  /\ (exists added, finished_ s' = finished_ s ++ added)
  /\ (forall a, a ∈ running_ s' -> a ∈ running_ s)
  /\ (dw_subproc os = None -> stop = true /\ s' = s).
Proof.
  unfold DoWork_wait.
  destruct (negb _ && negb _); [discriminate|].
  destruct (dw_subproc os) as [subproc|].
  2:{ intros [= <- <- _]. split_and!; try reflexivity; auto.
      exists []. rewrite app_nil_r. reflexivity. }
  destruct (deref s subproc) as [o| | | |];
    cbn [mbind outcome_bind obind]; try discriminate.
  destruct (OnPipeReady (base_of o) (dw_pipe os)) as [[p1 t1]| | | |];
    cbn [mbind outcome_bind obind]; try discriminate.
  assert (Hfrom_filter : forall a l, a ∈ remove_all subproc l -> a ∈ l).
  { intros a l Ha. unfold remove_all in Ha.
    apply list_elem_of_filter in Ha as [_ Ha]. exact Ha. }
  destruct (Done p1).
  2:{ intros [= <- <- _]. cbn. split_and!; try reflexivity; auto;
        [|discriminate].
      exists []. rewrite app_nil_r. reflexivity. }
  destruct (decide _) as [Hb|Hb].
  - destruct o as [p|b]; [discriminate|].
    destruct (Finish p1 _) as [[err p2] t2].
    destruct (ParseOutput _ _ _ _) as [parsed| | | |];
      cbn [mbind outcome_bind obind]; try discriminate.
    destruct (redistribute _ _ _ _ _ _ _) as [s3| | | |] eqn:Hred;
      cbn [mbind outcome_bind obind]; try discriminate.
    pose proof Hred as Hpol.
    apply redistribute_lists in Hred; [|split; [lia|reflexivity]|lia].
    destruct Hred as (Hf & Hr & Hp & _ & Hn).
    cbn [store set_heap with_base finished_ running_ procs_to_batch_
         next_ptr] in Hf, Hr, Hp, Hn.
    apply redistribute_policy in Hpol as [Hm Hc].
    cbn [store set_heap batch_mode_ batch_command_] in Hm, Hc.
    destruct (deref _ subproc) as [[p|b3]| | | |];
      cbn [mbind outcome_bind obind]; try discriminate.
    destruct (BatchSubprocess_delete _ _ _) as [t3| | | |];
      cbn [mbind outcome_bind obind]; try discriminate.
    intros [= <- <- _]. cbn. rewrite Hf, Hr, Hp, Hn, Hm, Hc.
    split_and!; try reflexivity; try discriminate.
    + eexists. reflexivity.
    + intros a Ha. eapply Hfrom_filter, Ha.
  - destruct (decide _); intros [= <- <- _]; cbn;
      (split_and!; try reflexivity; auto; [|discriminate]).
    + exists []. rewrite app_nil_r. reflexivity.
    + exists [subproc]. reflexivity.
Qed.

Lemma DoWork_frame fuel s os stop s' t :
  DoWork fuel s os = Ret (stop, s', t) ->
  procs_to_batch_ s' = []
  /\ batch_mode_ s' = batch_mode_ s
  /\ batch_command_ s' = batch_command_ s
  /\ (next_ptr s <= next_ptr s' <= S (next_ptr s))%nat
  /\ (exists added, finished_ s' = finished_ s ++ added)
  /\ (forall a, a ∈ running_ s' -> a ∈ running_ s \/ a = next_ptr s)
  /\ (dw_subproc os = None -> stop = true /\ finished_ s' = finished_ s).
Proof.
  unfold DoWork.
  destruct (DoWork_flush fuel s os) as [[[returned s1] t0]| | | |] eqn:Hflush;
    cbn [mbind outcome_bind obind]; try discriminate.
  apply DoWork_flush_frame in Hflush
    as (-> & Hp & Hf & Hm & Hc & Hn & Hr).
  destruct (DoWork_wait fuel s1 os) as [[[stop' s2] t1]| | | |] eqn:Hwait;
    cbn [mbind outcome_bind obind]; try discriminate.
  apply DoWork_wait_frame in Hwait
    as (Hp' & Hm' & Hc' & Hn' & [added Hf'] & Hr' & Hnull).
  intros [= <- <- _].
  split_and!.
  - congruence.
  - congruence.
  - congruence.
  - lia.
  - lia.
  - exists added. congruence.
  - intros a Ha. apply Hr, Hr', Ha.
  - intros Hkey. destruct (Hnull Hkey) as [Hs Hs2]. split; congruence.
Qed.

(** X8: whenever [DoWork] returns, nothing is pending any more; the
    finished queue has only grown at its end; [running_] has gained at most
    the batch just created (at the address that was next); the batch policy
    is untouched; and the result is [true] exactly when the event had a
    null key, in which case the finished queue is as it was. *)
Theorem DoWork_effects (fuel : nat) (s s' : SubprocessSet) (os : os_DoWork)
    (stop : bool) (t : list os_call) :
  DoWork fuel s os = Ret (stop, s', t) ->
  procs_to_batch_ s' = []
  /\ (exists added, finished_ s' = finished_ s ++ added)
  /\ (forall a, a ∈ running_ s' -> a ∈ running_ s \/ a = next_ptr s)
  /\ batch_mode_ s' = batch_mode_ s
  /\ batch_command_ s' = batch_command_ s
  /\ (stop = true <-> dw_subproc os = None)
  /\ (dw_subproc os = None -> finished_ s' = finished_ s).
Proof.
  intros H. pose proof (DoWork_frame _ _ _ _ _ _ H)
    as (Hp & Hm & Hc & Hn & Hf & Hr & Hnull).
  split_and!; try assumption.
  - split.
    + intros ->. eapply DoWork_true_only_interrupted, H.
    + intros Hkey. apply Hnull, Hkey.
  - intros Hkey. apply Hnull, Hkey.
Qed.

(** An instance: the queued job becomes a batch and the interrupt
    arrives. *)
Lemma DoWork_effects_witness :
  procs_to_batch_ batch_flushed = []
  /\ (exists added,
        finished_ batch_flushed = finished_ one_running_one_queued ++ added)
  /\ (forall a, a ∈ running_ batch_flushed ->
        a ∈ running_ one_running_one_queued
        \/ a = next_ptr one_running_one_queued)
  /\ batch_mode_ batch_flushed = batch_mode_ one_running_one_queued
  /\ batch_command_ batch_flushed = batch_command_ one_running_one_queued
  /\ (true = true <-> dw_subproc interrupt_event = None)
  /\ (dw_subproc interrupt_event = None ->
      finished_ batch_flushed = finished_ one_running_one_queued).
Proof.
  apply (DoWork_effects 1 one_running_one_queued batch_flushed
           interrupt_event true batch_flushed_calls).
  vm_compute. reflexivity.
Defined.

(** ** SubprocessSet::SetBatchMode *)

(** X10: [SetBatchMode] and the next [Add].  Batching is on afterwards only
    if it was asked for and [dbsrun.exe] was found on the path; asking for
    it without the runner leaves it off without any report.  When it is on,
    the runner's command prefix names the user ("Unknown" when USERNAME is
    not set) and the next [Add] always returns: it queues the job and makes
    no system call.  When it is off, the prefix is kept and a returning
    [Add] has queued nothing.  The collections are never touched. *)
Theorem SetBatchMode_then_Add (s : SubprocessSet) (b : bool)
    (os : os_SetBatchMode) (command : str) (os_add : os_Add) :
  let s1 := SetBatchMode s b os in
  batch_mode_ s1 = b && negb (bm_SearchPath os =? 0)
  /\ tracked s1 = tracked s
  /\ heap s1 = heap s
  /\ (batch_mode_ s1 = true ->
      batch_command_ s1
      = lit "dbsrun dbsbuild -k -p "
        ++ (if bm_userSize os =? 0 then lit "Unknown" else bm_userName os)
        ++ lit " -s "
      /\ exists s2,
           Add s1 command os_add = Ret (Some (next_ptr s), s2, [])
           /\ procs_to_batch_ s2
              = procs_to_batch_ s ++ [(next_ptr s, command)]
           /\ running_ s2 = running_ s
           /\ finished_ s2 = finished_ s)
  /\ (batch_mode_ s1 = false ->
      batch_command_ s1 = batch_command_ s
      /\ forall h s2 t,
           Add s1 command os_add = Ret (h, s2, t) ->
           procs_to_batch_ s2 = procs_to_batch_ s).
Proof.
  cbn zeta. unfold SetBatchMode.
  destruct b; [destruct (bm_SearchPath os =? 0)|]; cbn [andb negb].
  - split_and!; try reflexivity; [discriminate|].
    intros _. split; [reflexivity|]. intros h s2 t Hadd.
    unfold Add in Hadd. cbn [alloc batch_mode_ set_batch_policy] in Hadd.
    destruct (Start _ _ _) as [[[ok p1] t1]| | | |];
      cbn [mbind outcome_bind obind] in Hadd; try discriminate.
    destruct ok; cbn [negb] in Hadd.
    + destruct (negb (child_ p1 =? NULL)); injection Hadd as _ <- _;
        reflexivity.
    + destruct (Subprocess_delete _ _ _) as [t2| | | |];
        cbn [mbind outcome_bind obind] in Hadd; try discriminate.
      injection Hadd as _ <- _. reflexivity.
  - split_and!; try reflexivity; [|discriminate].
    intros _. split.
    + destruct (bm_userSize os =? 0); reflexivity.
    + eexists. split; [reflexivity|]. split_and!; reflexivity.
  - split_and!; try reflexivity; [discriminate|].
    intros _. split; [reflexivity|]. intros h s2 t Hadd.
    unfold Add in Hadd. cbn [alloc batch_mode_ set_batch_policy] in Hadd.
    destruct (Start _ _ _) as [[[ok p1] t1]| | | |];
      cbn [mbind outcome_bind obind] in Hadd; try discriminate.
    destruct ok; cbn [negb] in Hadd.
    + destruct (negb (child_ p1 =? NULL)); injection Hadd as _ <- _;
        reflexivity.
    + destruct (Subprocess_delete _ _ _) as [t2| | | |];
        cbn [mbind outcome_bind obind] in Hadd; try discriminate.
      injection Hadd as _ <- _. reflexivity.
Qed.

(** ** BatchSubprocess::BatchSubprocess *)

(** X11: whenever the constructor of a batch returns, it has one child
    record per queued job, the handles in enqueue order, so the job id in
    the script is the position of the handle among the children; the jobs
    are fewer than [2^32] (with more, the [uint32_t] counter wraps and the
    loop never ends); the base process is as constructed; and the script has
    been written, once, to the temporary file that [GetCommand] returns,
    which is not the empty name. *)
Theorem BatchSubprocess_new_returns (fuel : nat) (batch_procs : list SubProc)
    (os : os_GetTempFileName) (b : BatchSubprocess) (t : list os_call) :
  BatchSubprocess_new fuel batch_procs os = Ret (b, t) ->
  GetChildren b = map fst batch_procs
  /\ Z.of_nat (length batch_procs) < uint32_modulus
  /\ base b = Subprocess_new
  /\ GetCommand b = GetTempFileName os
  /\ GetCommand b <> []
  /\ exists script_contents, t = [WriteFile (GetCommand b) script_contents].
Proof.
  unfold BatchSubprocess_new.
  destruct (slen (GetTempFileName os) =? 0) eqn:E; [discriminate|].
  destruct (script_loop fuel batch_procs 0 [] []) as [[sc ch]| | | |] eqn:Hloop;
    cbn [mbind outcome_bind obind]; try discriminate.
  intros [= <- <-]. cbn.
  split_and!; try reflexivity.
  - apply script_loop_children in Hloop; [exact Hloop| |lia].
    split; [lia|reflexivity].
  - destruct (decide (Z.of_nat (length batch_procs) < uint32_modulus))
      as [|Hbig]; [assumption|].
    exfalso. eapply (script_loop_no_return fuel batch_procs);
      [lia| |exact Hloop].
    split; [lia|reflexivity].
  - intros Hnil. rewrite Hnil in E. discriminate.
  - eexists. reflexivity.
Qed.

(** An instance: the three jobs. *)
Lemma BatchSubprocess_new_returns_witness :
  GetChildren (mkBatch Subprocess_new (GetTempFileName temp_ok)
                       (map fst jobs_A_false_C))
  = map fst jobs_A_false_C
  /\ Z.of_nat (length jobs_A_false_C) < uint32_modulus
  /\ base (mkBatch Subprocess_new (GetTempFileName temp_ok)
                   (map fst jobs_A_false_C)) = Subprocess_new
  /\ GetCommand (mkBatch Subprocess_new (GetTempFileName temp_ok)
                         (map fst jobs_A_false_C))
     = GetTempFileName temp_ok
  /\ GetCommand (mkBatch Subprocess_new (GetTempFileName temp_ok)
                         (map fst jobs_A_false_C)) <> []
  /\ exists script_contents,
       [WriteFile (GetTempFileName temp_ok)
                  (script_text (map snd jobs_A_false_C))]
       = [WriteFile (GetCommand (mkBatch Subprocess_new
                                         (GetTempFileName temp_ok)
                                         (map fst jobs_A_false_C)))
                    script_contents].
Proof.
  apply (BatchSubprocess_new_returns 3 jobs_A_false_C temp_ok
           (mkBatch Subprocess_new (GetTempFileName temp_ok)
                    (map fst jobs_A_false_C))
           [WriteFile (GetTempFileName temp_ok)
                      (script_text (map snd jobs_A_false_C))]).
  vm_compute. reflexivity.
Defined.

(** X12: from [Add] to the started batch.  With jobs pending (at most
    [2^31]), a temporary file name at hand, the pipe set up and the process
    created, the part of [DoWork] before the wait writes the script of the
    pending commands in the order they were added, then starts a process on
    the command line [batch_command_] followed by the name of the script
    file, and records the new batch as active and running; its child number
    [i] is the handle of the [i]-th pending job, and nothing is pending
    afterwards. *)
Theorem DoWork_flush_starts_batch (fuel : nat) (s : SubprocessSet)
    (os : os_DoWork) (child_pipe : HANDLE) (q : Subprocess)
    (tq : list os_call) (hProcess hThread : HANDLE) :
  procs_to_batch_ s <> [] ->
  Z.of_nat (length (procs_to_batch_ s)) <= INT_MAX + 1 ->
  (length (procs_to_batch_ s) <= fuel)%nat ->
  GetTempFileName (dw_temp os) <> [] ->
  SetupPipe Subprocess_new (st_setup (dw_start os))
  = Ret (child_pipe, q, tq) ->
  st_nul (dw_start os) <> INVALID_HANDLE_VALUE ->
  st_CreateProcess (dw_start os) = Created hProcess hThread ->
  hProcess <> NULL ->
  exists s',
    DoWork_flush fuel s os
    = Ret (false, s',
           WriteFile (GetTempFileName (dw_temp os))
                     (script_text (map snd (procs_to_batch_ s)))
           :: tq
           ++ CreateProcess (batch_command_ s
                             ++ GetTempFileName (dw_temp os))
           :: close_if_set child_pipe
           ++ [CloseHandle (st_nul (dw_start os)); CloseHandle hThread])
    /\ batch_process_ s' = Some (next_ptr s)
    /\ running_ s' = running_ s ++ [next_ptr s]
    /\ finished_ s' = finished_ s
    /\ procs_to_batch_ s' = []
    /\ active_children s' = map fst (procs_to_batch_ s)
    /\ forall i sp, procs_to_batch_ s !! i = Some sp ->
         active_children s' !! i = Some sp.1.
Proof.
  intros Hne Hmax Hfuel Htemp Hsetup Hnul Hcreate Hchild.
  pose proof (script_loop_from (procs_to_batch_ s) fuel [] [] [] Hmax Hfuel)
    as Hloop.
  change (Z.of_nat (length (@nil SubProc))) with 0 in Hloop.
  change ([] ++ procs_to_batch_ s) with (procs_to_batch_ s) in Hloop.
  cbn [app length Nat.add] in Hloop.
  unfold DoWork_flush.
  destruct (procs_to_batch_ s) as [|sp0 rest] eqn:E; [contradiction|].
  cbn [length Nat.eqb negb]. unfold BatchSubprocess_new.
  destruct (slen (GetTempFileName (dw_temp os)) =? 0) eqn:Elen.
  { exfalso. apply Htemp. apply Z.eqb_eq in Elen. unfold slen in Elen.
    destruct (GetTempFileName (dw_temp os)); [reflexivity|cbn in Elen; lia]. }
  rewrite Hloop. cbn [mbind outcome_bind obind alloc base GetCommand
                       script_filename_ batch_command_ set_batch_process].
  unfold Start. rewrite Hsetup. cbn [mbind outcome_bind obind].
  destruct (st_nul (dw_start os) =? INVALID_HANDLE_VALUE) eqn:Enul;
    [apply Z.eqb_eq in Enul; contradiction|].
  rewrite Hcreate. cbn [mbind outcome_bind obind negb set_child child_].
  assert (Ec : (hProcess =? NULL) = false) by (apply Z.eqb_neq; exact Hchild).
  rewrite Ec. cbn [negb].
  eexists. split; [reflexivity|].
  assert (Hac : forall s2 b2,
             batch_process_ s2 = Some (next_ptr s) ->
             heap s2 !! next_ptr s = Some (OBatch b2) ->
             GetChildren b2 = map fst (sp0 :: rest) ->
             active_children s2 = map fst (sp0 :: rest)).
  { intros s2 b2 Hb Hh Hc. unfold active_children. rewrite Hb, Hh. exact Hc. }
  split_and!; try reflexivity.
  - eapply Hac; [reflexivity|cbn; apply lookup_insert_eq|reflexivity].
  - intros i sp Hi.
    erewrite Hac; [|reflexivity|cbn; apply lookup_insert_eq|reflexivity].
    rewrite list_lookup_fmap, Hi. reflexivity.
Qed.

(** An instance: the queued job of the two-process set becomes a batch. *)
Lemma DoWork_flush_starts_batch_witness :
  exists s',
    DoWork_flush 1 one_running_one_queued interrupt_event
    = Ret (false, s',
           WriteFile (GetTempFileName (dw_temp interrupt_event))
                     (script_text
                        (map snd (procs_to_batch_ one_running_one_queued)))
           :: [CloseHandle 101]
           ++ CreateProcess (batch_command_ one_running_one_queued
                             ++ GetTempFileName (dw_temp interrupt_event))
           :: close_if_set 102
           ++ [CloseHandle (st_nul (dw_start interrupt_event));
               CloseHandle 201])
    /\ batch_process_ s' = Some (next_ptr one_running_one_queued)
    /\ running_ s'
       = running_ one_running_one_queued ++ [next_ptr one_running_one_queued]
    /\ finished_ s' = finished_ one_running_one_queued
    /\ procs_to_batch_ s' = []
    /\ active_children s' = map fst (procs_to_batch_ one_running_one_queued)
    /\ forall i sp, procs_to_batch_ one_running_one_queued !! i = Some sp ->
         active_children s' !! i = Some sp.1.
Proof.
  apply (DoWork_flush_starts_batch 1 one_running_one_queued interrupt_event
           102 (set_pipe Subprocess_new 100) [CloseHandle 101] 200 201).
  - vm_compute. discriminate.
  - vm_compute. discriminate.
  - vm_compute. lia.
  - vm_compute. discriminate.
  - vm_compute. reflexivity.
  - vm_compute. discriminate.
  - reflexivity.
  - vm_compute. discriminate.
Defined.

(** ** SubprocessSet::Clear *)

Lemma Clear_delete_effects v os (running : list nat) :
  forall s s1 t,
    Clear_delete v s os running = Ret (s1, t) ->
    NoDup running
    /\ (forall a, a ∈ running -> is_Some (heap s !! a))
    /\ (forall a, a ∈ running -> heap s1 !! a = None)
    /\ (forall a, a ∉ running -> heap s1 !! a = heap s !! a)
    /\ running_ s1 = running_ s
    /\ finished_ s1 = finished_ s
    /\ procs_to_batch_ s1 = procs_to_batch_ s
    /\ batch_process_ s1 = batch_process_ s
    /\ batch_mode_ s1 = batch_mode_ s
    /\ batch_command_ s1 = batch_command_ s
    /\ next_ptr s1 = next_ptr s.
Proof.
  induction running as [|i rest IH]; intros s s1 t H; cbn [Clear_delete] in H.
  - injection H as <- _. split_and!; try reflexivity.
    + constructor.
    + intros a Ha. inversion Ha.
    + intros a Ha. inversion Ha.
  - destruct (deref s i) as [o| | | |] eqn:Ho;
      cbn [mbind outcome_bind obind] in H; try discriminate.
    apply deref_ret in Ho.
    destruct (delete_through_base v o _ _) as [t0| | | |];
      cbn [mbind outcome_bind obind] in H; try discriminate.
    destruct (Clear_delete v (free s i) os rest) as [[s2 t2]| | | |] eqn:Hrest;
      cbn [mbind outcome_bind obind] in H; try discriminate.
    injection H as <- _.
    apply IH in Hrest
      as (Hnd & Hlive & Hgone & Hkept & Hr & Hf & Hp & Hb & Hm & Hc & Hn).
    cbn [free set_heap heap running_ finished_ procs_to_batch_ batch_process_
         batch_mode_ batch_command_ next_ptr] in *.
    assert (Hi : i ∉ rest).
    { intros Hin. destruct (Hlive i Hin) as [x Hx].
      rewrite lookup_delete_eq in Hx. discriminate. }
    split_and!; try assumption.
    + apply NoDup_cons. split; assumption.
    + intros a Ha. apply elem_of_cons in Ha as [->|Ha]; [eauto|].
      destruct (Hlive a Ha) as [x Hx].
      destruct (decide (i = a)) as [->|Hne]; [contradiction|].
      rewrite lookup_delete_ne in Hx by exact Hne. eauto.
    + intros a Ha. apply elem_of_cons in Ha as [->|Ha]; [|apply Hgone, Ha].
      rewrite Hkept by exact Hi. apply lookup_delete_eq.
    + intros a Ha. apply not_elem_of_cons in Ha as [Hne Ha].
      rewrite Hkept by exact Ha. apply lookup_delete_ne. congruence.
Qed.

(** X13: whenever [Clear] returns, [running_] is empty and every process
    that was running has been deleted (the running handles were distinct
    live objects); objects that were not running are untouched, and so are
    the finished queue, the pending list and the batch policy.  The active
    batch pointer is not reset: if the active batch was running, the
    pointer is left dangling, and its children, which are in none of the
    collections, are not deleted. *)
Theorem Clear_effects (virtual_dtor : bool) (s s' : SubprocessSet)
    (os : os_Clear) (t : list clear_call) :
  Clear virtual_dtor s os = Ret (s', t) ->
  running_ s' = []
  /\ NoDup (running_ s)
  /\ (forall a, a ∈ running_ s -> is_Some (heap s !! a) /\ heap s' !! a = None)
  /\ (forall a, a ∉ running_ s -> heap s' !! a = heap s !! a)
  /\ finished_ s' = finished_ s
  /\ procs_to_batch_ s' = procs_to_batch_ s
  /\ batch_mode_ s' = batch_mode_ s
  /\ batch_command_ s' = batch_command_ s
  /\ batch_process_ s' = batch_process_ s
  /\ (forall bp, batch_process_ s = Some bp -> bp ∈ running_ s ->
        deref s' bp = Undefined).
Proof.
  unfold Clear.
  destruct (Clear_signal s os (running_ s)) as [t1| | | |];
    cbn [mbind outcome_bind obind]; try discriminate.
  destruct (Clear_delete virtual_dtor s os (running_ s))
    as [[s1 t2]| | | |] eqn:Hdel;
    cbn [mbind outcome_bind obind]; try discriminate.
  intros [= <- _].
  apply Clear_delete_effects in Hdel
    as (Hnd & Hlive & Hgone & Hkept & Hr & Hf & Hp & Hb & Hm & Hc & Hn).
  cbn [set_running running_ finished_ procs_to_batch_ batch_process_
       batch_mode_ batch_command_ heap].
  split_and!; try assumption; try reflexivity.
  - intros a Ha. split; [apply Hlive, Ha|apply Hgone, Ha].
  - intros bp _ Hin. unfold deref.
    cbn [set_running heap]. rewrite (Hgone bp Hin). reflexivity.
Qed.

(** An instance: the batch of the three jobs is running when the build is
    aborted. *)
Lemma Clear_effects_witness :
  running_ (cleared (Clear true batch_output_read clear_ok)) = []
  /\ NoDup (running_ batch_output_read)
  /\ (forall a, a ∈ running_ batch_output_read ->
        is_Some (heap batch_output_read !! a)
        /\ heap (cleared (Clear true batch_output_read clear_ok)) !! a
           = None)
  /\ (forall a, a ∉ running_ batch_output_read ->
        heap (cleared (Clear true batch_output_read clear_ok)) !! a
        = heap batch_output_read !! a)
  /\ finished_ (cleared (Clear true batch_output_read clear_ok))
     = finished_ batch_output_read
  /\ procs_to_batch_ (cleared (Clear true batch_output_read clear_ok))
     = procs_to_batch_ batch_output_read
  /\ batch_mode_ (cleared (Clear true batch_output_read clear_ok))
     = batch_mode_ batch_output_read
  /\ batch_command_ (cleared (Clear true batch_output_read clear_ok))
     = batch_command_ batch_output_read
  /\ batch_process_ (cleared (Clear true batch_output_read clear_ok))
     = batch_process_ batch_output_read
  /\ (forall bp, batch_process_ batch_output_read = Some bp ->
        bp ∈ running_ batch_output_read ->
        deref (cleared (Clear true batch_output_read clear_ok)) bp
        = Undefined).
Proof.
  apply (Clear_effects true batch_output_read
           (cleared (Clear true batch_output_read clear_ok)) clear_ok
           (clear_calls_of (Clear true batch_output_read clear_ok))).
  vm_compute. reflexivity.
Defined.

Lemma Clear_signal_returns s os (l : list nat) :
  (forall a, a ∈ l -> exists o, heap s !! a = Some o
     /\ (child_ (base_of o) <> NULL ->
         cl_GenerateConsoleCtrlEvent os a = true)) ->
  Clear_signal s os l
  = Ret (map CtrlBreak
           (List.filter (fun h => negb (h =? NULL))
              (map (fun a => child_ (base_of (object_at s a))) l))).
Proof.
  induction l as [|i rest IH]; intros H; [reflexivity|].
  cbn [Clear_signal map List.filter].
  destruct (H i) as (o & Ho & Hg); [left|].
  assert (Hoa : object_at s i = o) by (unfold object_at; rewrite Ho; reflexivity).
  assert (Hd : deref s i = Ret o) by (unfold deref; rewrite Ho; reflexivity).
  rewrite Hoa, Hd. cbn [mbind outcome_bind obind].
  rewrite IH by (intros a Ha; apply H; right; exact Ha).
  destruct (child_ (base_of o) =? NULL) eqn:Hc; cbn [negb]; [reflexivity|].
  rewrite Hg by (intros E; rewrite E in Hc; discriminate).
  reflexivity.
Qed.

Lemma delete_through_base_returns v o close_ok exit_code :
  (v = false -> exists p, o = OSubprocess p) ->
  (pipe_ (base_of o) <> NULL -> close_ok = true) ->
  exists t,
    delete_through_base v o close_ok exit_code = Ret t
    /\ (pipe_ (base_of o) <> NULL -> CloseHandle (pipe_ (base_of o)) ∈ t)
    /\ (child_ (base_of o) <> NULL ->
        use_override_status_ (base_of o) = false ->
        CloseHandle (child_ (base_of o)) ∈ t).
Proof.
  intros Hv Hc.
  assert (Hsub : forall p, (pipe_ p <> NULL -> close_ok = true) ->
    exists t, Subprocess_delete p close_ok exit_code = Ret t
      /\ (pipe_ p <> NULL -> CloseHandle (pipe_ p) ∈ t)
      /\ (child_ p <> NULL -> use_override_status_ p = false ->
          CloseHandle (child_ p) ∈ t)).
  { intros p Hp. unfold Subprocess_delete, close_if_set, Finish.
    destruct (pipe_ p =? NULL) eqn:E1; cbn [negb andb].
    - eexists. split; [reflexivity|]. split.
      + intros Hn. apply Z.eqb_eq in E1. contradiction.
      + intros Hn Ho. rewrite Ho.
        destruct (child_ p =? NULL) eqn:E2.
        * apply Z.eqb_eq in E2. contradiction.
        * cbn. set_solver.
    - rewrite Hp by (intros E; rewrite E in E1; discriminate).
      cbn [negb]. eexists. split; [reflexivity|]. split.
      + intros _. set_solver.
      + intros Hn Ho. rewrite Ho.
        destruct (child_ p =? NULL) eqn:E2.
        * apply Z.eqb_eq in E2. contradiction.
        * cbn. set_solver. }
  destruct o as [p|b]; cbn [delete_through_base base_of] in *.
  - apply Hsub, Hc.
  - destruct v.
    + unfold BatchSubprocess_delete.
      destruct (Hsub (base b) Hc) as (t & -> & H1 & H2).
      cbn [mbind outcome_bind obind]. eexists. split; [reflexivity|].
      split; intros; set_solver.
    + destruct Hv as [p Hp]; [reflexivity|discriminate].
Qed.

Lemma Clear_delete_returns v os (l : list nat) :
  forall s,
    NoDup l ->
    (forall a, a ∈ l -> exists o, heap s !! a = Some o
       /\ (v = false -> exists p, o = OSubprocess p)
       /\ (pipe_ (base_of o) <> NULL -> cl_CloseHandle os a = true)) ->
    exists s1 rel,
      Clear_delete v s os l = Ret (s1, map Released rel)
      /\ (forall a o, a ∈ l -> heap s !! a = Some o ->
            (pipe_ (base_of o) <> NULL ->
             CloseHandle (pipe_ (base_of o)) ∈ rel)
            /\ (child_ (base_of o) <> NULL ->
                use_override_status_ (base_of o) = false ->
                CloseHandle (child_ (base_of o)) ∈ rel)).
Proof.
  induction l as [|i rest IH]; intros s Hnd H.
  - exists s, []. split; [reflexivity|]. intros a o Ha. inversion Ha.
  - apply NoDup_cons in Hnd as [Hi Hnd].
    destruct (H i) as (o & Ho & Hv & Hc); [left|].
    destruct (delete_through_base_returns v o (cl_CloseHandle os i)
                (cl_exit_code os i) Hv Hc) as (t & Ht & Hpipe & Hchild).
    destruct (IH (free s i) Hnd) as (s1 & rel & Hrest & Hrel).
    { intros a Ha. destruct (H a) as (o' & Ho' & Hrest'); [right; exact Ha|].
      exists o'. split; [|exact Hrest'].
      cbn [free set_heap heap]. rewrite lookup_delete_ne; [exact Ho'|].
      intros ->. contradiction. }
    exists s1, (t ++ rel). split.
    + cbn [Clear_delete]. unfold deref at 1. rewrite Ho.
      cbn [mbind outcome_bind obind]. rewrite Ht.
      cbn [mbind outcome_bind obind]. rewrite Hrest.
      cbn [mbind outcome_bind obind]. rewrite map_app. reflexivity.
    + intros a o' Ha Ho'. apply elem_of_cons in Ha as [->|Ha].
      * rewrite Ho in Ho'. injection Ho' as <-.
        split; intros; apply elem_of_app; left; auto.
      * assert (Hne : i <> a) by (intros ->; contradiction).
        destruct (Hrel a o' Ha) as [H1 H2].
        { cbn [free set_heap heap]. rewrite lookup_delete_ne; assumption. }
        split; intros; apply elem_of_app; right; auto.
Qed.

(** X14: [Clear] returns when the running handles are distinct live
    objects and the operating system lets it signal and close what they
    hold (and batches are only deleted through a virtual destructor).  It
    first sends the break signal to every running process that has a
    process handle, in the order of [running_], and only then releases
    handles: every pipe of a running process is closed, and so is every
    process handle unless the process has an override status. *)
Theorem Clear_returns (virtual_dtor : bool) (s : SubprocessSet)
    (os : os_Clear) :
  NoDup (running_ s) ->
  (forall a, a ∈ running_ s -> clear_allowed virtual_dtor s os a) ->
  exists s' rel,
    Clear virtual_dtor s os
    = Ret (s', map CtrlBreak (running_children s) ++ map Released rel)
    /\ (forall a, a ∈ running_ s ->
          let p := base_of (object_at s a) in
          (pipe_ p <> NULL -> CloseHandle (pipe_ p) ∈ rel)
          /\ (child_ p <> NULL -> use_override_status_ p = false ->
              CloseHandle (child_ p) ∈ rel)).
Proof.
  intros Hnd H. unfold Clear.
  rewrite Clear_signal_returns.
  2:{ intros a Ha. destruct (H a Ha) as (o & Ho & _ & Hg & _). eauto. }
  destruct (Clear_delete_returns virtual_dtor os (running_ s) s Hnd)
    as (s1 & rel & Hdel & Hrel).
  { intros a Ha. destruct (H a Ha) as (o & Ho & Hv & _ & Hc). eauto. }
  cbn [mbind outcome_bind obind]. rewrite Hdel.
  cbn [mbind outcome_bind obind].
  exists (set_running s1 []), rel. split; [reflexivity|].
  intros a Ha. destruct (H a Ha) as (o & Ho & _).
  unfold object_at. rewrite Ho. cbn zeta. apply (Hrel a o Ha Ho).
Qed.

(** An instance: the running batch of the three jobs. *)
Lemma Clear_returns_witness :
  exists s' rel,
    Clear true batch_output_read clear_ok
    = Ret (s', map CtrlBreak (running_children batch_output_read)
               ++ map Released rel)
    /\ (forall a, a ∈ running_ batch_output_read ->
          let p := base_of (object_at batch_output_read a) in
          (pipe_ p <> NULL -> CloseHandle (pipe_ p) ∈ rel)
          /\ (child_ p <> NULL -> use_override_status_ p = false ->
              CloseHandle (child_ p) ∈ rel)).
Proof.
  apply (Clear_returns true batch_output_read clear_ok).
  - compute_done.
  - intros a Ha.
    assert (Hr : running_ batch_output_read = [3%nat])
      by (vm_compute; reflexivity).
    rewrite Hr in Ha. apply list_elem_of_singleton in Ha as ->.
    unfold clear_allowed. eexists. split; [vm_compute; reflexivity|].
    split; [discriminate|]. split; reflexivity.
Defined.

(** ** BatchSubprocess::ParseOutput: markers that are cut short *)

(** The first loop never exits when a completion token is followed by no
    newline: the search for the newline fails, [start_pos] wraps to 0, and
    the next search finds a completion token again. *)
Lemma strip_loop_never_exits (buf : str) (q : nat) :
  slen buf < npos ->
  (q <= length buf)%nat ->
  starts_with complete_token (drop q buf) = true ->
  newline ∉ drop q buf ->
  forall fuel loc ranges succ r,
    0 <= loc -> loc <> npos ->
    strip_loop fuel buf loc ranges succ <> Ret r.
Proof.
  intros Hlen Hq Htok Hnl.
  assert (Hq' : Z.of_nat q < npos) by (unfold slen in Hlen; lia).
  induction fuel as [|fuel IH]; intros loc ranges succ r Hloc Hne;
    cbn [strip_loop];
    (destruct (loc =? npos) eqn:E; [apply Z.eqb_eq in E; contradiction|]);
    [discriminate|].
  set (jobIdStart := wrap (loc + slen complete_token + 1)).
  assert (Hjs : 0 <= jobIdStart) by (apply Z.mod_pos_bound; reflexivity).
  destruct (c_str_at buf jobIdStart) as [digits| | | |];
    cbn [mbind outcome_bind obind]; try discriminate.
  destruct (atoi digits) as [jobId| | | |];
    cbn [mbind outcome_bind obind]; try discriminate.
  set (start_pos := wrap (find_first_of buf newline jobIdStart + 1)).
  assert (Hsp : 0 <= start_pos <= Z.of_nat q).
  { unfold start_pos.
    destruct (decide (find_first_of buf newline jobIdStart = npos)) as [->|Hk].
    - change (wrap (npos + 1)) with 0. lia.
    - destruct (find_first_of_found buf newline jobIdStart _ Hjs eq_refl Hk)
        as [Hle Hat].
      set (k := find_first_of buf newline jobIdStart) in *.
      assert (Hkq : k < Z.of_nat q).
      { destruct (decide (k < Z.of_nat q)) as [|Hge]; [assumption|].
        exfalso. apply Hnl. apply list_elem_of_lookup.
        exists (Z.to_nat k - q)%nat. rewrite lookup_drop.
        replace (q + (Z.to_nat k - q))%nat with (Z.to_nat k) by lia.
        exact Hat. }
      unfold wrap. rewrite Z.mod_small; [lia|].
      unfold npos in Hq'. lia. }
  pose proof (find_before buf complete_token start_pos q Hsp Hq Htok) as Hnext.
  apply IH; lia.
Qed.

(** X15: [ParseOutput] never returns on a buffer in which some completion
    token has no newline after it (the output was read before the line was
    complete, or the stream ends without a newline), whatever the rest of
    the buffer holds and however much fuel the loop is given. *)
Theorem ParseOutput_complete_marker_cut (buf : str) (q : nat) :
  slen buf < npos ->
  (q <= length buf)%nat ->
  starts_with complete_token (drop q buf) = true ->
  newline ∉ drop q buf ->
  forall fuel succ outs r, ParseOutput fuel buf succ outs <> Ret r.
Proof.
  intros Hlen Hq Htok Hnl fuel succ outs r. unfold ParseOutput.
  pose proof (find_before buf complete_token 0 q ltac:(lia) Hq Htok) as Hloc.
  assert (Hq' : Z.of_nat q < npos) by (unfold slen in Hlen; lia).
  pose proof (strip_loop_never_exits buf q Hlen Hq Htok Hnl fuel
                (find buf complete_token 0) [(0, slen buf)] succ) as Hstrip.
  destruct (strip_loop fuel buf _ _ succ) as [rs| | | |];
    cbn [mbind outcome_bind obind]; try discriminate.
  exfalso. apply (Hstrip rs); [lia|lia|reflexivity].
Qed.

(** An instance: a job's output followed by a completion marker whose line
    is not finished. *)
Lemma ParseOutput_complete_marker_cut_witness :
  starts_with complete_token (drop 18 complete_marker_cut) = true
  /\ (newline ∉ drop 18 complete_marker_cut)
  /\ forall fuel succ outs r,
       ParseOutput fuel complete_marker_cut succ outs <> Ret r.
Proof.
  split_and!.
  - vm_compute. reflexivity.
  - compute_done.
  - apply (ParseOutput_complete_marker_cut complete_marker_cut 18).
    + vm_compute. reflexivity.
    + vm_compute. lia.
    + vm_compute. reflexivity.
    + compute_done.
Defined.

(** Without completion token the first loop keeps the whole buffer. *)
Lemma ParseOutput_no_complete fuel (buf : str) succ outs :
  slen buf < npos ->
  contains complete_token buf = false ->
  ParseOutput fuel buf succ outs
  = if find buf start_token 0 =? npos then
      Ret {| p_buf := buf; p_successful_jobs := succ; p_job_output := outs |}
    else
      job_output1 ← split_loop fuel buf (find buf start_token 0) outs;
      Ret {| p_buf := []; p_successful_jobs := succ;
             p_job_output := job_output1 |}.
Proof.
  intros Hlen Hc. unfold ParseOutput.
  rewrite (find_absent _ _ Hc).
  assert (Hstrip : forall r g, strip_loop fuel buf npos r g = Ret (r, g))
    by (intros; destruct fuel; reflexivity).
  rewrite Hstrip. simpl. unfold append_sub.
  rewrite substr_whole by (unfold npos in Hlen; lia).
  reflexivity.
Qed.

(** X16: [ParseOutput] never returns on a buffer without completion token
    in which some start token has no newline after it: the second loop
    finds a start token again and again. *)
Theorem ParseOutput_start_marker_cut (buf : str) (q : nat) :
  slen buf < npos ->
  contains complete_token buf = false ->
  (q <= length buf)%nat ->
  starts_with start_token (drop q buf) = true ->
  newline ∉ drop q buf ->
  forall fuel succ outs r, ParseOutput fuel buf succ outs <> Ret r.
Proof.
  intros Hlen Hnone Hq Htok Hnl fuel succ outs r.
  rewrite ParseOutput_no_complete by assumption.
  pose proof (find_before buf start_token 0 q ltac:(lia) Hq Htok) as Hloc.
  assert (Hq' : Z.of_nat q < npos) by (unfold slen in Hlen; lia).
  destruct (find buf start_token 0 =? npos) eqn:E;
    [apply Z.eqb_eq in E; lia|].
  pose proof (split_loop_never_exits buf q Hlen Hq Htok Hnl fuel
                (find buf start_token 0) outs) as Hsplit.
  destruct (split_loop fuel buf _ outs) as [o| | | |];
    cbn [mbind outcome_bind obind]; try discriminate.
  exfalso. apply (Hsplit o); [lia|lia|reflexivity].
Qed.

(** An instance: the first job has printed its output, the start marker of
    the second job has arrived without its newline. *)
Lemma ParseOutput_start_marker_cut_witness :
  contains complete_token start_marker_cut = false
  /\ starts_with start_token (drop 18 start_marker_cut) = true
  /\ (newline ∉ drop 18 start_marker_cut)
  /\ forall fuel succ outs r,
       ParseOutput fuel start_marker_cut succ outs <> Ret r.
Proof.
  split_and!.
  - vm_compute. reflexivity.
  - vm_compute. reflexivity.
  - compute_done.
  - apply (ParseOutput_start_marker_cut start_marker_cut 18).
    + vm_compute. reflexivity.
    + vm_compute. reflexivity.
    + vm_compute. lia.
    + vm_compute. reflexivity.
    + compute_done.
Defined.

(** ** BatchSubprocess::ParseOutput on the stream of a batch *)

Lemma slen_app (a b : str) : slen (a ++ b) = slen a + slen b.
Proof. unfold slen. rewrite length_app. lia. Qed.

Lemma wrap_small z : 0 <= z < size_t_modulus -> wrap z = z.
Proof. intros H. unfold wrap. apply Z.mod_small, H. Qed.

Lemma starts_with_app tok rest : starts_with tok (tok ++ rest) = true.
Proof.
  induction tok as [|c tok IH]; [reflexivity|].
  cbn [starts_with app]. unfold ascii_eqb. rewrite Ascii.eqb_refl. exact IH.
Qed.

Lemma find_from_here tok s i : starts_with tok s = true -> find_from tok s i = i.
Proof. intros H. destruct s; cbn [find_from]; rewrite H; reflexivity. Qed.

(** A match that begins in [a] either lies in [a] or runs over its end. *)
Lemma starts_with_split tok :
  forall a b,
    starts_with tok (a ++ b) = true ->
    starts_with tok a = true \/ exists t, tok = a ++ t.
Proof.
  induction tok as [|c tok IH]; intros a b H; [left; destruct a; reflexivity|].
  destruct a as [|x a]; [right; exists (c :: tok); reflexivity|].
  cbn [app starts_with] in *.
  apply andb_prop in H as [Hc H]. rewrite Hc. cbn [andb].
  apply Ascii.eqb_eq in Hc. subst x.
  destruct (IH a b H) as [Hl|[t ->]]; [left; exact Hl|].
  right. exists t. reflexivity.
Qed.

(** A search passes over whole lines in which the token does not occur. *)
Lemma find_from_skip_lines tok (out : str) :
  newline ∉ tok ->
  forall rest k,
    contains tok out = false -> whole_lines out ->
    find_from tok (out ++ rest) k = find_from tok rest (k + slen out).
Proof.
  intros Hnl. induction out as [|c out IH]; intros rest k Hc Hw.
  - cbn [app]. f_equal. unfold slen. cbn. lia.
  - cbn [contains] in Hc. apply orb_false_elim in Hc as [Hhere Hc].
    cbn [app find_from].
    destruct (starts_with tok (c :: out ++ rest)) eqn:E.
    + exfalso. destruct (starts_with_split tok (c :: out) rest E) as [Hl|[t ->]].
      * congruence.
      * destruct (last (c :: out)) as [x|] eqn:Hx.
        -- pose proof (Hw x Hx) as ->. apply Hnl.
           apply last_Some in Hx as [l' Hl']. rewrite Hl'.
           set_solver.
        -- apply last_None in Hx. discriminate.
    + rewrite IH; [f_equal; unfold slen; rewrite length_cons; lia|exact Hc|].
      intros x Hx. apply Hw. destruct out; [discriminate|exact Hx].
Qed.

Lemma contains_without_head c tok (s : str) :
  c ∉ s -> contains (c :: tok) s = false.
Proof.
  induction s as [|b s IH]; intros H; [reflexivity|].
  cbn [contains starts_with].
  apply not_elem_of_cons in H as [Hne H]. rewrite (IH H).
  destruct (ascii_eqb c b) eqn:E; [apply Ascii.eqb_eq in E; congruence|].
  reflexivity.
Qed.

(** The digits of a number contain neither a newline nor an underscore. *)
Lemma uint_chars (d : Decimal.uint) c :
  c ∈ lit (NilEmpty.string_of_uint d) -> c <> newline /\ c <> "_"%char.
Proof.
  induction d as [|d IH|d IH|d IH|d IH|d IH|d IH|d IH|d IH|d IH|d IH];
    cbn [NilEmpty.string_of_uint lit list_ascii_of_string]; intros H;
    [inversion H|..];
    (apply elem_of_cons in H as [->|H]; [|exact (IH H)]);
    split; intros E; vm_compute in E; discriminate E.
Qed.

Lemma decimal_chars (z : Z) c :
  c ∈ decimal z -> c <> newline /\ c <> "_"%char.
Proof.
  assert (Hu : forall d, c ∈ lit (NilZero.string_of_uint d) ->
                         c <> newline /\ c <> "_"%char).
  { intros d. destruct d; try apply uint_chars.
    cbn. intros H. apply list_elem_of_singleton in H as ->.
    split; intros E; vm_compute in E; discriminate E. }
  unfold decimal. destruct (Z.to_int z) as [d|d];
    cbn [NilZero.string_of_int]; [apply Hu|].
  cbn [lit list_ascii_of_string]. intros H.
  apply elem_of_cons in H as [->|H]; [|exact (Hu _ H)].
  split; intros E; vm_compute in E; discriminate E.
Qed.

Lemma find_char_from_skip c (d rest : str) k :
  c ∉ d -> find_char_from c (d ++ c :: rest) k = k + slen d.
Proof.
  revert k. induction d as [|b d IH]; intros k H.
  - cbn [app find_char_from]. unfold ascii_eqb. rewrite Ascii.eqb_refl.
    unfold slen. cbn. lia.
  - apply not_elem_of_cons in H as [Hne H]. cbn [app find_char_from].
    destruct (ascii_eqb c b) eqn:E; [apply Ascii.eqb_eq in E; congruence|].
    rewrite IH by exact H. unfold slen. rewrite length_cons. lia.
Qed.

(** *** The string operations at the end of a known prefix *)

Lemma find_at (buf pre s tok : str) :
  buf = pre ++ s -> find buf tok (slen pre) = find_from tok s (slen pre).
Proof.
  intros ->. unfold find. rewrite slen_app.
  pose proof (slen_nonneg s).
  destruct (slen pre + slen s <? slen pre) eqn:E; [lia|].
  unfold slen. rewrite Nat2Z.id, drop_app_length. reflexivity.
Qed.

Lemma c_str_at_app (buf pre s : str) :
  buf = pre ++ s -> c_str_at buf (slen pre) = Ret s.
Proof.
  intros ->. unfold c_str_at. rewrite slen_app.
  pose proof (slen_nonneg s).
  destruct (slen pre + slen s <? slen pre) eqn:E; [lia|].
  unfold slen. rewrite Nat2Z.id, drop_app_length. reflexivity.
Qed.

Lemma find_first_of_at (buf pre d rest : str) c :
  buf = pre ++ d ++ c :: rest -> c ∉ d ->
  find_first_of buf c (slen pre) = slen pre + slen d.
Proof.
  intros -> H. unfold find_first_of. rewrite !slen_app.
  pose proof (slen_nonneg d). pose proof (slen_nonneg rest).
  assert (slen (c :: rest) = 1 + slen rest)
    by (unfold slen; rewrite length_cons; lia).
  destruct (slen pre + (slen d + slen (c :: rest)) <=? slen pre) eqn:E; [lia|].
  unfold slen at 1. rewrite Nat2Z.id, drop_app_length.
  apply find_char_from_skip, H.
Qed.

Lemma substr_at (buf pre piece rest : str) n :
  buf = pre ++ piece ++ rest ->
  Z.min n (slen piece + slen rest) = slen piece ->
  substr buf (slen pre) n = Ret piece.
Proof.
  intros -> Hn. unfold substr. rewrite !slen_app.
  pose proof (slen_nonneg piece). pose proof (slen_nonneg rest).
  destruct (slen pre + (slen piece + slen rest) <? slen pre) eqn:E; [lia|].
  replace (slen pre + (slen piece + slen rest) - slen pre)
    with (slen piece + slen rest) by lia.
  rewrite Hn. unfold slen. rewrite !Nat2Z.id, drop_app_length.
  rewrite take_app_length. reflexivity.
Qed.

(** The part of the buffer between [a] and the end of a prefix [x]. *)
Lemma substr_segment (buf x y : str) a :
  buf = x ++ y -> slen buf < npos -> 0 <= a <= slen x ->
  substr buf a (wrap (slen x - a)) = Ret (drop (Z.to_nat a) x).
Proof.
  intros -> Hlen Ha. rewrite slen_app in Hlen.
  pose proof (slen_nonneg y). unfold npos in Hlen.
  rewrite wrap_small by lia.
  unfold substr. rewrite slen_app.
  destruct (slen x + slen y <? a) eqn:E; [lia|].
  rewrite Z.min_l by lia. f_equal.
  rewrite drop_app_le by (unfold slen in Ha; lia).
  rewrite take_app_le by (rewrite length_drop; unfold slen in *; lia).
  apply take_ge. rewrite length_drop. unfold slen in *. lia.
Qed.

(** *** The lines of the stream *)

Lemma slen_cons c (s : str) : slen (c :: s) = 1 + slen s.
Proof. unfold slen. rewrite length_cons. lia. Qed.

Lemma newline_not_in_decimal z : newline ∉ decimal z.
Proof. intros H. apply decimal_chars in H as [H _]. congruence. Qed.

Lemma newline_not_in_start_token : newline ∉ start_token.
Proof. compute_done. Qed.

Lemma newline_not_in_complete_token : newline ∉ complete_token.
Proof. compute_done. Qed.

Lemma slen_start_line i : slen (start_line i) = 15 + slen (decimal i).
Proof.
  unfold start_line. rewrite !slen_app.
  change (slen start_token) with 13. change (slen (lit "=")) with 1.
  change (slen [newline]) with 1. lia.
Qed.

Lemma slen_complete_line i : slen (complete_line i) = 24 + slen (decimal i).
Proof.
  unfold complete_line. rewrite !slen_app.
  change (slen complete_token) with 22. change (slen (lit "=")) with 1.
  change (slen [newline]) with 1. lia.
Qed.

Lemma slen_job_stream j :
  slen (job_stream j)
  = slen (start_line (jr_id j)) + slen (jr_output j)
    + (if jr_ok j then slen (complete_line (jr_id j)) else 0).
Proof.
  unfold job_stream. rewrite !slen_app.
  destruct (jr_ok j); [lia|change (slen []) with 0; lia].
Qed.

(** A start line holds no completion token, and is a whole line. *)
Lemma start_line_no_complete i :
  contains complete_token (start_line i) = false.
Proof.
  assert (Hskip : forall d : str,
             contains complete_token (start_token ++ lit "=" ++ d)
             = contains complete_token d)
    by (intros d; reflexivity).
  unfold start_line. rewrite Hskip.
  apply contains_without_head. intros H.
  apply elem_of_app in H as [H|H].
  - apply decimal_chars in H as [_ H]. congruence.
  - apply list_elem_of_singleton in H. vm_compute in H. discriminate H.
Qed.

Lemma whole_lines_app_newline (s : str) : whole_lines (s ++ [newline]).
Proof. intros c H. rewrite last_snoc in H. congruence. Qed.

Lemma start_line_whole i : whole_lines (start_line i).
Proof.
  unfold start_line. rewrite 2!app_assoc. apply whole_lines_app_newline.
Qed.

Lemma find_from_nil tok i : tok <> [] -> find_from tok [] i = npos.
Proof. destruct tok; [contradiction|reflexivity]. Qed.

(** Where the completion token is found in a stream. *)
Lemma find_complete_stream (js : list job_run) :
  Forall plain_run js ->
  forall off,
    find_from complete_token (batch_stream js) off = next_complete js off.
Proof.
  induction 1 as [|j js (Hid & Hs & Hc & Hw) _ IH]; intros off;
    [reflexivity|].
  cbn [batch_stream next_complete]. unfold job_stream.
  rewrite <- !app_assoc.
  rewrite (find_from_skip_lines _ _ newline_not_in_complete_token)
    by (apply start_line_no_complete || apply start_line_whole).
  rewrite (find_from_skip_lines _ _ newline_not_in_complete_token)
    by assumption.
  destruct (jr_ok j).
  - apply find_from_here. unfold complete_line. rewrite <- !app_assoc.
    apply starts_with_app.
  - cbn [app]. rewrite IH. f_equal. rewrite !slen_app.
    change (slen []) with 0. lia.
Qed.

Lemma set_back_second_last (rs : SizeRange) a b v :
  set_back_second (rs ++ [(a, b)]) v = rs ++ [(a, v)].
Proof.
  induction rs as [|r rs IH]; [reflexivity|].
  cbn [app set_back_second]. rewrite IH.
  destruct r. destruct (rs ++ [(a, b)]) eqn:E; [|reflexivity].
  destruct rs; discriminate.
Qed.

Lemma strip_loop_npos fuel buf ranges succ :
  strip_loop fuel buf npos ranges succ = Ret (ranges, succ).
Proof. destruct fuel; reflexivity. Qed.

(** The first loop on a stream: the ranges it keeps and the jobs it
    records. *)
Lemma strip_loop_stream (buf : str) (js : list job_run) :
  Forall plain_run js ->
  slen buf < npos ->
  forall (pre : str) a rs succ fuel,
    buf = pre ++ batch_stream js ->
    (length js <= fuel)%nat ->
    strip_loop fuel buf (next_complete js (slen pre))
               (rs ++ [(a, slen buf)]) succ
    = Ret (rs ++ kept js (slen pre) a (slen buf), succeeded js succ).
Proof.
  intros Hjs Hlen.
  induction Hjs as [|j js (Hid & Hs & Hc & Hw) Hjs IH];
    intros pre a rs succ fuel Hbuf Hfuel.
  - apply strip_loop_npos.
  - cbn [batch_stream] in Hbuf. cbn [next_complete kept succeeded].
    cbn [length] in Hfuel.
    assert (Hnext : buf = (pre ++ job_stream j) ++ batch_stream js)
      by (rewrite Hbuf, <- app_assoc; reflexivity).
    pose proof (slen_nonneg pre) as Hpre.
    pose proof (slen_nonneg (jr_output j)) as Hout.
    pose proof (slen_nonneg (decimal (jr_id j))) as Hdec.
    pose proof (slen_nonneg (batch_stream js)) as Hrest.
    assert (Htotal : slen buf
                     = slen pre + slen (job_stream j) + slen (batch_stream js))
      by (rewrite Hnext, !slen_app; reflexivity).
    rewrite slen_job_stream, slen_start_line in Htotal.
    destruct (jr_ok j) eqn:Hok.
    + rewrite slen_complete_line in Htotal.
      set (loc := slen pre + slen (start_line (jr_id j))
                  + slen (jr_output j)).
      assert (Hloc : loc = slen pre + 15 + slen (decimal (jr_id j))
                           + slen (jr_output j))
        by (unfold loc; rewrite slen_start_line; lia).
      destruct fuel as [|fuel]; [lia|]. cbn [strip_loop].
      destruct (loc =? npos) eqn:E; [apply Z.eqb_eq in E; lia|].
      rewrite set_back_second_last.
      change (slen complete_token) with 22.
      unfold npos in Hlen.
      rewrite (wrap_small (loc + 22 + 1)) by lia.
      set (before := pre ++ start_line (jr_id j) ++ jr_output j
                     ++ complete_token ++ lit "=").
      assert (Hbefore : slen before = loc + 22 + 1).
      { unfold before. rewrite !slen_app.
        change (slen complete_token) with 22.
        change (slen (lit "=")) with 1. unfold loc. lia. }
      assert (Hsplit : buf = before ++ decimal (jr_id j)
                                ++ newline :: batch_stream js).
      { rewrite Hbuf. unfold before, job_stream, complete_line.
        rewrite Hok, <- !app_assoc. reflexivity. }
      rewrite <- Hbefore.
      rewrite (c_str_at_app buf before _ Hsplit).
      cbn [mbind outcome_bind obind].
      rewrite atoi_decimal by exact Hid.
      cbn [mbind outcome_bind obind].
      rewrite (find_first_of_at buf before _ _ newline Hsplit
                 (newline_not_in_decimal _)).
      assert (Hend : slen before + slen (decimal (jr_id j)) + 1
                     = slen (pre ++ job_stream j)).
      { rewrite slen_app, slen_job_stream, Hok, slen_start_line,
          slen_complete_line. lia. }
      rewrite wrap_small by lia. rewrite Hend.
      rewrite (find_at buf _ _ complete_token Hnext).
      rewrite find_complete_stream by exact Hjs.
      rewrite (IH (pre ++ job_stream j) _ (rs ++ [(a, loc)]) _ fuel Hnext)
        by lia.
      rewrite <- app_assoc, slen_app. reflexivity.
    + rewrite <- slen_app.
      rewrite (IH (pre ++ job_stream j) a rs succ fuel Hnext) by lia.
      rewrite slen_app. reflexivity.
Qed.

Lemma copy_ranges_app buf acc piece first second rest :
  substr buf first (wrap (second - first)) = Ret piece ->
  copy_ranges buf ((first, second) :: rest) acc
  = copy_ranges buf rest (acc ++ piece).
Proof.
  intros H. cbn [copy_ranges]. unfold append_sub. rewrite H. reflexivity.
Qed.

(** Copying the kept ranges gives the stream without its completion
    lines. *)
Lemma copy_ranges_kept (buf : str) (js : list job_run) :
  slen buf < npos ->
  forall (pre : str) a acc,
    buf = pre ++ batch_stream js ->
    0 <= a <= slen pre ->
    copy_ranges buf (kept js (slen pre) a (slen buf)) acc
    = Ret (acc ++ drop (Z.to_nat a) pre ++ stripped_stream js).
Proof.
  intros Hlen. induction js as [|j js IH]; intros pre a acc Hbuf Ha.
  - cbn [batch_stream kept stripped_stream] in *.
    rewrite app_nil_r in Hbuf. subst buf.
    rewrite (copy_ranges_app _ _ (drop (Z.to_nat a) pre)).
    + rewrite app_nil_r. reflexivity.
    + apply (substr_segment pre pre []);
        [rewrite app_nil_r; reflexivity|exact Hlen|exact Ha].
  - cbn [batch_stream] in Hbuf. cbn [kept stripped_stream].
    assert (Hnext : buf = (pre ++ job_stream j) ++ batch_stream js)
      by (rewrite Hbuf, <- app_assoc; reflexivity).
    pose proof (slen_nonneg (job_stream j)) as Hj.
    pose proof (slen_nonneg (start_line (jr_id j))) as Hsl.
    pose proof (slen_nonneg (jr_output j)) as Hout.
    destruct (jr_ok j) eqn:Hok.
    + set (x := pre ++ start_line (jr_id j) ++ jr_output j).
      assert (Hx : slen pre + slen (start_line (jr_id j))
                   + slen (jr_output j) = slen x)
        by (unfold x; rewrite !slen_app; lia).
      rewrite Hx, <- (slen_app pre (job_stream j)).
      rewrite (copy_ranges_app _ _ (drop (Z.to_nat a) x)).
      * rewrite (IH _ _ _ Hnext)
          by (pose proof (slen_nonneg (pre ++ job_stream j)); lia).
        unfold slen. rewrite Nat2Z.id, drop_all. cbn [app].
        unfold x. rewrite drop_app_le by (unfold slen in Ha; lia).
        rewrite <- !app_assoc. reflexivity.
      * apply (substr_segment buf x
                 (complete_line (jr_id j) ++ batch_stream js));
          [|exact Hlen|lia].
        rewrite Hbuf. unfold x, job_stream. rewrite Hok, <- !app_assoc.
        reflexivity.
    + rewrite <- (slen_app pre (job_stream j)).
      rewrite (IH _ _ _ Hnext) by (rewrite slen_app; lia).
      unfold job_stream. rewrite Hok, app_nil_r.
      rewrite drop_app_le by (unfold slen in Ha; lia).
      rewrite <- !app_assoc. reflexivity.
Qed.

Lemma find_start_stream (js : list job_run) off :
  find_from start_token (stripped_stream js) off = next_start js off.
Proof.
  destruct js as [|j js]; [reflexivity|].
  cbn [stripped_stream next_start]. apply find_from_here.
  unfold start_line. rewrite <- !app_assoc. apply starts_with_app.
Qed.

Lemma split_loop_npos fuel buf outs :
  split_loop fuel buf npos outs = Ret outs.
Proof. destruct fuel; reflexivity. Qed.

(** The second loop on a stream without completion lines: every job's
    output is assigned to its index. *)
Lemma split_loop_stream (buf : str) (js : list job_run) :
  Forall plain_run js ->
  slen buf < npos ->
  forall (pre : str) outs fuel,
    buf = pre ++ stripped_stream js ->
    (length js <= fuel)%nat ->
    split_loop fuel buf (next_start js (slen pre)) outs
    = Ret (assigned js outs).
Proof.
  intros Hjs Hlen.
  induction Hjs as [|j js (Hid & Hs & Hc & Hw) Hjs IH];
    intros pre outs fuel Hbuf Hfuel.
  - apply split_loop_npos.
  - cbn [stripped_stream] in Hbuf. cbn [next_start assigned].
    cbn [length] in Hfuel.
    pose proof (slen_nonneg pre) as Hpre.
    pose proof (slen_nonneg (jr_output j)) as Hout.
    pose proof (slen_nonneg (decimal (jr_id j))) as Hdec.
    pose proof (slen_nonneg (stripped_stream js)) as Hrest.
    assert (Htotal : slen buf
                     = slen pre + slen (start_line (jr_id j))
                       + slen (jr_output j) + slen (stripped_stream js))
      by (rewrite Hbuf, !slen_app; lia).
    rewrite slen_start_line in Htotal. unfold npos in Hlen.
    destruct fuel as [|fuel]; [lia|]. cbn [split_loop].
    destruct (slen pre =? npos) eqn:E;
      [apply Z.eqb_eq in E; unfold npos in E; lia|].
    change (slen start_token) with 13.
    rewrite (wrap_small (slen pre + 13 + 1)) by lia.
    set (before := pre ++ start_token ++ lit "=").
    assert (Hbefore : slen before = slen pre + 13 + 1).
    { unfold before. rewrite !slen_app.
      change (slen start_token) with 13. change (slen (lit "=")) with 1.
      lia. }
    assert (Hsplit : buf = before ++ decimal (jr_id j)
                              ++ newline :: jr_output j
                              ++ stripped_stream js).
    { rewrite Hbuf. unfold before, start_line. rewrite <- !app_assoc.
      reflexivity. }
    rewrite <- Hbefore.
    rewrite (c_str_at_app buf before _ Hsplit).
    cbn [mbind outcome_bind obind].
    rewrite atoi_decimal by exact Hid.
    cbn [mbind outcome_bind obind].
    rewrite (find_first_of_at buf before _ _ newline Hsplit
               (newline_not_in_decimal _)).
    set (head := pre ++ start_line (jr_id j)).
    assert (Hhead : slen before + slen (decimal (jr_id j)) + 1 = slen head)
      by (unfold head; rewrite slen_app, slen_start_line; lia).
    rewrite wrap_small by lia. rewrite Hhead.
    assert (Hat : buf = head ++ jr_output j ++ stripped_stream js)
      by (rewrite Hbuf; unfold head; rewrite <- !app_assoc; reflexivity).
    rewrite (find_at buf head _ start_token Hat).
    rewrite (find_from_skip_lines _ _ newline_not_in_start_token)
      by assumption.
    rewrite find_start_stream.
    assert (Hnext : buf = (head ++ jr_output j) ++ stripped_stream js)
      by (rewrite Hat, <- app_assoc; reflexivity).
    rewrite (substr_at buf head (jr_output j) (stripped_stream js) _ Hat).
    + cbn [mbind outcome_bind obind]. rewrite <- slen_app.
      apply (IH _ _ _ Hnext). lia.
    + destruct js as [|j' js]; cbn [next_start].
      * change (slen (stripped_stream [])) with 0 in *.
        rewrite wrap_small by (unfold npos; lia). unfold npos. lia.
      * replace (slen head + slen (jr_output j) - slen head)
          with (slen (jr_output j)) by lia.
        rewrite wrap_small by lia. lia.
Qed.

Lemma slen_stripped_stream (js : list job_run) :
  slen (stripped_stream js) <= slen (batch_stream js).
Proof.
  induction js as [|j js IH]; [reflexivity|].
  cbn [stripped_stream batch_stream]. unfold job_stream.
  rewrite !slen_app.
  pose proof (slen_nonneg (if jr_ok j then complete_line (jr_id j) else [])).
  lia.
Qed.

(** What [ParseOutput] returns on the stream of a batch. *)
Lemma ParseOutput_stream (js : list job_run) (fuel : nat) succ outs :
  Forall plain_run js ->
  slen (batch_stream js) < npos ->
  (length js <= fuel)%nat ->
  ParseOutput fuel (batch_stream js) succ outs
  = Ret {| p_buf := []; p_successful_jobs := succeeded js succ;
           p_job_output := assigned js outs |}.
Proof.
  intros Hjs Hlen Hfuel. unfold ParseOutput.
  set (buf := batch_stream js) in *.
  assert (Hbuf : buf = [] ++ batch_stream js) by reflexivity.
  rewrite (find_at buf [] _ complete_token Hbuf
           : find buf complete_token 0 = _).
  rewrite find_complete_stream by exact Hjs.
  change [(0, slen buf)] with ([] ++ [(0, slen buf)]).
  rewrite (strip_loop_stream buf js Hjs Hlen [] 0 [] succ fuel Hbuf Hfuel).
  cbn [mbind outcome_bind obind app].
  rewrite (copy_ranges_kept buf js Hlen [] 0 [] Hbuf)
    by (change (slen []) with 0; lia).
  cbn [mbind outcome_bind obind].
  change ([] ++ drop (Z.to_nat 0) [] ++ stripped_stream js)
    with (stripped_stream js).
  set (stripped := stripped_stream js).
  assert (Hstripped : stripped = [] ++ stripped_stream js) by reflexivity.
  assert (Hshort : slen stripped < npos)
    by (pose proof (slen_stripped_stream js); unfold stripped, buf in *; lia).
  rewrite (find_at stripped [] _ start_token Hstripped
           : find stripped start_token 0 = _).
  rewrite find_start_stream.
  destruct js as [|j js]; [reflexivity|].
  cbn [next_start]. change (slen []) with 0.
  destruct (0 =? npos) eqn:E; [discriminate|].
  pose proof (split_loop_stream stripped (j :: js) Hjs Hshort [] outs fuel
                Hstripped Hfuel) as Hsplit.
  cbn [next_start] in Hsplit. change (slen []) with 0 in Hsplit.
  rewrite Hsplit. reflexivity.
Qed.

Lemma succeeded_spec (js : list job_run) :
  forall g i,
    i ∈ succeeded js g
    <-> i ∈ g \/ exists j, j ∈ js /\ jr_id j = i /\ jr_ok j = true.
Proof.
  induction js as [|j js IH]; intros g i; cbn [succeeded].
  - split; [auto|]. intros [H|(j & Hj & _)]; [exact H|inversion Hj].
  - rewrite IH. setoid_rewrite elem_of_cons.
    destruct (jr_ok j) eqn:Hok.
    + rewrite elem_of_union, elem_of_singleton. naive_solver.
    + split.
      * intros [H|(j' & Hj' & Hi & Ho)]; [auto|]. right. exists j'. auto.
      * intros [H|(j' & [->|Hj'] & Hi & Ho)]; [auto|congruence|].
        right. exists j'. auto.
Qed.

Lemma assigned_other (js : list job_run) :
  forall m i, i ∉ map jr_id js -> assigned js m !! i = m !! i.
Proof.
  induction js as [|j js IH]; intros m i H; [reflexivity|].
  cbn [map assigned] in *. apply not_elem_of_cons in H as [Hne H].
  rewrite IH by exact H. apply lookup_insert_ne. congruence.
Qed.

Lemma assigned_distinct (js : list job_run) :
  NoDup (map jr_id js) ->
  forall m j, j ∈ js -> assigned js m !! jr_id j = Some (jr_output j).
Proof.
  induction js as [|j0 js IH]; intros Hnd m j Hj; [inversion Hj|].
  cbn [map assigned] in *. apply NoDup_cons in Hnd as [Hfresh Hnd].
  apply elem_of_cons in Hj as [->|Hj].
  - rewrite assigned_other by exact Hfresh. apply lookup_insert_eq.
  - apply IH; assumption.
Qed.

(** X17: the round trip of a whole batch.  Every job prints its start
    line, then its command prints whole lines that hold none of the two
    tokens, and the completion line follows if the command succeeded.  On
    such a stream [ParseOutput] returns, given one unit of fuel per job:
    it empties the buffer, adds to the successful set exactly the indices
    of the jobs that succeeded, assigns to every index of the stream the
    output of its command, and leaves the other entries of the output map
    as they were. *)
Theorem ParseOutput_batch_stream (js : list job_run) (fuel : nat)
    (succ : gset Z) (outs : gmap Z str) :
  Forall plain_run js ->
  slen (batch_stream js) < npos ->
  (length js <= fuel)%nat ->
  exists r,
    ParseOutput fuel (batch_stream js) succ outs = Ret r
    /\ p_buf r = []
    /\ (forall i, i ∈ p_successful_jobs r
          <-> i ∈ succ \/ exists j, j ∈ js /\ jr_id j = i /\ jr_ok j = true)
    /\ (forall i, i ∉ map jr_id js -> p_job_output r !! i = outs !! i)
    /\ (NoDup (map jr_id js) ->
        forall j, j ∈ js -> p_job_output r !! jr_id j = Some (jr_output j)).
Proof.
  intros Hjs Hlen Hfuel. eexists. split.
  - apply ParseOutput_stream; assumption.
  - cbn [p_buf p_successful_jobs p_job_output]. split_and!.
    + reflexivity.
    + apply succeeded_spec.
    + apply assigned_other.
    + intros Hnd. apply assigned_distinct, Hnd.
Qed.

(** An instance: three jobs, the second of which fails after printing two
    lines. *)
Lemma ParseOutput_batch_stream_witness :
  exists r,
    ParseOutput 3 (batch_stream runs_A_fail_C) ∅ ∅ = Ret r
    /\ p_buf r = []
    /\ (forall i, i ∈ p_successful_jobs r
          <-> i ∈ (∅ : gset Z)
              \/ exists j, j ∈ runs_A_fail_C /\ jr_id j = i
                           /\ jr_ok j = true)
    /\ (forall i, i ∉ map jr_id runs_A_fail_C ->
          p_job_output r !! i = (∅ : gmap Z str) !! i)
    /\ (NoDup (map jr_id runs_A_fail_C) ->
        forall j, j ∈ runs_A_fail_C ->
          p_job_output r !! jr_id j = Some (jr_output j)).
Proof.
  apply (ParseOutput_batch_stream runs_A_fail_C 3 ∅ ∅).
  - unfold runs_A_fail_C.
    repeat (apply Forall_cons; split);
      [| | |solve [constructor]];
      (unfold plain_run, whole_lines; cbn [jr_id jr_output]; split_and!;
       [vm_compute; discriminate|vm_compute; discriminate
       |reflexivity|reflexivity
       |intros c H; vm_compute in H; injection H as <-; reflexivity]).
  - vm_compute. reflexivity.
  - cbn. lia.
Defined.

(** ** SubprocessSet::DoWork: a new batch while a batch is active *)

Lemma DoWork_flush_new_batch fuel s os returned s1 t0 :
  procs_to_batch_ s <> [] ->
  DoWork_flush fuel s os = Ret (returned, s1, t0) ->
  returned = false
  /\ batch_process_ s1 = Some (next_ptr s)
  /\ (exists b1, heap s1 = <[ next_ptr s := OBatch b1 ]> (heap s)
                 /\ GetChildren b1 = map fst (procs_to_batch_ s))
  /\ finished_ s1 = finished_ s
  /\ (running_ s1 = running_ s \/ running_ s1 = running_ s ++ [next_ptr s])
  /\ procs_to_batch_ s1 = [].
Proof.
  intros Hne. unfold DoWork_flush.
  destruct (procs_to_batch_ s) as [|sp rest] eqn:E; [contradiction|].
  cbn [length Nat.eqb negb].
  destruct (BatchSubprocess_new _ _ _) as [[b t0']| | | |] eqn:Hnew;
    cbn [mbind outcome_bind obind]; try discriminate.
  apply BatchSubprocess_new_children in Hnew. cbn [alloc].
  destruct (Start _ _ _) as [[[ok p1] t1]| | | |] eqn:Hstart;
    cbn [mbind outcome_bind obind]; try discriminate.
  apply Start_returns_true in Hstart. cbn in Hstart. subst ok. cbn [negb].
  destruct (negb (child_ p1 =? NULL)); intros [= <- <- _];
    cbn [set_procs_to_batch push_running set_running store set_heap
         set_batch_process batch_process_ heap finished_ running_
         procs_to_batch_];
    (split_and!; try reflexivity; [|auto]);
    (exists (set_base b p1); split; [apply insert_insert_eq|exact Hnew]).
Qed.

(** X18: a second batch takes the place of the first.  Jobs are pending
    while the active batch [bp] is still running, and the event that
    [DoWork] waits for is the end of [bp]'s output.  [DoWork] first creates
    the batch of the pending jobs and overwrites [batch_process_] with it,
    so [bp] is no longer recognised as a batch: its output is not parsed,
    [bp] itself is appended to [finished_] like an ordinary job, and none of
    its children is. *)
Theorem DoWork_new_batch_displaces_active (fuel : nat) (s s' : SubprocessSet)
    (os : os_DoWork) (bp : nat) (b : BatchSubprocess) (p1 : Subprocess)
    (t1 t : list os_call) (stop : bool) :
  batch_process_ s = Some bp ->
  heap s !! bp = Some (OBatch b) ->
  (bp < next_ptr s)%nat ->
  bp ∈ running_ s ->
  procs_to_batch_ s <> [] ->
  dw_subproc os = Some bp ->
  OnPipeReady (base b) (dw_pipe os) = Ret (p1, t1) ->
  Done p1 = true ->
  DoWork fuel s os = Ret (stop, s', t) ->
  stop = false
  /\ batch_process_ s' = Some (next_ptr s)
  /\ active_children s' = map fst (procs_to_batch_ s)
  /\ finished_ s' = finished_ s ++ [bp]
  /\ (bp ∉ running_ s')
  /\ heap s' !! bp = Some (OBatch (set_base b p1)).
Proof.
  intros Hbp Hb Hlt Hrun Hpend Hkey Hpipe Hdone. unfold DoWork.
  destruct (DoWork_flush fuel s os) as [[[returned s1] t0]| | | |] eqn:Hflush;
    cbn [mbind outcome_bind obind]; try discriminate.
  destruct (DoWork_flush_new_batch _ _ _ _ _ _ Hpend Hflush)
    as (-> & Hbp1 & (b1 & Hheap & Hchildren) & Hfin & Hrunning & Hnone).
  assert (Hne : next_ptr s <> bp) by lia.
  assert (Hb1 : heap s1 !! bp = Some (OBatch b))
    by (rewrite Hheap, lookup_insert_ne; assumption).
  assert (Hrun1 : bp ∈ running_ s1)
    by (destruct Hrunning as [-> | ->]; [|apply elem_of_app; left]; exact Hrun).
  unfold DoWork_wait.
  destruct (negb (dw_GetQueuedCompletionStatus os) && _);
    cbn [mbind outcome_bind obind]; [discriminate|].
  rewrite Hkey, (deref_live _ _ _ Hb1). cbn [mbind outcome_bind obind base_of].
  rewrite Hpipe. cbn [mbind outcome_bind obind]. rewrite Hdone.
  change (batch_process_ (store s1 bp (with_base (OBatch b) p1)))
    with (batch_process_ s1).
  change (running_ (store s1 bp (with_base (OBatch b) p1)))
    with (running_ s1).
  rewrite Hbp1.
  destruct (decide (Some (next_ptr s) = Some bp)) as [[= E]|_];
    [contradiction|].
  destruct (decide (length (remove_all bp (running_ s1))
                    = length (running_ s1))) as [E|_];
    [exfalso; exact (remove_all_shorter _ _ Hrun1 E)|].
  intros [= <- <- _].
  split_and!; try reflexivity.
  - cbn [set_running push_finished set_finished store set_heap
         batch_process_]. exact Hbp1.
  - unfold active_children.
    cbn [set_running push_finished set_finished store set_heap
         batch_process_ heap with_base].
    rewrite Hbp1, lookup_insert_ne by lia.
    rewrite Hheap, lookup_insert_eq. exact Hchildren.
  - cbn [set_running push_finished set_finished store set_heap finished_].
    rewrite Hfin. reflexivity.
  - cbn [set_running running_]. unfold remove_all.
    intros Hin. apply list_elem_of_filter in Hin as [Hx _]. congruence.
  - cbn [set_running push_finished set_finished store set_heap heap
         with_base]. apply lookup_insert_eq.
Qed.

(** An instance: a fourth job is queued while the batch of the three jobs
    is running, and the pipe of that batch is closed. *)
Lemma DoWork_new_batch_displaces_active_witness :
  false = false
  /\ batch_process_ second_batch_started
     = Some (next_ptr batch_running_one_queued)
  /\ active_children second_batch_started
     = map fst (procs_to_batch_ batch_running_one_queued)
  /\ finished_ second_batch_started
     = finished_ batch_running_one_queued ++ [3%nat]
  /\ (3%nat ∉ running_ second_batch_started)
  /\ heap second_batch_started !! 3%nat
     = Some (OBatch (set_base (batch_at batch_running_one_queued 3)
                       (set_pipe (base (batch_at batch_running_one_queued 3))
                                 NULL))).
Proof.
  apply (DoWork_new_batch_displaces_active 3 batch_running_one_queued
           second_batch_started (event_for 3 pipe_broken 0)
           3 (batch_at batch_running_one_queued 3)
           (set_pipe (base (batch_at batch_running_one_queued 3)) NULL)
           [CloseHandle (pipe_ (base (batch_at batch_running_one_queued 3)))]
           (calls_of (DoWork 3 batch_running_one_queued
                        (event_for 3 pipe_broken 0))) false).
  - vm_compute. reflexivity.
  - vm_compute. reflexivity.
  - vm_compute. lia.
  - compute_done.
  - vm_compute. discriminate.
  - reflexivity.
  - reflexivity.
  - reflexivity.
  - vm_compute. reflexivity.
Defined.

(** ** From the stream of a batch to the results of its jobs *)

Lemma indexed_run_id (js : list job_run) k j :
  map jr_id js = map Z.of_nat (seq 0 (length js)) ->
  js !! k = Some j -> jr_id j = Z.of_nat k.
Proof.
  intros Hids Hj.
  assert (H : map jr_id js !! k = Some (jr_id j))
    by (change (map jr_id js) with (jr_id <$> js);
        rewrite list_lookup_fmap, Hj; reflexivity).
  rewrite Hids in H. change (map Z.of_nat ?l) with (Z.of_nat <$> l) in H.
  rewrite list_lookup_fmap in H.
  destruct (seq 0 (length js) !! k) as [x|] eqn:E; [|discriminate].
  apply lookup_seq in E as [-> _]. cbn in H. congruence.
Qed.

(** X19: the results of a batch reach its jobs.  The completion reported
    is that of the active batch, whether [GetQueuedCompletionStatus]
    succeeded or failed with a broken pipe; the batch is done and what it
    has printed is the stream of its jobs: job number [i] printed index
    [i].  Then the part of [DoWork] from the wait on returns, the children
    are appended to [finished_] in the order they were added, child number
    [i] carries an override status, which is success if job [i] succeeded
    and the exit status of the batch process otherwise, and the output of
    job [i]; the batch object is deleted: it is no longer in the store nor
    in [running_], [batch_process_] is null, and after the calls of
    [OnPipeReady] and of [Finish] its script file is removed and its
    process handles are released. *)
Theorem DoWork_wait_batch_results (fuel : nat) (s : SubprocessSet)
    (os : os_DoWork) (bp : nat) (b : BatchSubprocess) (p1 : Subprocess)
    (t1 : list os_call) (js : list job_run) :
  dw_GetQueuedCompletionStatus os = true
  \/ dw_GetQueuedCompletionStatus_error os = ERROR_BROKEN_PIPE ->
  dw_subproc os = Some bp ->
  batch_process_ s = Some bp ->
  heap s !! bp = Some (OBatch b) ->
  OnPipeReady (base b) (dw_pipe os) = Ret (p1, t1) ->
  Done p1 = true ->
  buf_ p1 = batch_stream js ->
  Forall plain_run js ->
  map jr_id js = map Z.of_nat (seq 0 (length js)) ->
  length js = length (GetChildren b) ->
  slen (batch_stream js) < npos ->
  Z.of_nat (length (GetChildren b)) <= INT_MAX + 1 ->
  (length (GetChildren b) <= fuel)%nat ->
  NoDup (GetChildren b) ->
  bp ∉ GetChildren b ->
  Forall (fun c => is_Some (heap s !! c)) (GetChildren b) ->
  exists s' t3,
    DoWork_wait fuel s os
    = Ret (false, s',
           t1 ++ (Finish p1 (dw_exit_code os)).2
           ++ RemoveFile (script_filename_ b) :: t3)
    /\ Subprocess_delete (set_buf (Finish p1 (dw_exit_code os)).1.2 [])
                         (dw_close_ok os) (dw_delete_exit_code os) = Ret t3
    /\ finished_ s' = finished_ s ++ GetChildren b
    /\ running_ s' = remove_all bp (running_ s)
    /\ batch_process_ s' = None
    /\ heap s' !! bp = None
    /\ forall i c j, GetChildren b !! i = Some c -> js !! i = Some j ->
         exists o,
           heap s !! c = Some o
           /\ heap s' !! c
              = Some (with_base o
                        (set_buf
                           (set_override (base_of o)
                              (if jr_ok j then ExitSuccess
                               else (Finish p1 (dw_exit_code os)).1.1))
                           (jr_output j))).
Proof.
  intros Hok Hkey Hactive Hobj Hpipe Hdone Hbuf Hjs Hids Hn Hlen Hmax Hfuel
         Hnd Hself Hlive.
  set (parsed := {| p_buf := []; p_successful_jobs := succeeded js ∅;
                    p_job_output := assigned js ∅ |}).
  assert (Hparse : ParseOutput fuel (buf_ (Finish p1 (dw_exit_code os)).1.2)
                               ∅ ∅ = Ret parsed).
  { rewrite (proj2 (Finish_keeps_pipe_and_buf p1 (dw_exit_code os))), Hbuf.
    apply ParseOutput_stream; [exact Hjs|exact Hlen|lia]. }
  destruct (DoWork_wait_batch_done fuel s os bp b p1 t1 parsed)
    as (s' & t & Hwait & Hfin & Hrun & Hnone & Hgone & (t3 & Hdel & Ht)
        & Hchildren); try assumption.
  subst t. exists s', t3. split_and!; try assumption.
  intros i c j Hc Hj. destruct (Hchildren i c Hc) as (o & Ho & Ho').
  exists o. split; [exact Ho|]. rewrite Ho'. do 2 f_equal.
  unfold child_result. cbn [p_successful_jobs p_job_output parsed].
  pose proof (indexed_run_id js i j Hids Hj) as Hid.
  assert (Hin : j ∈ js) by (eapply list_elem_of_lookup_2, Hj).
  assert (Hdistinct : NoDup (map jr_id js)).
  { rewrite Hids. apply (NoDup_fmap_2 Z.of_nat), NoDup_seq. }
  rewrite <- Hid, (assigned_distinct js Hdistinct ∅ j Hin). cbn [default].
  f_equal. f_equal.
  destruct (decide (jr_id j ∈ succeeded js ∅)) as [Hs|Hs].
  - apply succeeded_spec in Hs as [Hs|(j' & Hj' & Hsame & Hok')];
      [set_solver|].
    apply list_elem_of_lookup in Hj' as [k Hk].
    pose proof (indexed_run_id js k j' Hids Hk) as Hk'.
    assert (k = i) by lia. subst k.
    assert (j' = j) by congruence. subst j'. rewrite Hok'. reflexivity.
  - destruct (jr_ok j) eqn:Hokj; [|reflexivity].
    exfalso. apply Hs. apply succeeded_spec. right. exists j. auto.
Qed.

(** An instance: the batch of the three jobs has printed its stream and
    its pipe is closed; the completion of its read is reported failed with
    a broken pipe, and the exit code of the batch process is 1. *)
Lemma DoWork_wait_batch_results_witness :
  (dw_GetQueuedCompletionStatus (broken_completion_for 3 pipe_broken 1) = true
   \/ dw_GetQueuedCompletionStatus_error
        (broken_completion_for 3 pipe_broken 1) = ERROR_BROKEN_PIPE)
  /\ exists s' t3,
    DoWork_wait 3 batch_output_read (broken_completion_for 3 pipe_broken 1)
    = Ret (false, s',
           [CloseHandle (pipe_ (base (batch_at batch_output_read 3)))]
           ++ (Finish (set_pipe (base (batch_at batch_output_read 3)) NULL)
                      1).2
           ++ RemoveFile (script_filename_ (batch_at batch_output_read 3))
              :: t3)
    /\ Subprocess_delete
         (set_buf (Finish (set_pipe (base (batch_at batch_output_read 3))
                                    NULL) 1).1.2 [])
         true 0 = Ret t3
    /\ finished_ s'
       = finished_ batch_output_read
         ++ GetChildren (batch_at batch_output_read 3)
    /\ running_ s' = remove_all 3%nat (running_ batch_output_read)
    /\ batch_process_ s' = None
    /\ heap s' !! 3%nat = None
    /\ forall i c j,
         GetChildren (batch_at batch_output_read 3) !! i = Some c ->
         runs_A_false_C !! i = Some j ->
         exists o,
           heap batch_output_read !! c = Some o
           /\ heap s' !! c
              = Some (with_base o
                        (set_buf
                           (set_override (base_of o)
                              (if jr_ok j then ExitSuccess
                               else (Finish
                                       (set_pipe
                                          (base (batch_at batch_output_read 3))
                                          NULL) 1).1.1))
                           (jr_output j))).
Proof.
  split; [right; reflexivity|].
  apply (DoWork_wait_batch_results 3 batch_output_read
           (broken_completion_for 3 pipe_broken 1) 3
           (batch_at batch_output_read 3)
           (set_pipe (base (batch_at batch_output_read 3)) NULL)
           [CloseHandle (pipe_ (base (batch_at batch_output_read 3)))]
           runs_A_false_C).
  - right. reflexivity.
  - reflexivity.
  - vm_compute. reflexivity.
  - vm_compute. reflexivity.
  - reflexivity.
  - reflexivity.
  - vm_compute. reflexivity.
  - unfold runs_A_false_C.
    repeat (apply Forall_cons; split);
      [| | |solve [constructor]];
      (unfold plain_run, whole_lines; cbn [jr_id jr_output]; split_and!;
       [vm_compute; discriminate|vm_compute; discriminate
       |reflexivity|reflexivity
       |intros c H; vm_compute in H;
        first [discriminate H|injection H as <-; reflexivity]]).
  - reflexivity.
  - vm_compute. reflexivity.
  - vm_compute. reflexivity.
  - vm_compute. discriminate.
  - vm_compute. lia.
  - compute_done.
  - compute_done.
  - compute_done.
Defined.

(** ** The set between two calls *)

Lemma children_of_kind (o : option object) :
  children_of o = match kind o with Some (Some ch) => ch | _ => [] end.
Proof.
  destruct o as [[p|b]|]; reflexivity.
Qed.

Lemma kind_insert_base (h : gmap nat object) a o p x :
  h !! a = Some o ->
  kind (<[ a := with_base o p ]> h !! x) = kind (h !! x).
Proof.
  intros Ho. destruct (decide (a = x)) as [->|Hne].
  - rewrite lookup_insert_eq, Ho. destruct o; reflexivity.
  - rewrite lookup_insert_ne by exact Hne. reflexivity.
Qed.

Lemma active_children_same_kind s s' :
  batch_process_ s' = batch_process_ s ->
  (forall a, kind (heap s' !! a) = kind (heap s !! a)) ->
  active_children s' = active_children s.
Proof.
  intros Hb Hk. unfold active_children. rewrite Hb.
  destruct (batch_process_ s) as [bp|]; [|reflexivity].
  rewrite !children_of_kind, Hk. reflexivity.
Qed.

Lemma redistribute_kind fuel :
  forall children child err succ jo s s',
    redistribute fuel children child err succ jo s = Ret s' ->
    forall a, kind (heap s' !! a) = kind (heap s !! a).
Proof.
  induction fuel as [|fuel IH]; intros children child err succ jo s s' H;
    cbn [redistribute] in H;
    (destruct (child <? Z.of_nat (length children));
     [|injection H as <-; reflexivity]); [discriminate|].
  destruct (children !! Z.to_nat child) as [c|]; [|discriminate].
  destruct (deref s c) as [o| | | |] eqn:Ho;
    cbn [mbind outcome_bind obind] in H; try discriminate.
  apply deref_ret in Ho. intros a. rewrite (IH _ _ _ _ _ _ _ H a).
  cbn [push_finished set_finished store set_heap heap].
  apply kind_insert_base, Ho.
Qed.

(** What [Add] changes. *)
Lemma Add_shape s command os h s' t :
  Add s command os = Ret (h, s', t) ->
  batch_process_ s' = batch_process_ s
  /\ (forall a, a <> next_ptr s -> heap s' !! a = heap s !! a)
  /\ kind (heap s' !! next_ptr s) = Some None
  /\ (procs_to_batch_ s' = procs_to_batch_ s ++ [(next_ptr s, command)]
      /\ running_ s' = running_ s /\ finished_ s' = finished_ s
      \/ procs_to_batch_ s' = procs_to_batch_ s
         /\ running_ s' = running_ s ++ [next_ptr s]
         /\ finished_ s' = finished_ s
      \/ procs_to_batch_ s' = procs_to_batch_ s
         /\ running_ s' = running_ s
         /\ finished_ s' = finished_ s ++ [next_ptr s]).
Proof.
  unfold Add. cbn [alloc batch_mode_].
  destruct (batch_mode_ s).
  - intros [= _ <- _]. cbn. split_and!; try reflexivity.
    + intros a Ha. apply lookup_insert_ne. congruence.
    + rewrite lookup_insert_eq. reflexivity.
    + left. auto.
  - destruct (Start Subprocess_new command (ad_start os))
      as [[[ok p1] t1]| | | |] eqn:Hstart;
      cbn [mbind outcome_bind obind]; try discriminate.
    apply Start_returns_true in Hstart. cbn in Hstart. subst ok. cbn [negb].
    destruct (negb (child_ p1 =? NULL)); intros [= _ <- _]; cbn;
      (split_and!; try reflexivity;
       [intros a Ha; rewrite !lookup_insert_ne by congruence; reflexivity
       |rewrite lookup_insert_eq; reflexivity
       |auto]).
Qed.

Lemma DoWork_flush_next_ptr fuel s os returned s' t :
  procs_to_batch_ s <> [] ->
  DoWork_flush fuel s os = Ret (returned, s', t) ->
  next_ptr s' = S (next_ptr s).
Proof.
  intros Hne. unfold DoWork_flush.
  destruct (procs_to_batch_ s) as [|sp rest] eqn:E; [contradiction|].
  cbn [length Nat.eqb negb].
  destruct (BatchSubprocess_new _ _ _) as [[b t0]| | | |];
    cbn [mbind outcome_bind obind]; try discriminate.
  cbn [alloc].
  destruct (Start _ _ _) as [[[ok p1] t1]| | | |] eqn:Hstart;
    cbn [mbind outcome_bind obind]; try discriminate.
  apply Start_returns_true in Hstart. cbn in Hstart. subst ok. cbn [negb].
  destruct (negb (child_ p1 =? NULL)); intros [= _ <- _]; reflexivity.
Qed.

(** What the part of [DoWork] from the wait on changes: nothing but the
    state of the process of the event; or that process moves from
    [running_] to [finished_]; or the active batch hands its children to
    [finished_] and is deleted. *)
Lemma DoWork_wait_shape fuel s os stop s' t :
  DoWork_wait fuel s os = Ret (stop, s', t) ->
  next_ptr s' = next_ptr s
  /\ procs_to_batch_ s' = procs_to_batch_ s
  /\ ((forall a, kind (heap s' !! a) = kind (heap s !! a))
      /\ batch_process_ s' = batch_process_ s
      /\ (running_ s' = running_ s /\ finished_ s' = finished_ s
          \/ exists x,
               x ∈ running_ s
               /\ batch_process_ s <> Some x
               /\ running_ s' = remove_all x (running_ s)
               /\ finished_ s' = finished_ s ++ [x])
      \/ exists bp b,
           batch_process_ s = Some bp
           /\ heap s !! bp = Some (OBatch b)
           /\ batch_process_ s' = None
           /\ running_ s' = remove_all bp (running_ s)
           /\ finished_ s' = finished_ s ++ GetChildren b
           /\ heap s' !! bp = None
           /\ (forall a, a <> bp -> kind (heap s' !! a) = kind (heap s !! a))).
Proof.
  unfold DoWork_wait.
  destruct (negb _ && negb _); [discriminate|].
  destruct (dw_subproc os) as [subproc|];
    [|intros [= _ <- _]; split_and!; try reflexivity; left; auto].
  destruct (deref s subproc) as [o| | | |] eqn:Ho;
    cbn [mbind outcome_bind obind]; try discriminate.
  apply deref_ret in Ho.
  destruct (OnPipeReady (base_of o) (dw_pipe os)) as [[p1 t1]| | | |];
    cbn [mbind outcome_bind obind]; try discriminate.
  assert (Hk1 : forall a,
             kind (heap (store s subproc (with_base o p1)) !! a)
             = kind (heap s !! a))
    by (intros a; apply kind_insert_base, Ho).
  destruct (Done p1);
    [|intros [= _ <- _]; split_and!; try reflexivity; left; auto].
  change (batch_process_ (store s subproc (with_base o p1)))
    with (batch_process_ s).
  destruct (decide (batch_process_ s = Some subproc)) as [Hbatch|Hbatch].
  - destruct o as [p|b]; [discriminate|].
    destruct (Finish p1 _) as [[err p2] t2].
    destruct (ParseOutput _ _ _ _) as [parsed| | | |];
      cbn [mbind outcome_bind obind]; try discriminate.
    destruct (redistribute _ _ _ _ _ _ _) as [s3| | | |] eqn:Hred;
      cbn [mbind outcome_bind obind]; try discriminate.
    pose proof (redistribute_kind _ _ _ _ _ _ _ _ Hred) as Hk3.
    apply redistribute_lists in Hred; [|split; [lia|reflexivity]|lia].
    destruct Hred as (Hf & Hr & Hp & _ & Hn).
    cbn [store set_heap with_base finished_ running_ procs_to_batch_
         next_ptr] in Hf, Hr, Hp, Hn.
    change (Z.to_nat 0) with 0%nat in Hf. rewrite drop_0 in Hf.
    destruct (deref _ subproc) as [[p|b3]| | | |];
      cbn [mbind outcome_bind obind]; try discriminate.
    destruct (BatchSubprocess_delete _ _ _) as [t3| | | |];
      cbn [mbind outcome_bind obind]; try discriminate.
    intros [= _ <- _].
    cbn [free set_heap set_batch_process set_running running_ finished_
         procs_to_batch_ batch_process_ heap next_ptr].
    split_and!; [exact Hn|exact Hp|].
    right. exists subproc, b. split_and!; try assumption; try reflexivity.
    + rewrite Hr. reflexivity.
    + apply lookup_delete_eq.
    + intros a Ha. rewrite lookup_delete_ne by congruence.
      rewrite Hk3. cbn [store set_heap heap].
      rewrite !lookup_insert_ne by congruence. reflexivity.
  - destruct (decide (length (remove_all subproc
                        (running_ (store s subproc (with_base o p1))))
                      = length (running_ (store s subproc (with_base o p1)))))
      as [Hsame|Hchanged]; intros [= _ <- _];
      [split_and!; try reflexivity; left; auto|].
    apply remove_all_changed in Hchanged.
    cbn [store set_heap running_] in Hchanged.
    split_and!; try reflexivity. left. split_and!; [exact Hk1|reflexivity|].
    right. exists subproc. split_and!; try assumption; reflexivity.
Qed.

(** *** Each operation keeps the invariant *)

Lemma set_inv_new stale : set_inv (SubprocessSet_new stale).
Proof.
  assert (Hc : active_children (SubprocessSet_new stale) = []).
  { unfold active_children, SubprocessSet_new. cbn [batch_process_ heap].
    destruct stale; [rewrite lookup_empty|]; reflexivity. }
  split; unfold tracked; rewrite ?Hc; cbn [SubprocessSet_new running_
    finished_ procs_to_batch_ heap next_ptr batch_process_ map app].
  - constructor.
  - intros a Ha. rewrite lookup_empty in Ha. contradiction.
  - intros a Ha. inversion Ha.
  - intros a Ha. inversion Ha.
  - intros bp ch _ Hk. rewrite lookup_empty in Hk. discriminate.
Qed.

Lemma SetBatchMode_inv s b os : set_inv s -> set_inv (SetBatchMode s b os).
Proof.
  intros [H1 H2 H3 H4 H5]. unfold SetBatchMode.
  destruct b; [destruct (bm_SearchPath os =? 0)|];
    (split; [exact H1|exact H2|exact H3|exact H4|exact H5]).
Qed.

Lemma NextFinished_inv s : set_inv s -> set_inv (NextFinished s).2.
Proof.
  intros Hinv. unfold NextFinished.
  destruct (finished_ s) as [|x rest] eqn:E; [exact Hinv|].
  destruct Hinv as [H1 H2 H3 H4 H5]. cbn [snd].
  assert (Hsub : forall a, a ∈ tracked (set_finished s rest) -> a ∈ tracked s).
  { intros a Ha. unfold tracked in *.
    change (active_children (set_finished s rest))
      with (active_children s) in Ha.
    cbn [set_finished running_ finished_ procs_to_batch_] in Ha.
    rewrite E. clear -Ha. set_unfold. naive_solver. }
  split.
  - unfold tracked in *.
    change (active_children (set_finished s rest)) with (active_children s).
    cbn [set_finished running_ finished_ procs_to_batch_].
    rewrite E in H1. clear -H1.
    set (P := map fst (procs_to_batch_ s)) in *.
    set (C := active_children s) in *. clearbody P C.
    split_lists. naive_solver.
  - exact H2.
  - intros a Ha. apply H3, Hsub, Ha.
  - exact H4.
  - intros bp ch Hbp Hk. specialize (H5 bp ch Hbp Hk).
    cbn [set_finished finished_]. rewrite E in H5. clear -H5. set_solver.
Qed.

Lemma active_children_Add s command os h s' t :
  set_inv s -> Add s command os = Ret (h, s', t) ->
  active_children s' = active_children s.
Proof.
  intros [_ Hbound _ _ _] Hadd.
  destruct (Add_shape _ _ _ _ _ _ Hadd) as (Hbp & Hold & Hnew & _).
  unfold active_children. rewrite Hbp.
  destruct (batch_process_ s) as [bp|]; [|reflexivity].
  destruct (decide (bp = next_ptr s)) as [->|Hne].
  - rewrite !children_of_kind, Hnew.
    destruct (kind (heap s !! next_ptr s)) as [k|] eqn:Hk; [|reflexivity].
    assert (next_ptr s < next_ptr s)%nat; [|lia].
    apply Hbound. rewrite Hk. discriminate.
  - rewrite Hold by exact Hne. reflexivity.
Qed.

Lemma Add_inv s command os h s' t :
  set_inv s -> Add s command os = Ret (h, s', t) -> set_inv s'.
Proof.
  intros Hinv Hadd.
  pose proof (active_children_Add _ _ _ _ _ _ Hinv Hadd) as Hch.
  destruct (Add_handle _ _ _ _ _ _ Hadd) as [_ Hnext].
  destruct (Add_shape _ _ _ _ _ _ Hadd) as (Hbp & Hold & Hnew & Hlists).
  destruct Hinv as [H1 H2 H3 H4 H5].
  set (n := next_ptr s) in *.
  assert (Hfresh : n ∉ tracked s).
  { intros Hin. assert (n < n)%nat; [|lia]. apply H2, H3, Hin. }
  assert (Hkeep : forall a, kind (heap s !! a) <> None ->
                            heap s' !! a = heap s !! a).
  { intros a Ha. apply Hold. specialize (H2 a Ha). lia. }
  assert (Htr : forall a, a ∈ tracked s' -> a = n \/ a ∈ tracked s).
  { intros a Ha. unfold tracked in *. rewrite Hch in Ha.
    destruct Hlists as [(Hp & Hr & Hf)|[(Hp & Hr & Hf)|(Hp & Hr & Hf)]];
      rewrite Hp, Hr, Hf in Ha; rewrite ?map_app in Ha; cbn [map fst] in Ha;
      clear -Ha; set_unfold; naive_solver. }
  split.
  - unfold tracked in *. rewrite Hch.
    set (P := map fst (procs_to_batch_ s)) in *.
    set (C := active_children s) in *.
    destruct Hlists as [(Hp & Hr & Hf)|[(Hp & Hr & Hf)|(Hp & Hr & Hf)]];
      rewrite Hp, Hr, Hf; rewrite ?map_app; cbn [map fst]; fold P;
      clearbody P C; clear -H1 Hfresh; split_lists; naive_solver.
  - intros a Ha. rewrite Hnext.
    destruct (decide (a = n)) as [->|Hne]; [lia|].
    rewrite Hold in Ha by exact Hne. specialize (H2 a Ha). lia.
  - intros a Ha. destruct (Htr a Ha) as [->|Hin];
      [rewrite Hnew; discriminate|].
    rewrite Hkeep by (apply H3, Hin). apply H3, Hin.
  - intros a Ha. rewrite Hch in Ha.
    destruct (decide (a = n)) as [->|Hne]; [exact Hnew|].
    rewrite Hold by exact Hne. apply H4.
    destruct Hlists as [(Hp & _ & _)|[(Hp & _ & _)|(Hp & _ & _)]];
      rewrite Hp in Ha; rewrite ?map_app in Ha; cbn [map fst] in Ha;
      clear -Ha Hne; set_unfold; naive_solver.
  - intros bp ch Hbp' Hk. rewrite Hbp in Hbp'.
    destruct (decide (bp = n)) as [->|Hne];
      [rewrite Hnew in Hk; discriminate|].
    rewrite Hold in Hk by exact Hne. specialize (H5 bp ch Hbp' Hk).
    destruct Hlists as [(_ & _ & Hf)|[(_ & _ & Hf)|(_ & _ & Hf)]];
      rewrite Hf; try exact H5.
    intros Hin. apply elem_of_app in Hin as [Hin|Hin]; [contradiction|].
    apply list_elem_of_singleton in Hin. contradiction.
Qed.

Lemma DoWork_flush_inv fuel s os returned s' t :
  set_inv s -> DoWork_flush fuel s os = Ret (returned, s', t) -> set_inv s'.
Proof.
  intros Hinv Hflush.
  destruct (procs_to_batch_ s) as [|sp rest] eqn:E.
  { unfold DoWork_flush in Hflush. rewrite E in Hflush.
    injection Hflush as _ <- _. exact Hinv. }
  assert (Hne : procs_to_batch_ s <> []) by (rewrite E; discriminate).
  clear E.
  pose proof (DoWork_flush_next_ptr _ _ _ _ _ _ Hne Hflush) as Hnext.
  destruct (DoWork_flush_new_batch _ _ _ _ _ _ Hne Hflush)
    as (_ & Hbp & (b1 & Hheap & Hchildren) & Hfin & Hrun & Hpend).
  destruct Hinv as [H1 H2 H3 H4 H5].
  set (n := next_ptr s) in *.
  assert (Hch : active_children s' = map fst (procs_to_batch_ s)).
  { unfold active_children. rewrite Hbp, Hheap, lookup_insert_eq.
    exact Hchildren. }
  assert (Hfresh : n ∉ tracked s).
  { intros Hin. assert (n < n)%nat; [|lia]. apply H2, H3, Hin. }
  assert (Hnew : kind (heap s' !! n) = Some (Some (GetChildren b1)))
    by (rewrite Hheap, lookup_insert_eq; reflexivity).
  assert (Hold : forall a, a <> n -> heap s' !! a = heap s !! a)
    by (intros a Ha; rewrite Hheap; apply lookup_insert_ne; congruence).
  assert (Htr : forall a, a ∈ tracked s' -> a = n \/ a ∈ tracked s).
  { intros a Ha. unfold tracked in *. rewrite Hch, Hpend, Hfin in Ha.
    destruct Hrun as [Hr|Hr]; rewrite Hr in Ha; cbn [map app] in Ha;
      clear -Ha; set_unfold; naive_solver. }
  split.
  - unfold tracked in *. rewrite Hch, Hpend, Hfin. cbn [map app].
    set (P := map fst (procs_to_batch_ s)) in *.
    set (C := active_children s) in *.
    destruct Hrun as [Hr|Hr]; rewrite Hr; clearbody P C;
      clear -H1 Hfresh; split_lists; naive_solver.
  - intros a Ha. rewrite Hnext.
    destruct (decide (a = n)) as [->|Hna]; [lia|].
    rewrite Hold in Ha by exact Hna. specialize (H2 a Ha). lia.
  - intros a Ha. destruct (Htr a Ha) as [->|Hin];
      [rewrite Hnew; discriminate|].
    rewrite Hold by (intros ->; contradiction). apply H3, Hin.
  - intros a Ha. rewrite Hch, Hpend in Ha. cbn [map app] in Ha.
    assert (Hin : a ∈ map fst (procs_to_batch_ s) ++ active_children s)
      by (apply elem_of_app; left; exact Ha).
    rewrite Hold; [apply H4, Hin|].
    intros ->. apply Hfresh. unfold tracked.
    apply elem_of_app. right. apply elem_of_app. right. exact Hin.
  - intros bp ch Hbp' _. rewrite Hbp in Hbp'. injection Hbp' as <-.
    rewrite Hfin. intros Hin. apply Hfresh. unfold tracked.
    apply elem_of_app. right. apply elem_of_app. left. exact Hin.
Qed.

Lemma DoWork_wait_inv fuel s os stop s' t :
  set_inv s -> DoWork_wait fuel s os = Ret (stop, s', t) -> set_inv s'.
Proof.
  intros [H1 H2 H3 H4 H5] Hwait.
  destruct (DoWork_wait_shape _ _ _ _ _ _ Hwait)
    as (Hnext & Hpend & [(Hk & Hbp & Hlists)|Hdone]).
  - (* the objects keep their kinds *)
    assert (Hch : active_children s' = active_children s)
      by (apply active_children_same_kind; assumption).
    assert (Htr : forall a, a ∈ tracked s' -> a ∈ tracked s).
    { intros a Ha. unfold tracked in *. rewrite Hch, Hpend in Ha.
      destruct Hlists as [[Hr Hf]|(x & Hx & _ & Hr & Hf)];
        rewrite Hr, Hf in Ha; [exact Ha|].
      unfold remove_all in Ha. clear -Ha Hx.
      set_unfold. setoid_rewrite list_elem_of_filter in Ha. naive_solver. }
    split.
    + unfold tracked in *. rewrite Hch, Hpend.
      set (P := map fst (procs_to_batch_ s)) in *.
      set (C := active_children s) in *. clearbody P C.
      destruct Hlists as [[Hr Hf]|(x & Hx & _ & Hr & Hf)];
        rewrite Hr, Hf; [exact H1|].
      unfold remove_all. clear -H1 Hx. split_lists.
      setoid_rewrite list_elem_of_filter.
      split_and!; try apply NoDup_filter; naive_solver.
    + intros a Ha. rewrite Hnext. rewrite Hk in Ha. apply H2, Ha.
    + intros a Ha. rewrite Hk. apply H3, Htr, Ha.
    + intros a Ha. rewrite Hk. apply H4. rewrite Hch, Hpend in Ha. exact Ha.
    + intros bp ch Hbp' Hkind. rewrite Hbp in Hbp'. rewrite Hk in Hkind.
      specialize (H5 bp ch Hbp' Hkind).
      destruct Hlists as [[_ Hf]|(x & _ & Hnb & _ & Hf)]; rewrite Hf;
        [exact H5|].
      intros Hin. apply elem_of_app in Hin as [Hin|Hin]; [contradiction|].
      apply list_elem_of_singleton in Hin. subst x. contradiction.
  - (* the active batch is done and deleted *)
    destruct Hdone as (bp & b & Hbp & Hb & Hnone & Hr & Hf & Hgone & Hk).
    assert (Hchs : active_children s = GetChildren b).
    { unfold active_children. rewrite Hbp, Hb. reflexivity. }
    assert (Hch : active_children s' = []).
    { unfold active_children. rewrite Hnone. reflexivity. }
    assert (Hnotfin : bp ∉ finished_ s).
    { apply (H5 bp (GetChildren b) Hbp). rewrite Hb. reflexivity. }
    assert (Hjob : forall a,
               a ∈ map fst (procs_to_batch_ s) ++ GetChildren b -> a <> bp).
    { intros a Ha ->. rewrite <- Hchs in Ha. apply H4 in Ha.
      rewrite Hb in Ha. discriminate. }
    assert (Htr : forall a, a ∈ tracked s' -> a <> bp /\ a ∈ tracked s).
    { intros a Ha. unfold tracked in *. rewrite Hchs.
      rewrite Hch, Hpend, Hr, Hf, app_nil_r in Ha. unfold remove_all in Ha.
      apply elem_of_app in Ha as [Ha|Ha].
      { apply list_elem_of_filter in Ha as [Hne Ha].
        split; [exact Hne|]. apply elem_of_app. left. exact Ha. }
      apply elem_of_app in Ha as [Ha|Ha].
      { apply elem_of_app in Ha as [Ha|Ha].
        - split; [intros ->; contradiction|].
          apply elem_of_app. right. apply elem_of_app. left. exact Ha.
        - split; [apply Hjob; apply elem_of_app; right; exact Ha|].
          do 3 (apply elem_of_app; right). exact Ha. }
      split; [apply Hjob; apply elem_of_app; left; exact Ha|].
      do 2 (apply elem_of_app; right). apply elem_of_app. left. exact Ha. }
    split.
    + unfold tracked in *. rewrite Hch, Hpend, Hr, Hf. rewrite Hchs in H1.
      unfold remove_all.
      set (P := map fst (procs_to_batch_ s)) in *.
      set (C := GetChildren b) in *. clearbody P C. clear -H1.
      split_lists. setoid_rewrite list_elem_of_filter.
      split_and!; try apply NoDup_filter; naive_solver.
    + intros a Ha. rewrite Hnext.
      destruct (decide (a = bp)) as [->|Hne];
        [rewrite Hgone in Ha; contradiction|].
      rewrite Hk in Ha by exact Hne. apply H2, Ha.
    + intros a Ha. destruct (Htr a Ha) as [Hne Hin].
      rewrite Hk by exact Hne. apply H3, Hin.
    + intros a Ha. rewrite Hch, Hpend, app_nil_r in Ha.
      assert (Hin : a ∈ map fst (procs_to_batch_ s) ++ GetChildren b)
        by (apply elem_of_app; left; exact Ha).
      rewrite Hk by (apply Hjob, Hin). apply H4. rewrite Hchs. exact Hin.
    + intros bp' ch Hbp'. rewrite Hnone in Hbp'. discriminate.
Qed.

Lemma DoWork_inv fuel s os stop s' t :
  set_inv s -> DoWork fuel s os = Ret (stop, s', t) -> set_inv s'.
Proof.
  intros Hinv. unfold DoWork.
  destruct (DoWork_flush fuel s os) as [[[returned s1] t0]| | | |] eqn:Hflush;
    cbn [mbind outcome_bind obind]; try discriminate.
  pose proof (DoWork_flush_inv _ _ _ _ _ _ Hinv Hflush) as Hinv1.
  destruct returned; [intros [= _ <- _]; exact Hinv1|].
  destruct (DoWork_wait fuel s1 os) as [[[stop' s2] t1]| | | |] eqn:Hwait;
    cbn [mbind outcome_bind obind]; try discriminate.
  intros [= _ <- _]. eapply DoWork_wait_inv; eassumption.
Qed.

Lemma reachable_inv s hs : reachable s hs -> set_inv s.
Proof.
  induction 1 as [stale|s hs b os Hr IH|s hs command os h s' t Hr IH Hadd
                  |s hs fuel os stop s' t Hr IH Hwork|s hs Hr IH].
  - apply set_inv_new.
  - apply SetBatchMode_inv, IH.
  - eapply Add_inv; eassumption.
  - eapply DoWork_inv; eassumption.
  - apply NextFinished_inv, IH.
Qed.

(** X20: no handle of the set is ever dangling.  After any sequence of
    [SetBatchMode], [Add], [DoWork] and [NextFinished] calls, whatever
    [batch_process_] held when the set was constructed: no handle is kept
    twice in [running_], [finished_], the pending list and the children of
    the active batch (it occurs there at most once); every handle kept
    there points to a live object; the
    pending jobs are processes; and if [batch_process_] points to a batch,
    the children of that batch are distinct live processes, none of them
    the batch itself, none of them running, finished or pending, and the
    batch is not in the finished queue. *)
Theorem reachable_handles_live (s : SubprocessSet) (hs : list nat) :
  reachable s hs ->
  NoDup (tracked s)
  /\ (forall h, (occurrences h s <= 1)%nat)
  /\ (forall a, a ∈ tracked s -> is_Some (heap s !! a))
  /\ (forall a, a ∈ map fst (procs_to_batch_ s) ->
        exists p, heap s !! a = Some (OSubprocess p))
  /\ (forall bp b,
        batch_process_ s = Some bp ->
        heap s !! bp = Some (OBatch b) ->
        NoDup (GetChildren b)
        /\ (bp ∉ GetChildren b)
        /\ (bp ∉ finished_ s)
        /\ Forall (fun c => exists p, heap s !! c = Some (OSubprocess p))
                  (GetChildren b)
        /\ (forall c, c ∈ GetChildren b ->
              c ∉ running_ s ++ finished_ s ++ map fst (procs_to_batch_ s))).
Proof.
  intros Hr. pose proof (reachable_inv _ _ Hr) as [Hnd _ Hlive Hjobs Hbatch].
  assert (Hproc : forall a, kind (heap s !! a) = Some None ->
                            exists p, heap s !! a = Some (OSubprocess p)).
  { intros a Ha. destruct (heap s !! a) as [[p|b]|]; try discriminate.
    exists p. reflexivity. }
  split_and!.
  - exact Hnd.
  - intros h. apply NoDup_occurs_once, Hnd.
  - intros a Ha. specialize (Hlive a Ha).
    destruct (heap s !! a); [eauto|contradiction].
  - intros a Ha. apply Hproc, Hjobs. apply elem_of_app. left. exact Ha.
  - intros bp b Hbp Hb.
    assert (Hch : active_children s = GetChildren b).
    { unfold active_children. rewrite Hbp, Hb. reflexivity. }
    assert (Hf : bp ∉ finished_ s).
    { apply (Hbatch bp (GetChildren b) Hbp). rewrite Hb. reflexivity. }
    unfold tracked in Hnd. rewrite Hch in *.
    set (P := map fst (procs_to_batch_ s)) in *.
    set (C := GetChildren b) in *. clearbody P C.
    split_and!.
    + rewrite !NoDup_app in Hnd. tauto.
    + intros Hin. assert (Hp : kind (heap s !! bp) = Some None)
        by (apply Hjobs, elem_of_app; right; exact Hin).
      rewrite Hb in Hp. discriminate.
    + exact Hf.
    + apply Forall_forall. intros c Hc. apply Hproc, Hjobs.
      apply elem_of_app. right. exact Hc.
    + intros c Hc. clear -Hnd Hc. split_lists. naive_solver.
Qed.

(** An instance: the batch of the three jobs is running. *)
Lemma reachable_handles_live_witness :
  NoDup (tracked batch_output_read)
  /\ (forall h, (occurrences h batch_output_read <= 1)%nat)
  /\ (forall a, a ∈ tracked batch_output_read ->
                is_Some (heap batch_output_read !! a))
  /\ (forall a, a ∈ map fst (procs_to_batch_ batch_output_read) ->
        exists p, heap batch_output_read !! a = Some (OSubprocess p))
  /\ (forall bp b,
        batch_process_ batch_output_read = Some bp ->
        heap batch_output_read !! bp = Some (OBatch b) ->
        NoDup (GetChildren b)
        /\ (bp ∉ GetChildren b)
        /\ (bp ∉ finished_ batch_output_read)
        /\ Forall (fun c => exists p,
                     heap batch_output_read !! c = Some (OSubprocess p))
                  (GetChildren b)
        /\ (forall c, c ∈ GetChildren b ->
              c ∉ running_ batch_output_read ++ finished_ batch_output_read
                  ++ map fst (procs_to_batch_ batch_output_read))).
Proof.
  apply (reachable_handles_live batch_output_read [0; 1; 2]%nat).
  apply batch_output_read_reachable.
Defined.

(** ** The objects of the jobs *)

Lemma tracked_new stale : tracked (SubprocessSet_new stale) = [].
Proof.
  unfold tracked, active_children, SubprocessSet_new.
  cbn [batch_process_ heap running_ finished_ procs_to_batch_ map app].
  destruct stale; [rewrite lookup_empty|]; reflexivity.
Qed.

Lemma SetBatchMode_same s b os :
  heap (SetBatchMode s b os) = heap s
  /\ tracked (SetBatchMode s b os) = tracked s.
Proof.
  unfold SetBatchMode.
  destruct b; [destruct (bm_SearchPath os =? 0)|]; split; reflexivity.
Qed.

Lemma NextFinished_same s :
  heap (NextFinished s).2 = heap s
  /\ forall a, a ∈ tracked (NextFinished s).2 -> a ∈ tracked s.
Proof.
  unfold NextFinished.
  destruct (finished_ s) as [|x rest] eqn:E; [split; auto|].
  cbn [snd]. split; [reflexivity|].
  intros a Ha. unfold tracked in *.
  change (active_children (set_finished s rest))
    with (active_children s) in Ha.
  cbn [set_finished running_ finished_ procs_to_batch_] in Ha.
  rewrite E. clear -Ha. set_unfold. naive_solver.
Qed.

Lemma Add_tracked s command os h s' t :
  set_inv s -> Add s command os = Ret (h, s', t) ->
  forall a, a ∈ tracked s' -> a = next_ptr s \/ a ∈ tracked s.
Proof.
  intros Hinv Hadd a Ha.
  pose proof (active_children_Add _ _ _ _ _ _ Hinv Hadd) as Hch.
  destruct (Add_shape _ _ _ _ _ _ Hadd) as (_ & _ & _ & Hlists).
  unfold tracked in *. rewrite Hch in Ha.
  destruct Hlists as [(Hp & Hr & Hf)|[(Hp & Hr & Hf)|(Hp & Hr & Hf)]];
    rewrite Hp, Hr, Hf in Ha; rewrite ?map_app in Ha; cbn [map fst] in Ha;
    clear -Ha; set_unfold; naive_solver.
Qed.

Lemma DoWork_flush_tracked fuel s os returned s' t :
  set_inv s -> DoWork_flush fuel s os = Ret (returned, s', t) ->
  (forall a, a <> next_ptr s -> heap s' !! a = heap s !! a)
  /\ forall a, a ∈ tracked s' ->
       a ∈ tracked s
       \/ a = next_ptr s /\ exists b, heap s' !! a = Some (OBatch b).
Proof.
  intros Hinv Hflush.
  destruct (procs_to_batch_ s) as [|sp rest] eqn:E.
  { unfold DoWork_flush in Hflush. rewrite E in Hflush.
    injection Hflush as _ <- _. split; auto. }
  assert (Hne : procs_to_batch_ s <> []) by (rewrite E; discriminate).
  clear E.
  destruct (DoWork_flush_new_batch _ _ _ _ _ _ Hne Hflush)
    as (_ & Hbp & (b1 & Hheap & Hchildren) & Hfin & Hrun & Hpend).
  split.
  - intros a Ha. rewrite Hheap. apply lookup_insert_ne. congruence.
  - intros a Ha.
    assert (Hch : active_children s' = map fst (procs_to_batch_ s)).
    { unfold active_children. rewrite Hbp, Hheap, lookup_insert_eq.
      exact Hchildren. }
    assert (Hb : heap s' !! next_ptr s = Some (OBatch b1))
      by (rewrite Hheap; apply lookup_insert_eq).
    unfold tracked in *. rewrite Hch, Hpend, Hfin in Ha.
    destruct Hrun as [Hr|Hr]; rewrite Hr in Ha; cbn [map app] in Ha.
    + left. clear -Ha. set_unfold. naive_solver.
    + apply elem_of_app in Ha as [Ha|Ha].
      * apply elem_of_app in Ha as [Ha|Ha].
        -- left. apply elem_of_app. left. exact Ha.
        -- apply list_elem_of_singleton in Ha. subst a.
           right. split; [reflexivity|]. exists b1. exact Hb.
      * left. clear -Ha. set_unfold. naive_solver.
Qed.

Lemma DoWork_wait_tracked fuel s os stop s' t :
  set_inv s -> DoWork_wait fuel s os = Ret (stop, s', t) ->
  forall a, a ∈ tracked s' ->
    a ∈ tracked s /\ kind (heap s' !! a) = kind (heap s !! a).
Proof.
  intros [H1 H2 H3 H4 H5] Hwait a Ha.
  destruct (DoWork_wait_shape _ _ _ _ _ _ Hwait)
    as (Hnext & Hpend & [(Hk & Hbp & Hlists)|Hdone]).
  - split; [|apply Hk].
    assert (Hch : active_children s' = active_children s)
      by (apply active_children_same_kind; assumption).
    unfold tracked in *. rewrite Hch, Hpend in Ha.
    destruct Hlists as [[Hr Hf]|(x & Hx & _ & Hr & Hf)];
      rewrite Hr, Hf in Ha; [exact Ha|].
    unfold remove_all in Ha. clear -Ha Hx.
    set_unfold. setoid_rewrite list_elem_of_filter in Ha. naive_solver.
  - destruct Hdone as (bp & b & Hbp & Hb & Hnone & Hr & Hf & Hgone & Hk).
    assert (Hchs : active_children s = GetChildren b).
    { unfold active_children. rewrite Hbp, Hb. reflexivity. }
    assert (Hch : active_children s' = []).
    { unfold active_children. rewrite Hnone. reflexivity. }
    assert (Hnotfin : bp ∉ finished_ s).
    { apply (H5 bp (GetChildren b) Hbp). rewrite Hb. reflexivity. }
    assert (Hjob : forall a,
               a ∈ map fst (procs_to_batch_ s) ++ GetChildren b -> a <> bp).
    { intros c Hc ->. rewrite <- Hchs in Hc. apply H4 in Hc.
      rewrite Hb in Hc. discriminate. }
    assert (Htr : a <> bp /\ a ∈ tracked s).
    { unfold tracked in *. rewrite Hchs.
      rewrite Hch, Hpend, Hr, Hf, app_nil_r in Ha. unfold remove_all in Ha.
      apply elem_of_app in Ha as [Ha|Ha].
      { apply list_elem_of_filter in Ha as [Hne Ha].
        split; [exact Hne|]. apply elem_of_app. left. exact Ha. }
      apply elem_of_app in Ha as [Ha|Ha].
      { apply elem_of_app in Ha as [Ha|Ha].
        - split; [intros ->; contradiction|].
          apply elem_of_app. right. apply elem_of_app. left. exact Ha.
        - split; [apply Hjob; apply elem_of_app; right; exact Ha|].
          do 3 (apply elem_of_app; right). exact Ha. }
      split; [apply Hjob; apply elem_of_app; left; exact Ha|].
      do 2 (apply elem_of_app; right). apply elem_of_app. left. exact Ha. }
    destruct Htr as [Hne Hin]. split; [exact Hin|apply Hk, Hne].
Qed.

(** The part of [DoWork] from the wait on deletes no process. *)
Lemma DoWork_wait_keeps_processes fuel s os stop s' t :
  DoWork_wait fuel s os = Ret (stop, s', t) ->
  forall a, kind (heap s !! a) = Some None -> kind (heap s' !! a) = Some None.
Proof.
  intros Hwait a Ha.
  destruct (DoWork_wait_shape _ _ _ _ _ _ Hwait)
    as (_ & _ & [(Hk & _ & _)|Hdone]).
  - rewrite Hk. exact Ha.
  - destruct Hdone as (bp & b & _ & Hb & _ & _ & _ & _ & Hk).
    rewrite Hk; [exact Ha|]. intros ->. rewrite Hb in Ha. discriminate.
Qed.

Lemma reachable_jobs s hs : reachable s hs -> jobs_inv s hs.
Proof.
  induction 1 as [stale|s hs b os Hr IH|s hs command os h s' t Hr IH Hadd
                  |s hs fuel os stop s' t Hr IH Hwork|s hs Hr IH].
  - split.
    + intros h Hh. inversion Hh.
    + intros a Ha. rewrite tracked_new in Ha. inversion Ha.
  - destruct (SetBatchMode_same s b os) as [Hh Ht].
    destruct IH as [IH1 IH2]. split.
    + intros h Hin. rewrite Hh. apply IH1, Hin.
    + intros a Ha. rewrite Hh. rewrite Ht in Ha. apply IH2, Ha.
  - pose proof (reachable_inv _ _ Hr) as Hinv.
    pose proof (Add_tracked _ _ _ _ _ _ Hinv Hadd) as Htr.
    destruct (Add_handle _ _ _ _ _ _ Hadd) as [-> _].
    destruct (Add_shape _ _ _ _ _ _ Hadd) as (_ & Hold & Hnew & _).
    destruct Hinv as [_ Hbound _ _ _]. destruct IH as [IH1 IH2].
    assert (Hkeep : forall a, kind (heap s !! a) <> None ->
                              heap s' !! a = heap s !! a).
    { intros a Ha. apply Hold. specialize (Hbound a Ha). lia. }
    cbn [option_list]. split.
    + intros h Hin. apply elem_of_app in Hin as [Hin|Hin].
      * rewrite Hkeep by (rewrite (IH1 h Hin); discriminate).
        apply IH1, Hin.
      * apply list_elem_of_singleton in Hin. subst h. exact Hnew.
    + intros a Ha. destruct (Htr a Ha) as [->|Hin].
      * left. apply elem_of_app. right. apply list_elem_of_singleton.
        reflexivity.
      * destruct (IH2 a Hin) as [Hhs|[ch Hk]].
        -- left. apply elem_of_app. left. exact Hhs.
        -- right. exists ch.
           rewrite Hkeep by (rewrite Hk; discriminate). exact Hk.
  - pose proof (reachable_inv _ _ Hr) as Hinv.
    unfold DoWork in Hwork.
    destruct (DoWork_flush fuel s os) as [[[returned s1] t0]| | | |]
      eqn:Hflush; cbn [mbind outcome_bind obind] in Hwork; try discriminate.
    pose proof (DoWork_flush_inv _ _ _ _ _ _ Hinv Hflush) as Hinv1.
    destruct (DoWork_flush_tracked _ _ _ _ _ _ Hinv Hflush) as [Hold Htr].
    destruct Hinv as [_ Hbound _ _ _]. destruct IH as [IH1 IH2].
    assert (Hkeep : forall a, kind (heap s !! a) <> None ->
                              heap s1 !! a = heap s !! a).
    { intros a Ha. apply Hold. specialize (Hbound a Ha). lia. }
    assert (J1 : jobs_inv s1 hs).
    { split.
      - intros h Hin.
        rewrite Hkeep by (rewrite (IH1 h Hin); discriminate).
        apply IH1, Hin.
      - intros a Ha. destruct (Htr a Ha) as [Hin|[_ [b Hb]]].
        + destruct (IH2 a Hin) as [Hhs|[ch Hk]]; [left; exact Hhs|].
          right. exists ch.
          rewrite Hkeep by (rewrite Hk; discriminate). exact Hk.
        + right. exists (GetChildren b). rewrite Hb. reflexivity. }
    destruct returned; [injection Hwork as _ <- _; exact J1|].
    destruct (DoWork_wait fuel s1 os) as [[[stop' s2] t1]| | | |] eqn:Hwait;
      cbn [mbind outcome_bind obind] in Hwork; try discriminate.
    injection Hwork as _ <- _. destruct J1 as [J1 J2]. split.
    + intros h Hin.
      apply (DoWork_wait_keeps_processes _ _ _ _ _ _ Hwait), J1, Hin.
    + intros a Ha.
      destruct (DoWork_wait_tracked _ _ _ _ _ _ Hinv1 Hwait a Ha)
        as [Hin Hk].
      rewrite Hk. apply J2, Hin.
  - destruct (NextFinished_same s) as [Hh Ht].
    destruct IH as [IH1 IH2]. split.
    + intros h Hin. rewrite Hh. apply IH1, Hin.
    + intros a Ha. rewrite Hh. apply IH2, Ht, Ha.
Qed.

(** X9: the set deletes no job.  After any sequence of [SetBatchMode],
    [Add], [DoWork] and [NextFinished] calls, every handle that [Add] has
    returned still points to a live process object, also once
    [NextFinished] has handed it over (the set deletes batch objects only,
    and never one of the jobs); and each handle that the set keeps in
    [running_], [finished_], the pending list or the children of the active
    batch is one that [Add] returned, or else points to a batch that
    [DoWork] created. *)
Theorem Add_handles_stay_live (s : SubprocessSet) (hs : list nat) :
  reachable s hs ->
  (forall h, h ∈ hs -> exists p, heap s !! h = Some (OSubprocess p))
  /\ (forall a, a ∈ tracked s ->
        a ∈ hs \/ exists b, heap s !! a = Some (OBatch b)).
Proof.
  intros Hr. destruct (reachable_jobs _ _ Hr) as [H1 H2]. split.
  - intros h Hin. specialize (H1 h Hin).
    destruct (heap s !! h) as [[p|b]|]; try discriminate. eauto.
  - intros a Ha. destruct (H2 a Ha) as [Hin|[ch Hk]]; [left; exact Hin|].
    right. destruct (heap s !! a) as [[p|b]|]; try discriminate. eauto.
Qed.

(** An instance: the first batch was displaced by a second one, and
    [finished_] holds the first batch. *)
Lemma Add_handles_stay_live_witness :
  (forall h, h ∈ [0; 1; 2; 4]%nat ->
     exists p, heap second_batch_started !! h = Some (OSubprocess p))
  /\ (forall a, a ∈ tracked second_batch_started ->
        a ∈ [0; 1; 2; 4]%nat
        \/ exists b, heap second_batch_started !! a = Some (OBatch b)).
Proof.
  apply (Add_handles_stay_live second_batch_started [0; 1; 2; 4]%nat).
  apply second_batch_started_reachable.
Defined.

(** ** A set constructed over a stale [batch_process_] *)

(** X26: the constructor leaves [batch_process_] as it finds it (line 197
    initialises [batch_mode_] only), and [DoWork] compares it with the
    process of the event (line 299).  If it happens to hold the address of
    a job's process, then at the event on which that process is done
    [DoWork] does not treat it as an ordinary process: it takes it for a
    batch, and the behaviour is undefined. *)
Theorem DoWork_wait_stale_batch_pointer (fuel : nat) (s : SubprocessSet)
    (os : os_DoWork) (h : nat) (p p1 : Subprocess) (t1 : list os_call) :
  dw_GetQueuedCompletionStatus os = true
  \/ dw_GetQueuedCompletionStatus_error os = ERROR_BROKEN_PIPE ->
  dw_subproc os = Some h ->
  batch_process_ s = Some h ->
  heap s !! h = Some (OSubprocess p) ->
  OnPipeReady p (dw_pipe os) = Ret (p1, t1) ->
  Done p1 = true ->
  DoWork_wait fuel s os = Undefined.
Proof.
  intros Hok Hkey Hstale Hobj Hpipe Hdone. unfold DoWork_wait.
  assert (Hf : negb (dw_GetQueuedCompletionStatus os)
               && negb (dw_GetQueuedCompletionStatus_error os
                        =? ERROR_BROKEN_PIPE) = false).
  { destruct Hok as [->| ->]; [reflexivity|].
    rewrite Z.eqb_refl. apply andb_false_r. }
  rewrite Hf, Hkey, (deref_live _ _ _ Hobj).
  cbn [mbind outcome_bind obind base_of].
  rewrite Hpipe. cbn [mbind outcome_bind obind]. rewrite Hdone.
  change (batch_process_ (store s h (with_base (OSubprocess p) p1)))
    with (batch_process_ s).
  destruct (decide (batch_process_ s = Some h)) as [_|Hn];
    [reflexivity|contradiction].
Qed.

(** An instance: the set is constructed where [batch_process_] holds the
    address that the first job will get; the job is started and its pipe
    breaks. *)
Lemma DoWork_wait_stale_batch_pointer_witness :
  reachable stale_first_job [0%nat]
  /\ DoWork_wait 1 stale_first_job (event_for 0 pipe_broken 0) = Undefined.
Proof.
  split.
  - apply (reach_Add (SubprocessSet_new (Some 0%nat)) [] (lit "cl.exe /c a.c")
             add_ok (Some 0%nat) stale_first_job
             (calls_of (Add (SubprocessSet_new (Some 0%nat))
                            (lit "cl.exe /c a.c") add_ok)));
      [apply reach_new|vm_compute; reflexivity].
  - apply (DoWork_wait_stale_batch_pointer 1 stale_first_job
             (event_for 0 pipe_broken 0) 0
             (process_at stale_first_job 0)
             (set_pipe (process_at stale_first_job 0) NULL)
             [CloseHandle (pipe_ (process_at stale_first_job 0))]).
    + left. reflexivity.
    + reflexivity.
    + reflexivity.
    + vm_compute. reflexivity.
    + reflexivity.
    + reflexivity.
Defined.

(** ** The life of a job outside batch mode *)

Lemma OnPipeReady_read (p : Subprocess) (e : os_OnPipeReady) :
  read_issued e = true ->
  exists p1,
    OnPipeReady p e = Ret (p1, [])
    /\ buf_ p1 = buf_ p ++ (if is_reading_ p then pr_bytes e else [])
    /\ is_reading_ p1 = true
    /\ pipe_ p1 = pipe_ p
    /\ child_ p1 = child_ p
    /\ use_override_status_ p1 = use_override_status_ p.
Proof.
  intros He. unfold read_issued in He. apply andb_prop in He as [Hov Hnext].
  unfold OnPipeReady. rewrite Hov. cbn [negb].
  set (p1 := if is_reading_ p && negb (slen (pr_bytes e) =? 0)
             then set_buf p (buf_ p ++ pr_bytes e) else p).
  assert (Hp1 : buf_ p1 = buf_ p ++ (if is_reading_ p then pr_bytes e else [])
                /\ pipe_ p1 = pipe_ p /\ child_ p1 = child_ p
                /\ use_override_status_ p1 = use_override_status_ p).
  { unfold p1. destruct (is_reading_ p); cbn [andb].
    - destruct (slen (pr_bytes e) =? 0) eqn:E; cbn [negb].
      + apply Z.eqb_eq in E. unfold slen in E.
        destruct (pr_bytes e); [|cbn in E; lia].
        rewrite app_nil_r. auto.
      + auto.
    - rewrite app_nil_r. auto. }
  destruct Hp1 as (Hbuf & Hpipe & Hchild & Hover).
  exists (set_is_reading p1 true).
  split; [|split_and!; try assumption; reflexivity].
  destruct (pr_ReadFile e); [reflexivity|]. cbn [negb orb] in Hnext |- *.
  apply Z.eqb_eq in Hnext. rewrite Hnext. reflexivity.
Qed.

Lemma OnPipeReady_broken (p : Subprocess) (e : os_OnPipeReady) :
  end_of_stream e = true ->
  OnPipeReady p e = Ret (set_pipe p NULL, [CloseHandle (pipe_ p)]).
Proof.
  intros He. unfold end_of_stream in He. apply andb_prop in He as [Hov Herr].
  unfold OnPipeReady. rewrite Hov, Herr. reflexivity.
Qed.

(** One call of [DoWork] for an event of a process that is not the active
    batch, with nothing pending. *)
Lemma DoWork_event (fuel : nat) (s : SubprocessSet) (e : os_DoWork)
    (h : nat) (p p1 : Subprocess) (t1 : list os_call) :
  procs_to_batch_ s = [] ->
  event_of h e ->
  heap s !! h = Some (OSubprocess p) ->
  batch_process_ s <> Some h ->
  OnPipeReady p (dw_pipe e) = Ret (p1, t1) ->
  exists s',
    DoWork fuel s e = Ret (false, s', t1)
    /\ heap s' = <[ h := OSubprocess p1 ]> (heap s)
    /\ procs_to_batch_ s' = []
    /\ batch_process_ s' = batch_process_ s
    /\ (Done p1 = false ->
        running_ s' = running_ s /\ finished_ s' = finished_ s)
    /\ (Done p1 = true -> h ∈ running_ s ->
        running_ s' = remove_all h (running_ s)
        /\ finished_ s' = finished_ s ++ [h]).
Proof.
  intros Hpend [Hkey Hok] Ho Hnb Hpipe. unfold DoWork, DoWork_flush.
  rewrite Hpend. cbn [length Nat.eqb negb mbind outcome_bind obind].
  unfold DoWork_wait.
  assert (Hf : negb (dw_GetQueuedCompletionStatus e)
               && negb (dw_GetQueuedCompletionStatus_error e
                        =? ERROR_BROKEN_PIPE) = false).
  { destruct Hok as [->| ->]; [reflexivity|].
    rewrite Z.eqb_refl. apply andb_false_r. }
  rewrite Hf, Hkey, (deref_live _ _ _ Ho).
  cbn [mbind outcome_bind obind base_of]. rewrite Hpipe.
  cbn [mbind outcome_bind obind with_base].
  change (batch_process_ (store s h (OSubprocess p1)))
    with (batch_process_ s).
  change (running_ (store s h (OSubprocess p1))) with (running_ s).
  destruct (Done p1) eqn:Hdone.
  - destruct (decide (batch_process_ s = Some h)) as [E|_]; [contradiction|].
    destruct (decide (length (remove_all h (running_ s))
                      = length (running_ s))) as [Hsame|Hchanged];
      cbn [mbind outcome_bind obind]; eexists;
      (split; [reflexivity|]); cbn; rewrite ?Hpend;
      (split_and!; try reflexivity; try discriminate).
    + intros _ Hin. exfalso. exact (remove_all_shorter _ _ Hin Hsame).
    + intros _ _. split; reflexivity.
  - cbn [mbind outcome_bind obind]. eexists. split; [reflexivity|].
    cbn. rewrite ?Hpend. split_and!; try reflexivity; try discriminate.
    intros _. split; reflexivity.
Qed.

(** The completed reads of a process that is reading: its output grows by
    their bytes, and the set is otherwise as it was. *)
Lemma DoWork_all_reads (fuel : nat) (h : nat) (reads : list os_DoWork) :
  forall (s : SubprocessSet) (p : Subprocess),
    procs_to_batch_ s = [] ->
    batch_process_ s <> Some h ->
    heap s !! h = Some (OSubprocess p) ->
    is_reading_ p = true ->
    pipe_ p <> NULL ->
    Forall (event_of h) reads ->
    forallb (fun e => read_issued (dw_pipe e)) reads = true ->
    exists s' p',
      (forall rest,
         DoWork_all fuel s (reads ++ rest) = DoWork_all fuel s' rest)
      /\ heap s' = <[ h := OSubprocess p' ]> (heap s)
      /\ procs_to_batch_ s' = []
      /\ batch_process_ s' = batch_process_ s
      /\ running_ s' = running_ s
      /\ finished_ s' = finished_ s
      /\ buf_ p' = buf_ p ++ concat (map (fun e => pr_bytes (dw_pipe e)) reads)
      /\ is_reading_ p' = true
      /\ pipe_ p' = pipe_ p
      /\ child_ p' = child_ p
      /\ use_override_status_ p' = use_override_status_ p.
Proof.
  induction reads as [|e reads IH];
    intros s p Hpend Hnb Ho Hrd Hpipe Hev Hall.
  - exists s, p. cbn [DoWork_all map concat]. rewrite app_nil_r.
    split_and!; try reflexivity; try assumption.
    symmetry. apply insert_id, Ho.
  - apply Forall_cons in Hev as [He Hev].
    cbn [forallb] in Hall. apply andb_prop in Hall as [Hread Hall].
    destruct (OnPipeReady_read p (dw_pipe e) Hread)
      as (p1 & Hp1 & Hbuf1 & Hrd1 & Hpipe1 & Hchild1 & Hover1).
    rewrite Hrd in Hbuf1.
    destruct (DoWork_event fuel s e h p p1 [] Hpend He Ho Hnb Hp1)
      as (s1 & Hwork & Hheap1 & Hpend1 & Hb1 & Hnot & _).
    destruct Hnot as [Hrun1 Hfin1].
    { unfold Done. rewrite Hpipe1. apply Z.eqb_neq, Hpipe. }
    destruct (IH s1 p1) as (s' & p' & Hrest & Hheap & Hpend' & Hb' & Hrun'
                            & Hfin' & Hbuf' & Hrd' & Hpipe' & Hchild' & Hover');
      try assumption.
    { rewrite Hb1. exact Hnb. }
    { rewrite Hheap1. apply lookup_insert_eq. }
    { rewrite Hpipe1. exact Hpipe. }
    exists s', p'.
    split_and!; try reflexivity; try congruence.
    + intros rest. cbn [DoWork_all app]. rewrite Hwork.
      cbn [mbind outcome_bind obind]. rewrite Hrest.
      destruct (DoWork_all fuel s' rest) as [[s2 t2]| | | |]; reflexivity.
    + rewrite Hheap, Hheap1. apply insert_insert_eq.
    + rewrite Hbuf', Hbuf1. cbn [map concat]. rewrite app_assoc. reflexivity.
Qed.

(** X21: the life of a job outside batch mode.  In a set reached by calls
    of its operations, with batching off and nothing pending, and with a
    [batch_process_] that is not the address the new job gets (the
    constructor leaves that pointer uninitialised), [Add] starts the
    process; then the port delivers the events of its pipe: the
    connection, any number of completed reads, and the broken pipe at the
    end of the output.  One call of [DoWork] per event returns [false] each
    time, and afterwards the handle that [Add] returned is at the end of
    [finished_] and no longer running, its output is exactly the bytes of
    the completed reads in order, its pipe is closed, its [Finish]
    classifies the exit code of the process, and no other object has
    changed. *)
Theorem job_life_cycle (fuel : nat) (s s1 : SubprocessSet) (hs : list nat)
    (command : str) (os : os_Add) (hProcess hThread : HANDLE)
    (h : option nat) (t0 : list os_call)
    (first : os_DoWork) (reads : list os_DoWork) (last : os_DoWork) :
  reachable s hs ->
  batch_mode_ s = false ->
  procs_to_batch_ s = [] ->
  batch_process_ s <> Some (next_ptr s) ->
  st_CreateProcess (ad_start os) = Created hProcess hThread ->
  hProcess <> NULL ->
  sp_CreateNamedPipe (st_setup (ad_start os)) <> NULL ->
  Add s command os = Ret (h, s1, t0) ->
  Forall (event_of (next_ptr s)) (first :: reads ++ [last]) ->
  read_issued (dw_pipe first) = true ->
  forallb (fun e => read_issued (dw_pipe e)) reads = true ->
  end_of_stream (dw_pipe last) = true ->
  h = Some (next_ptr s)
  /\ exists s' p',
       DoWork_all fuel s1 (first :: reads ++ [last])
       = Ret (s', [CloseHandle (sp_CreateNamedPipe (st_setup (ad_start os)))])
       /\ running_ s' = running_ s
       /\ finished_ s' = finished_ s ++ [next_ptr s]
       /\ heap s' !! next_ptr s = Some (OSubprocess p')
       /\ GetOutput p'
          = concat (map (fun e => pr_bytes (dw_pipe e)) reads)
       /\ Done p' = true
       /\ (forall exit_code,
             (Finish p' exit_code).1.1 = classify exit_code)
       /\ (forall a, a <> next_ptr s -> heap s' !! a = heap s !! a).
Proof.
  intros Hreach Hmode Hpend Hnb Hcreate Hproc Hpipe Hadd Hev Hfirst Hreads
         Hlast.
  pose proof (reachable_inv _ _ Hreach) as [_ Hbound Hlive _ _].
  set (n := next_ptr s) in *.
  (* Add *)
  unfold Add in Hadd. cbn [alloc batch_mode_] in Hadd.
  rewrite Hmode in Hadd. unfold Start in Hadd.
  destruct (SetupPipe Subprocess_new (st_setup (ad_start os)))
    as [[[cp q] tq]| | | |] eqn:Hsetup;
    cbn [mbind outcome_bind obind] in Hadd; try discriminate.
  apply SetupPipe_fields in Hsetup. subst q.
  set (pipe := sp_CreateNamedPipe (st_setup (ad_start os))) in *.
  destruct (st_nul (ad_start os) =? INVALID_HANDLE_VALUE); [discriminate|].
  rewrite Hcreate in Hadd. cbn [mbind outcome_bind obind negb] in Hadd.
  set (p0 := set_child (set_pipe Subprocess_new pipe) hProcess) in *.
  assert (Hchild : (child_ p0 =? NULL) = false)
    by (apply Z.eqb_neq; exact Hproc).
  rewrite Hchild in Hadd. cbn [negb] in Hadd.
  injection Hadd as <- <- _. split; [reflexivity|].
  set (s1 := push_running _ _).
  assert (Hheap1 : heap s1 = <[ n := OSubprocess p0 ]> (heap s))
    by apply insert_insert_eq.
  assert (Hn : n ∉ running_ s).
  { intros Hin. assert (n < n)%nat; [|lia].
    apply Hbound, Hlive. apply elem_of_app. left. exact Hin. }
  apply Forall_cons in Hev as [Hev0 Hev].
  apply Forall_app in Hev as [Hevr Hevl].
  apply Forall_cons in Hevl as [Hevl _].
  (* the connection *)
  destruct (OnPipeReady_read p0 (dw_pipe first) Hfirst)
    as (p1 & Hp1 & Hbuf1 & Hrd1 & Hpipe1 & Hchild1 & Hover1).
  destruct (DoWork_event fuel s1 first n p0 p1 [] Hpend Hev0) as
    (s2 & Hwork1 & Hheap2 & Hpend2 & Hb2 & Hnot2 & _);
    [rewrite Hheap1; apply lookup_insert_eq|exact Hnb|exact Hp1|].
  destruct Hnot2 as [Hrun2 Hfin2].
  { unfold Done. rewrite Hpipe1. apply Z.eqb_neq, Hpipe. }
  (* the reads *)
  destruct (DoWork_all_reads fuel n reads s2 p1)
    as (s3 & p3 & Hrest & Hheap3 & Hpend3 & Hb3 & Hrun3 & Hfin3 & Hbuf3
        & Hrd3 & Hpipe3 & Hchild3 & Hover3); try assumption.
  { rewrite Hb2. exact Hnb. }
  { rewrite Hheap2. apply lookup_insert_eq. }
  { rewrite Hpipe1. exact Hpipe. }
  (* the end of the output *)
  pose proof (OnPipeReady_broken p3 (dw_pipe last) Hlast) as Hp4.
  destruct (DoWork_event fuel s3 last n p3 (set_pipe p3 NULL)
              [CloseHandle (pipe_ p3)] Hpend3 Hevl)
    as (s4 & Hwork4 & Hheap4 & Hpend4 & Hb4 & _ & Hdone4);
    [rewrite Hheap3; apply lookup_insert_eq|rewrite Hb3, Hb2; exact Hnb
    |exact Hp4|].
  destruct Hdone4 as [Hrun4 Hfin4]; [reflexivity| |].
  { rewrite Hrun3, Hrun2. apply elem_of_app. right. left. }
  exists s4, (set_pipe p3 NULL). split_and!.
  - cbn [DoWork_all]. rewrite Hwork1. cbn [mbind outcome_bind obind].
    rewrite Hrest. cbn [DoWork_all]. rewrite Hwork4.
    cbn [mbind outcome_bind obind app]. rewrite Hpipe3, Hpipe1. reflexivity.
  - rewrite Hrun4, Hrun3, Hrun2. cbn [s1 push_running set_running running_
      store set_heap]. unfold remove_all. rewrite filter_app.
    rewrite filter_cons_False by (intros E; apply E; reflexivity).
    rewrite filter_nil, app_nil_r.
    apply (remove_all_same n (running_ s) Hn).
  - rewrite Hfin4, Hfin3, Hfin2. reflexivity.
  - rewrite Hheap4. apply lookup_insert_eq.
  - unfold GetOutput. cbn [set_pipe buf_]. rewrite Hbuf3, Hbuf1. reflexivity.
  - reflexivity.
  - intros exit_code. unfold Finish. cbn [set_pipe use_override_status_ child_].
    rewrite Hover3, Hover1, Hchild3, Hchild1. cbn [p0 set_child set_pipe
      Subprocess_new use_override_status_ child_].
    apply Z.eqb_neq in Hproc. rewrite Hproc. reflexivity.
  - intros a Ha. rewrite Hheap4, Hheap3, Hheap2, Hheap1.
    rewrite !lookup_insert_ne by congruence. reflexivity.
Qed.

(** An instance: the first job of a new set prints one line. *)
Lemma job_life_cycle_witness :
  Some 0%nat = Some (next_ptr new_set)
  /\ exists s' p',
       DoWork_all 0 one_running
         (event_for 0 pipe_pending 0
          :: one_line_read ++ [event_for 0 pipe_broken 0])
       = Ret (s', [CloseHandle
                     (sp_CreateNamedPipe (st_setup (ad_start add_ok)))])
       /\ running_ s' = running_ new_set
       /\ finished_ s'
          = finished_ new_set ++ [next_ptr new_set]
       /\ heap s' !! next_ptr new_set = Some (OSubprocess p')
       /\ GetOutput p'
          = concat (map (fun e => pr_bytes (dw_pipe e)) one_line_read)
       /\ Done p' = true
       /\ (forall exit_code,
             (Finish p' exit_code).1.1 = classify exit_code)
       /\ (forall a, a <> next_ptr new_set ->
             heap s' !! a = heap new_set !! a).
Proof.
  apply (job_life_cycle 0 new_set one_running []
           (lit "cl.exe /c a.c") add_ok 200 201 (Some 0%nat)
           (calls_of (Add new_set (lit "cl.exe /c a.c") add_ok))
           (event_for 0 pipe_pending 0) one_line_read
           (event_for 0 pipe_broken 0)).
  - apply reach_new.
  - reflexivity.
  - reflexivity.
  - discriminate.
  - reflexivity.
  - vm_compute. discriminate.
  - vm_compute. discriminate.
  - vm_compute. reflexivity.
  - repeat (apply Forall_cons; split); try solve [constructor];
      (split; [reflexivity|left; reflexivity]).
  - reflexivity.
  - reflexivity.
  - reflexivity.
Defined.

(** ** A command that is not found, outside batch mode *)

(** X22: a command that cannot be found is reported as a failed job
    without any event.  With batching off, [Add] of a command whose
    executable [CreateProcess] does not find returns a handle all the
    same; the process is not running but already at the end of
    [finished_], with its pipe closed and no process handle; its output is
    the failure message, and [Finish] returns failure without any system
    call and leaves the object as it is.  If the queue was empty,
    [NextFinished] returns this handle next. *)
Theorem Add_not_found_is_reported (s s1 : SubprocessSet) (command : str)
    (os : os_Add) (h : option nat) (t : list os_call) :
  batch_mode_ s = false ->
  st_CreateProcess (ad_start os) = CreateFailed ERROR_FILE_NOT_FOUND ->
  Add s command os = Ret (h, s1, t) ->
  h = Some (next_ptr s)
  /\ running_ s1 = running_ s
  /\ procs_to_batch_ s1 = procs_to_batch_ s
  /\ finished_ s1 = finished_ s ++ [next_ptr s]
  /\ (finished_ s = [] -> (NextFinished s1).1 = Some (next_ptr s))
  /\ exists p,
       heap s1 !! next_ptr s = Some (OSubprocess p)
       /\ GetOutput p = not_found_message
       /\ Done p = true
       /\ child_ p = NULL
       /\ forall exit_code, Finish p exit_code = (ExitFailure, p, []).
Proof.
  intros Hmode Hcreate. unfold Add. cbn [alloc batch_mode_].
  rewrite Hmode. unfold Start.
  destruct (SetupPipe Subprocess_new (st_setup (ad_start os)))
    as [[[cp q] tq]| | | |] eqn:Hsetup;
    cbn [mbind outcome_bind obind]; try discriminate.
  apply SetupPipe_fields in Hsetup. subst q.
  destruct (st_nul (ad_start os) =? INVALID_HANDLE_VALUE); [discriminate|].
  rewrite Hcreate. rewrite Z.eqb_refl.
  cbn [mbind outcome_bind obind negb set_buf set_pipe child_ Subprocess_new].
  change (NULL =? NULL) with true. cbn [negb].
  intros [= <- <- _].
  cbn [push_finished set_finished store set_heap running_ finished_
       procs_to_batch_ heap].
  split_and!; try reflexivity.
  - intros Hempty. unfold NextFinished.
    cbn [set_finished finished_]. rewrite Hempty. reflexivity.
  - eexists. split; [apply lookup_insert_eq|].
    split_and!; try reflexivity.
Qed.

(** An instance: the first command of a new set is not found. *)
Lemma Add_not_found_is_reported_witness :
  Some 0%nat = Some (next_ptr new_set)
  /\ running_ not_found_ready = running_ new_set
  /\ procs_to_batch_ not_found_ready = procs_to_batch_ new_set
  /\ finished_ not_found_ready
     = finished_ new_set ++ [next_ptr new_set]
  /\ (finished_ new_set = [] ->
      (NextFinished not_found_ready).1 = Some (next_ptr new_set))
  /\ exists p,
       heap not_found_ready !! next_ptr new_set
       = Some (OSubprocess p)
       /\ GetOutput p = not_found_message
       /\ Done p = true
       /\ child_ p = NULL
       /\ forall exit_code, Finish p exit_code = (ExitFailure, p, []).
Proof.
  apply (Add_not_found_is_reported new_set not_found_ready
           (lit "no-such-tool.exe") add_not_found (Some 0%nat)
           (calls_of (Add new_set (lit "no-such-tool.exe")
                          add_not_found))).
  - reflexivity.
  - reflexivity.
  - vm_compute. reflexivity.
Defined.

(** ** SubprocessSet::DoWork: a batch whose runner is not found *)

(** X23: a batch that cannot be started is lost, whatever the set and the
    pending jobs.  When the executable of the batch command is not found,
    the part of [DoWork] before the wait does not report a failure: it
    returns [false], so [DoWork] goes on to wait for an event.  The new
    batch is the active batch but is put neither on [running_] nor on
    [finished_] (unlike a single process in [Add]); the pending list is
    emptied, so the jobs are only children of a batch whose pipe is closed
    already and which holds the failure message; no other object
    changes. *)
Theorem DoWork_flush_batch_not_found (fuel : nat) (s s' : SubprocessSet)
    (os : os_DoWork) (returned : bool) (t : list os_call) :
  procs_to_batch_ s <> [] ->
  st_CreateProcess (dw_start os) = CreateFailed ERROR_FILE_NOT_FOUND ->
  DoWork_flush fuel s os = Ret (returned, s', t) ->
  returned = false
  /\ running_ s' = running_ s
  /\ finished_ s' = finished_ s
  /\ procs_to_batch_ s' = []
  /\ batch_process_ s' = Some (next_ptr s)
  /\ active_children s' = map fst (procs_to_batch_ s)
  /\ (forall a, a <> next_ptr s -> heap s' !! a = heap s !! a)
  /\ exists b,
       heap s' !! next_ptr s = Some (OBatch b)
       /\ GetOutput (base b) = not_found_message
       /\ Done (base b) = true
       /\ child_ (base b) = NULL.
Proof.
  intros Hne Hcreate. unfold DoWork_flush.
  destruct (procs_to_batch_ s) as [|sp rest] eqn:E; [contradiction|].
  cbn [length Nat.eqb negb].
  destruct (BatchSubprocess_new _ _ _) as [[b t0]| | | |] eqn:Hnew;
    cbn [mbind outcome_bind obind]; try discriminate.
  pose proof (BatchSubprocess_new_children _ _ _ _ _ Hnew) as Hchildren.
  assert (Hbase : base b = Subprocess_new).
  { unfold BatchSubprocess_new in Hnew.
    destruct (slen (GetTempFileName (dw_temp os)) =? 0); [discriminate|].
    destruct (script_loop _ _ _ _ _) as [[sc ch]| | | |];
      cbn [mbind outcome_bind obind] in Hnew; try discriminate.
    injection Hnew as <- _. reflexivity. }
  cbn [alloc]. rewrite Hbase. unfold Start.
  destruct (SetupPipe Subprocess_new (st_setup (dw_start os)))
    as [[[cp q] tq]| | | |] eqn:Hsetup;
    cbn [mbind outcome_bind obind]; try discriminate.
  apply SetupPipe_fields in Hsetup. subst q.
  destruct (st_nul (dw_start os) =? INVALID_HANDLE_VALUE); [discriminate|].
  rewrite Hcreate, Z.eqb_refl.
  cbn [mbind outcome_bind obind negb set_buf set_pipe child_ Subprocess_new].
  change (NULL =? NULL) with true. cbn [negb].
  intros [= <- <- _].
  unfold active_children.
  cbn [set_procs_to_batch set_batch_process store set_heap running_
       finished_ procs_to_batch_ batch_process_ heap].
  rewrite !lookup_insert_eq.
  split_and!; try reflexivity.
  - exact Hchildren.
  - intros a Ha. rewrite !lookup_insert_ne by congruence. reflexivity.
  - eexists. split; [reflexivity|]. split_and!; reflexivity.
Qed.

(** An instance: process 0 runs, job 1 is queued, and the batch runner is
    not found. *)
Lemma DoWork_flush_batch_not_found_witness :
  false = false
  /\ running_ not_found_batch_flushed = running_ one_running_one_queued
  /\ finished_ not_found_batch_flushed = finished_ one_running_one_queued
  /\ procs_to_batch_ not_found_batch_flushed = []
  /\ batch_process_ not_found_batch_flushed
     = Some (next_ptr one_running_one_queued)
  /\ active_children not_found_batch_flushed
     = map fst (procs_to_batch_ one_running_one_queued)
  /\ (forall a, a <> next_ptr one_running_one_queued ->
        heap not_found_batch_flushed !! a
        = heap one_running_one_queued !! a)
  /\ exists b,
       heap not_found_batch_flushed !! next_ptr one_running_one_queued
       = Some (OBatch b)
       /\ GetOutput (base b) = not_found_message
       /\ Done (base b) = true
       /\ child_ (base b) = NULL.
Proof.
  apply (DoWork_flush_batch_not_found 1 one_running_one_queued
           not_found_batch_flushed batch_not_found_then_event_0 false
           (calls_of (DoWork_flush 1 one_running_one_queued
                        batch_not_found_then_event_0))).
  - vm_compute. discriminate.
  - reflexivity.
  - vm_compute. reflexivity.
Defined.

(** ** SubprocessSet::DoWork: the output of a batch ends inside a marker *)

(** X24: [DoWork] does not return when the output of the finished batch
    ends inside a marker line.  The active batch is done, and in what it
    has printed some completion token has no newline after it, or there is
    no completion token and some start token has no newline after it (the
    runner was killed, or the last read ended in the middle of a line).
    Then the call of [ParseOutput] in [DoWork] never returns, whatever
    bound the loops are given: no child of the batch reaches
    [finished_]. *)
Theorem DoWork_wait_cut_marker (s : SubprocessSet) (os : os_DoWork)
    (bp : nat) (b : BatchSubprocess) (p1 : Subprocess)
    (t1 : list os_call) (q : nat) :
  dw_subproc os = Some bp ->
  batch_process_ s = Some bp ->
  heap s !! bp = Some (OBatch b) ->
  OnPipeReady (base b) (dw_pipe os) = Ret (p1, t1) ->
  Done p1 = true ->
  slen (buf_ p1) < npos ->
  (q <= length (buf_ p1))%nat ->
  (newline ∉ drop q (buf_ p1)) ->
  starts_with complete_token (drop q (buf_ p1)) = true
  \/ contains complete_token (buf_ p1) = false
     /\ starts_with start_token (drop q (buf_ p1)) = true ->
  forall fuel r, DoWork_wait fuel s os <> Ret r.
Proof.
  intros Hkey Hactive Ho Hpipe Hdone Hlen Hq Hnl Htok fuel r.
  unfold DoWork_wait.
  destruct (negb (dw_GetQueuedCompletionStatus os) && _); [discriminate|].
  rewrite Hkey, (deref_live _ _ _ Ho). cbn [mbind outcome_bind obind base_of].
  rewrite Hpipe. cbn [mbind outcome_bind obind]. rewrite Hdone.
  change (batch_process_ (store s bp (with_base (OBatch b) p1)))
    with (batch_process_ s).
  destruct (decide (batch_process_ s = Some bp)) as [_|E]; [|contradiction].
  pose proof (Finish_keeps_pipe_and_buf p1 (dw_exit_code os)) as [_ Hbuf].
  destruct (Finish p1 (dw_exit_code os)) as [[err p2] t2].
  cbn [fst snd] in Hbuf. rewrite Hbuf.
  assert (Hq' : Z.of_nat q < npos) by (unfold slen in Hlen; lia).
  assert (Hparse : forall x, ParseOutput fuel (buf_ p1) ∅ ∅ <> Ret x).
  { intros x. destruct Htok as [Hc|[Hnone Hs]].
    - unfold ParseOutput.
      pose proof (find_before (buf_ p1) complete_token 0 q ltac:(lia) Hq Hc)
        as Hloc.
      pose proof (strip_loop_never_exits (buf_ p1) q Hlen Hq Hc Hnl fuel
                    (find (buf_ p1) complete_token 0)
                    [(0, slen (buf_ p1))] ∅) as Hstrip.
      destruct (strip_loop fuel (buf_ p1) _ _ ∅) as [rs| | | |];
        cbn [mbind outcome_bind obind]; try discriminate.
      exfalso. apply (Hstrip rs); [lia|lia|reflexivity].
    - rewrite ParseOutput_no_complete by assumption.
      pose proof (find_before (buf_ p1) start_token 0 q ltac:(lia) Hq Hs)
        as Hloc.
      destruct (find (buf_ p1) start_token 0 =? npos) eqn:E;
        [apply Z.eqb_eq in E; lia|].
      pose proof (split_loop_never_exits (buf_ p1) q Hlen Hq Hs Hnl fuel
                    (find (buf_ p1) start_token 0) ∅) as Hsplit.
      destruct (split_loop fuel (buf_ p1) _ ∅) as [o| | | |];
        cbn [mbind outcome_bind obind]; try discriminate.
      exfalso. apply (Hsplit o); [lia|lia|reflexivity]. }
  destruct (ParseOutput fuel (buf_ p1) ∅ ∅) as [parsed| | | |];
    cbn [mbind outcome_bind obind]; try discriminate.
  exfalso. exact (Hparse parsed eq_refl).
Qed.

(** An instance: the batch of the three jobs is killed after the start
    marker of the second job. *)
Lemma DoWork_wait_cut_marker_witness :
  buf_ (base (batch_at batch_output_cut 3)) = start_marker_cut
  /\ forall fuel r,
       DoWork_wait fuel batch_output_cut (event_for 3 pipe_broken 0) <> Ret r.
Proof.
  split; [vm_compute; reflexivity|].
  apply (DoWork_wait_cut_marker batch_output_cut (event_for 3 pipe_broken 0)
           3 (batch_at batch_output_cut 3)
           (set_pipe (base (batch_at batch_output_cut 3)) NULL)
           [CloseHandle (pipe_ (base (batch_at batch_output_cut 3)))] 18).
  - reflexivity.
  - vm_compute. reflexivity.
  - vm_compute. reflexivity.
  - reflexivity.
  - reflexivity.
  - vm_compute. reflexivity.
  - vm_compute. lia.
  - compute_done.
  - right. split; vm_compute; reflexivity.
Defined.
